(** * bmfont: the BMFont binary reader (bmfont.go), embedded and verified

    The development follows the Go source function by function.

    - Go values: a [byte] is [Byte.byte]; [uint16], [uint32], [int16] and
      [int] are integers of [Z] with the wrap-around written out where the
      source computes in a fixed width ([int] is taken to be 64 bits wide, so
      no [int] expression of the decoder wraps); a [string] is its sequence of
      bytes.
    - Go slices: a slice is a window on a backing array, with a length and a
      capacity.  Indexing [s[i]] is checked against the length, re-slicing
      [s[lo:hi]] against the capacity, and both panic when the check fails.
    - Control: a run-time panic is the outcome [Panic]; a function that
      returns an [error] returns the mutated receiver together with
      [Some e] or [None] (Go's [nil]). *)

From Stdlib Require Import ZArith Strings.Byte.
From stdpp Require Import base numbers list.

Local Open Scope Z_scope.

(** ** Panics *)

Inductive run (A : Type) : Type :=
| Value (a : A)
| Panic.
Arguments Value {A} a.
Arguments Panic {A}.

Definition bind {A B : Type} (m : run A) (k : A -> run B) : run B :=
  match m with
  | Value a => k a
  | Panic => Panic
  end.

Notation "x <- m ;; k" := (bind m (fun x => k))
  (at level 100, m at next level, right associativity).

(** ** Numbers *)

Definition uint8 (c : byte) : Z := Z.of_N (Byte.to_N c).

(** Conversion [byte(x)] of a number below 256. *)
Definition byte_of (x : Z) : byte := default x00 (Byte.of_N (Z.to_N x)).

(** Conversion [uint32(x)]: keep the low 32 bits. *)
Definition uint32 (x : Z) : Z := x mod 2 ^ 32.

(** Conversion [int16(x)] of a [uint16]: the same 16 bits read as two's
    complement. *)
Definition int16 (x : Z) : Z := (x + 2 ^ 15) mod 2 ^ 16 - 2 ^ 15.

(** ** Slices of bytes *)

(** [elems] are the [len(s)] visible elements; [spare] is the part of the
    backing array after them, up to the capacity. *)
Record slice : Type := Slice { elems : list byte; spare : list byte }.

Definition backing (s : slice) : list byte := elems s ++ spare s.
Definition len (s : slice) : Z := Z.of_nat (length (elems s)).
Definition cap (s : slice) : Z := Z.of_nat (length (backing s)).

(** [s[i]] *)
Definition index (s : slice) (i : Z) : run byte :=
  if (0 <=? i) && (i <? len s)
  then match elems s !! Z.to_nat i with
       | Some c => Value c
       | None => Panic
       end
  else Panic.

(** [s[lo:hi]] *)
Definition reslice (s : slice) (lo hi : Z) : run slice :=
  if (0 <=? lo) && (lo <=? hi) && (hi <=? cap s)
  then Value (Slice (take (Z.to_nat (hi - lo)) (drop (Z.to_nat lo) (backing s)))
                    (drop (Z.to_nat hi) (backing s)))
  else Panic.

(** [s[lo:]], that is [s[lo:len(s)]] *)
Definition reslice_from (s : slice) (lo : Z) : run slice :=
  reslice s lo (len s).

(** [make([]byte, n)] *)
Definition make (n : Z) : run slice :=
  if n <? 0 then Panic else Value (Slice (replicate (Z.to_nat n) x00) []).

(** A slice literal: capacity equal to length. *)
Definition bytes (l : list byte) : slice := Slice l [].

(** ** Errors

    The source builds its errors with [fmt.Errorf]; one constructor stands
    for each format string, carrying the formatted arguments. *)
Inductive error : Type :=
| ErrShortDst                          (* transform.ErrShortDst *)
| ErrShortSrc                          (* transform.ErrShortSrc *)
| ErrTransform (code : Z)              (* any other error of a Transformer *)
| InvalidIdentifier (magic : list byte)  (* "Invalid identifier %v" *)
| UnsupportedVersion (v : byte)        (* "Unsupported version %v" *)
| InfoFontNameError (e : error)        (* "Error parsing info section font name: %v" *)
| InfoBlockError (e : error)           (* "Error parsing info block: %v" *)
| CommonBlockError (e : error)         (* "Error parsing common block: %v" *)
| PagesTextError                       (* "Error parsing pages text: %v", no argument given *)
| CharError (i : Z) (e : error)        (* "Error parsing char %v: %v" *)
| KerningPairError (i : Z) (e : error). (* "Error parsing kerning pair %v: %v" *)

(** ** encoding/binary *)

Module LittleEndian.

Definition Uint16 (b : slice) : run Z :=
  _ <- index b 1 ;;
  b0 <- index b 0 ;;
  b1 <- index b 1 ;;
  Value (Z.lor (uint8 b0) (Z.shiftl (uint8 b1) 8)).

Definition Uint32 (b : slice) : run Z :=
  _ <- index b 3 ;;
  b0 <- index b 0 ;;
  b1 <- index b 1 ;;
  b2 <- index b 2 ;;
  b3 <- index b 3 ;;
  Value (Z.lor (Z.lor (Z.lor (uint8 b0) (Z.shiftl (uint8 b1) 8))
                      (Z.shiftl (uint8 b2) 16))
               (Z.shiftl (uint8 b3) 24)).

End LittleEndian.

(** ** strings *)

Module strings.

(** [strings.Split(s, sep)] for a separator of one byte, the only use the
    decoder makes of it: the pieces of [s] between the separators, in
    order; one piece more than there are separators. *)
Fixpoint Split (s : list byte) (sep : byte) : list (list byte) :=
  match s with
  | [] => [[]]
  | c :: s' =>
      if Byte.eqb c sep then [] :: Split s' sep
      else match Split s' sep with
           | [] => [[c]]
           | w :: ws => (c :: w) :: ws
           end
  end.

End strings.

(** ** golang.org/x/text: encoding, encoding/charmap

    [Encoding] is a package-level variable of interface type
    [encoding.Encoding]; the decoder calls
    [Encoding.NewDecoder().Transform(dst, src, atEOF)], which writes into
    [dst] and returns [(nDst, nSrc, err)].  A transformer is modelled as the
    function from the contents of [dst] and [src] to the new contents of
    [dst] and the three results. *)

Module encoding.

Record Decoder : Type :=
  { Transform : list byte -> list byte -> bool -> list byte * Z * Z * option error }.

Record Encoding : Type := { NewDecoder : Decoder }.

End encoding.

Module charmap.

(** A single-byte code page: for each byte the UTF-8 bytes of the character
    it stands for. *)
Record Charmap : Type :=
  { asciiSuperset : bool;
    decode : byte -> list byte }.

(** Modelled from the spec: the decoder of golang.org/x/text/encoding/charmap
    is not among the sources.  The text transcoder converts a span of bytes
    of a legacy single-byte code page into a Unicode string, written into an
    output buffer that the caller has sized; it reports the number of bytes
    produced and fails when the conversion cannot proceed.  Each input byte
    is converted in turn; when the bytes of the next character do not fit in
    what is left of the output buffer the conversion stops with
    [ErrShortDst]. *)
Fixpoint transform_loop (m : Charmap) (dst : list byte) (nDst nSrc i : Z)
    (src : list byte) : list byte * Z * Z * option error :=
  match src with
  | [] => (dst, nDst, nSrc, None)
  | c :: src' =>
      if asciiSuperset m && (uint8 c <? 128) then
        if Z.of_nat (length dst) <=? nDst then (dst, nDst, nSrc, Some ErrShortDst)
        else transform_loop m (<[Z.to_nat nDst := c]> dst) (nDst + 1) (i + 1) (i + 1) src'
      else
        let d := decode m c in
        let n := Z.of_nat (length d) in
        if Z.of_nat (length dst) <? nDst + n then (dst, nDst, nSrc, Some ErrShortDst)
        else transform_loop m (list_inserts (Z.to_nat nDst) d dst) (nDst + n) (i + 1) (i + 1) src'
  end.

Definition NewDecoder (m : Charmap) : encoding.Decoder :=
  {| encoding.Transform := fun dst src _ => transform_loop m dst 0 0 0 src |}.

(** Modelled from the spec: the target of the transcoder is a
    variable-width Unicode encoding; a Go string holds UTF-8.  The UTF-8
    bytes of a code point below U+10000. *)
Definition utf8 (r : Z) : list byte :=
  if r <? 128 then [byte_of r]
  else if r <? 2048 then
    [byte_of (Z.lor 192 (Z.shiftr r 6)); byte_of (Z.lor 128 (Z.land r 63))]
  else
    [byte_of (Z.lor 224 (Z.shiftr r 12));
     byte_of (Z.lor 128 (Z.land (Z.shiftr r 6) 63));
     byte_of (Z.lor 128 (Z.land r 63))].

(** Modelled from the spec: the table of [charmap.Windows1252] is not among
    the sources.  The legacy single-byte encoding is Windows-1252, a Western
    European 8-bit code page: bytes 0x00-0x7F and 0xA0-0xFF stand for the
    code points of the same number, bytes 0x80-0x9F for the characters
    below (the euro sign first), the five unassigned ones (0x81, 0x8D, 0x8F,
    0x90, 0x9D) for the replacement character U+FFFD, as the table of the
    library has them. *)
Definition windows1252_high : list Z :=
  [ 8364; 65533; 8218;  402; 8222; 8230; 8224; 8225;
     710; 8240;  352; 8249;  338; 65533;  381; 65533;
   65533; 8216; 8217; 8220; 8221; 8226; 8211; 8212;
     732; 8482;  353; 8250;  339; 65533;  382;  376 ].

Definition windows1252_rune (c : byte) : Z :=
  let x := uint8 c in
  if (128 <=? x) && (x <? 160)
  then default x (windows1252_high !! Z.to_nat (x - 128))
  else x.

Definition windows1252 : Charmap :=
  {| asciiSuperset := true;
     decode := fun c => utf8 (windows1252_rune c) |}.

Definition Windows1252 : encoding.Encoding :=
  {| encoding.NewDecoder := NewDecoder windows1252 |}.

(** The bytes that one input byte is converted to. *)
Definition image (m : Charmap) (c : byte) : list byte :=
  if asciiSuperset m && (uint8 c <? 128) then [c] else decode m c.

End charmap.

(** [var Encoding encoding.Encoding = charmap.Windows1252]: the initial value
    of the package variable.  The decoding functions below take the current
    value of the variable as their first argument. *)
Definition Encoding : encoding.Encoding := charmap.Windows1252.

(** ** Constants *)

Definition INFO_BITFIELD_SMOOTH : Z := Z.shiftl 1 (7 - 0).
Definition INFO_BITFIELD_UNICODE : Z := Z.shiftl 1 (7 - 1).
Definition INFO_BITFIELD_ITALIC : Z := Z.shiftl 1 (7 - 2).
Definition INFO_BITFIELD_BOLD : Z := Z.shiftl 1 (7 - 3).
Definition INFO_BITFIELD_FIXED_HEIGHT : Z := Z.shiftl 1 (7 - 4).

Definition COMMON_BITFIELD_PACKED : Z := 1.

Definition BLOCK_TYPE_INFO : Z := 1.
Definition BLOCK_TYPE_COMMON : Z := 2.
Definition BLOCK_TYPE_PAGES : Z := 3.
Definition BLOCK_TYPE_CHARS : Z := 4.
Definition BLOCK_TYPE_KERNING_PAIRS : Z := 5.

(** ** Info *)

Module Info.

Record t : Type := mk
  { FontSize : Z;          (* int16 *)
    BitField : byte;
    CharSet : byte;
    StretchH : Z;          (* uint16 *)
    Aa : byte;
    PaddingUp : byte;
    PaddingRight : byte;
    PaddingDown : byte;
    PaddingLeft : byte;
    SpacingHoriz : byte;
    SpacingVert : byte;
    Outline : byte;
    FontName : list byte }.

(** [Info{}] *)
Definition zero : t := mk 0 x00 x00 0 x00 x00 x00 x00 x00 x00 x00 x00 [].

(** [func (i *Info) fromBinary(b []byte) error].  The fields are assigned in
    the order of the source; when the font name cannot be transformed the
    receiver keeps the name it had. *)
Definition fromBinary (Enc : encoding.Encoding) (i : t) (b : slice)
    : run (t * option error) :=
  b02 <- reslice b 0 2 ;;
  fontSize <- LittleEndian.Uint16 b02 ;;
  bitField <- index b 2 ;;
  charSet <- index b 3 ;;
  b46 <- reslice b 4 6 ;;
  stretchH <- LittleEndian.Uint16 b46 ;;
  aa <- index b 6 ;;
  paddingUp <- index b 7 ;;
  paddingRight <- index b 8 ;;
  paddingDown <- index b 9 ;;
  paddingLeft <- index b 10 ;;
  spacingHoriz <- index b 11 ;;
  spacingVert <- index b 12 ;;
  outline <- index b 13 ;;
  fontBuf <- make (((len b - 14) * 5) `quot` 2) ;;
  src <- reslice b 14 (len b) ;;
  let set name :=
    mk (int16 fontSize) bitField charSet stretchH aa paddingUp paddingRight
       paddingDown paddingLeft spacingHoriz spacingVert outline name in
  match encoding.Transform (encoding.NewDecoder Enc) (elems fontBuf) (elems src) true with
  | (dst, nDst, _, Some err) => Value (set (FontName i), Some (InfoFontNameError err))
  | (dst, nDst, _, None) =>
      name <- reslice (Slice dst (spare fontBuf)) 0 nDst ;;
      Value (set (elems name), None)
  end.

End Info.

(** ** Common *)

Module Common.

Record t : Type := mk
  { LineHeight : Z;
    Base : Z;
    ScaleW : Z;
    ScaleH : Z;
    Pages : Z;
    BitField : byte;
    AlphaChnl : byte;
    RedChnl : byte;
    GreenChnl : byte;
    BlueChnl : byte }.

Definition zero : t := mk 0 0 0 0 0 x00 x00 x00 x00 x00.

(** [func (c *Common) fromBinary(b []byte) error] *)
Definition fromBinary (c : t) (b : slice) : run (t * option error) :=
  b02 <- reslice b 0 2 ;;
  lineHeight <- LittleEndian.Uint16 b02 ;;
  b24 <- reslice b 2 4 ;;
  base <- LittleEndian.Uint16 b24 ;;
  b46 <- reslice b 4 6 ;;
  scaleW <- LittleEndian.Uint16 b46 ;;
  b68 <- reslice b 6 8 ;;
  scaleH <- LittleEndian.Uint16 b68 ;;
  b810 <- reslice b 8 10 ;;
  pages <- LittleEndian.Uint16 b810 ;;
  bitField <- index b 10 ;;
  alphaChnl <- index b 11 ;;
  redChnl <- index b 12 ;;
  greenChnl <- index b 13 ;;
  blueChnl <- index b 14 ;;
  Value (mk lineHeight base scaleW scaleH pages bitField alphaChnl redChnl
            greenChnl blueChnl, None).

End Common.

(** ** Char *)

Module Char.

Record t : Type := mk
  { Id : Z;                (* uint32 *)
    X : Z;
    Y : Z;
    Width : Z;
    Height : Z;
    Xoffset : Z;           (* int16 *)
    Yoffset : Z;           (* int16 *)
    Xadvance : Z;          (* int16 *)
    Page : byte;
    Chnl : byte }.

Definition zero : t := mk 0 0 0 0 0 0 0 0 x00 x00.

(** [func (c *Char) fromBinary(b []byte) error] *)
Definition fromBinary (c : t) (b : slice) : run (t * option error) :=
  b04 <- reslice b 0 4 ;;
  id <- LittleEndian.Uint32 b04 ;;
  b46 <- reslice b 4 6 ;;
  x <- LittleEndian.Uint16 b46 ;;
  b68 <- reslice b 6 8 ;;
  y <- LittleEndian.Uint16 b68 ;;
  b810 <- reslice b 8 10 ;;
  width <- LittleEndian.Uint16 b810 ;;
  b1012 <- reslice b 10 12 ;;
  height <- LittleEndian.Uint16 b1012 ;;
  b1214 <- reslice b 12 14 ;;
  xoffset <- LittleEndian.Uint16 b1214 ;;
  b1416 <- reslice b 14 16 ;;
  yoffset <- LittleEndian.Uint16 b1416 ;;
  b1618 <- reslice b 16 18 ;;
  xadvance <- LittleEndian.Uint16 b1618 ;;
  page <- index b 18 ;;
  chnl <- index b 19 ;;
  Value (mk id x y width height (int16 xoffset) (int16 yoffset) (int16 xadvance)
            page chnl, None).

End Char.

(** ** KerningPair *)

Module KerningPair.

Record t : Type := mk
  { First : Z;             (* uint32 *)
    Second : Z;            (* uint32 *)
    Amount : Z }.          (* uint16 *)

Definition zero : t := mk 0 0 0.

(** [func (kp *KerningPair) fromBinary(b []byte) error] *)
Definition fromBinary (kp : t) (b : slice) : run (t * option error) :=
  b04 <- reslice b 0 4 ;;
  first <- LittleEndian.Uint32 b04 ;;
  b48 <- reslice b 4 8 ;;
  second <- LittleEndian.Uint32 b48 ;;
  b810 <- reslice b 8 10 ;;
  amount <- LittleEndian.Uint16 b810 ;;
  Value (mk first second amount, None).

End KerningPair.

(** ** Font *)

Module Font.

Record t : Type := mk
  { Info : option Info.t;
    Common : option Common.t;
    Pages : list (list byte);
    Chars : list Char.t;
    KerningPairs : list KerningPair.t }.

(** [for i := range f.Chars { f.Chars[i].fromBinary(blockData[i*20 : i*20+20]) }],
    over the indices still to visit: the receiver [f.Chars[i]] is taken
    first, then the argument is sliced. *)
Fixpoint chars_loop (blockData : slice) (chars : list Char.t) (indices : list nat)
    : run (list Char.t * option error) :=
  match indices with
  | [] => Value (chars, None)
  | i :: rest =>
      match chars !! i with
      | None => Panic
      | Some c =>
          b <- reslice blockData (Z.of_nat i * 20) (Z.of_nat i * 20 + 20) ;;
          r <- Char.fromBinary c b ;;
          match r with
          | (c', Some err) => Value (<[i:=c']> chars, Some (CharError (Z.of_nat i) err))
          | (c', None) => chars_loop blockData (<[i:=c']> chars) rest
          end
      end
  end.

(** [for i := range f.KerningPairs { f.KerningPairs[i].fromBinary(blockData[i*10 : i*10+10]) }] *)
Fixpoint kerning_loop (blockData : slice) (pairs : list KerningPair.t) (indices : list nat)
    : run (list KerningPair.t * option error) :=
  match indices with
  | [] => Value (pairs, None)
  | i :: rest =>
      match pairs !! i with
      | None => Panic
      | Some kp =>
          b <- reslice blockData (Z.of_nat i * 10) (Z.of_nat i * 10 + 10) ;;
          r <- KerningPair.fromBinary kp b ;;
          match r with
          | (kp', Some err) =>
              Value (<[i:=kp']> pairs, Some (KerningPairError (Z.of_nat i) err))
          | (kp', None) => kerning_loop blockData (<[i:=kp']> pairs) rest
          end
      end
  end.

(** The [switch blockId] of the loop body: the receiver after the case that
    was taken, and the error the case returns with, if any. *)
Definition switch (Enc : encoding.Encoding) (f : t) (blockId : byte)
    (blockLenght : Z) (blockData : slice) : run (t * option error) :=
  if uint8 blockId =? BLOCK_TYPE_INFO then
    r <- Info.fromBinary Enc Info.zero blockData ;;
    match r with
    | (i, Some err) =>
        Value (mk (Some i) (Common f) (Pages f) (Chars f) (KerningPairs f),
               Some (InfoBlockError err))
    | (i, None) =>
        Value (mk (Some i) (Common f) (Pages f) (Chars f) (KerningPairs f), None)
    end
  else if uint8 blockId =? BLOCK_TYPE_COMMON then
    r <- Common.fromBinary Common.zero blockData ;;
    match r with
    | (c, Some err) =>
        Value (mk (Info f) (Some c) (Pages f) (Chars f) (KerningPairs f),
               Some (CommonBlockError err))
    | (c, None) =>
        Value (mk (Info f) (Some c) (Pages f) (Chars f) (KerningPairs f), None)
    end
  else if uint8 blockId =? BLOCK_TYPE_PAGES then
    fontBuf <- make (uint32 (blockLenght * 5) `quot` 2) ;;
    match encoding.Transform (encoding.NewDecoder Enc) (elems fontBuf) (elems blockData) false with
    | (dst, nDst, _, Some err) => Value (f, Some PagesTextError)
    | (dst, nDst, _, None) =>
        text <- reslice (Slice dst (spare fontBuf)) 0 nDst ;;
        let pages := strings.Split (elems text) x00 in
        let n := Z.of_nat (length pages) - 1 in
        if n <? 0 then Panic
        else Value (mk (Info f) (Common f) (take (Z.to_nat n) pages) (Chars f)
                       (KerningPairs f), None)
    end
  else if uint8 blockId =? BLOCK_TYPE_CHARS then
    let charsCnt := blockLenght `quot` 20 in
    let chars := replicate (Z.to_nat charsCnt) Char.zero in
    r <- chars_loop blockData chars (seq 0 (length chars)) ;;
    match r with
    | (chars', err) => Value (mk (Info f) (Common f) (Pages f) chars' (KerningPairs f), err)
    end
  else if uint8 blockId =? BLOCK_TYPE_KERNING_PAIRS then
    let kerningPairsCnt := blockLenght `quot` 10 in
    let pairs := replicate (Z.to_nat kerningPairsCnt) KerningPair.zero in
    r <- kerning_loop blockData pairs (seq 0 (length pairs)) ;;
    match r with
    | (pairs', err) => Value (mk (Info f) (Common f) (Pages f) (Chars f) pairs', err)
    end
  else Value (f, None).

(** How one pass through the body of the [for] loop ends. *)
Inductive flow : Type :=
| Continue (f : t) (floatBuffer : slice)
| Return (f : t) (err : error).

(** The body of [for len(floatBuffer) > 4 { ... }]. *)
Definition block (Enc : encoding.Encoding) (f : t) (floatBuffer : slice) : run flow :=
  blockId <- index floatBuffer 0 ;;
  b15 <- reslice floatBuffer 1 5 ;;
  blockLenght <- LittleEndian.Uint32 b15 ;;
  blockData <- reslice floatBuffer 5 (uint32 (5 + blockLenght)) ;;
  r <- switch Enc f blockId blockLenght blockData ;;
  match r with
  | (f', Some err) => Value (Return f' err)
  | (f', None) =>
      floatBuffer' <- reslice_from floatBuffer (uint32 (5 + blockLenght)) ;;
      Value (Continue f' floatBuffer')
  end.

(** The [for] loop, with a bound on the number of passes; [None] when the
    bound is reached before the loop ends. *)
Fixpoint loop (Enc : encoding.Encoding) (fuel : nat) (f : t) (floatBuffer : slice)
    : option (run (t * option error)) :=
  if 4 <? len floatBuffer then
    match fuel with
    | O => None
    | S fuel' =>
        match block Enc f floatBuffer with
        | Panic => Some Panic
        | Value (Return f' err) => Some (Value (f', Some err))
        | Value (Continue f' floatBuffer') => loop Enc fuel' f' floatBuffer'
        end
    end
  else Some (Value (f, None)).

(** [a || b] on operands that may panic. *)
Definition orelse (a b : run bool) : run bool :=
  x <- a ;; if x : bool then Value true else b.

(** [func (f *Font) FromBuffer(b []byte) error]; the loop is given as many
    passes as the buffer has bytes.  The characters ['B'], ['M'] and ['F']
    are the numbers 66, 77 and 70. *)
Definition FromBuffer (Enc : encoding.Encoding) (f : t) (b : slice)
    : option (run (t * option error)) :=
  match orelse (b0 <- index b 0 ;; Value (negb (uint8 b0 =? 66)))
       (orelse (b1 <- index b 1 ;; Value (negb (uint8 b1 =? 77)))
               (b2 <- index b 2 ;; Value (negb (uint8 b2 =? 70)))) with
  | Panic => Some Panic
  | Value true =>
      Some (magic <- reslice b 0 3 ;; Value (f, Some (InvalidIdentifier (elems magic))))
  | Value false =>
      match index b 3 with
      | Panic => Some Panic
      | Value b3 =>
          if negb (uint8 b3 =? 3) then
            Some (b4 <- index b 4 ;; Value (f, Some (UnsupportedVersion b4)))
          else
            match reslice_from b 4 with
            | Panic => Some Panic
            | Value floatBuffer => loop Enc (length (elems floatBuffer)) f floatBuffer
            end
      end
  end.

End Font.

(** [func NewFont() *Font] *)
Definition NewFont : Font.t := Font.mk None None [] [] [].

(** [NewFontFromBuf(b []byte)], returning the new font and the error of [FromBuffer] *)
Definition NewFontFromBuf (Enc : encoding.Encoding) (b : slice)
    : option (run (Font.t * option error)) :=
  Font.FromBuffer Enc NewFont b.

(** ** Building inputs

    The header of a version 3 file and a block with its tag and length. *)

Definition header : list byte := [x42; x4d; x46; x03].

Definition le32 (n : Z) : list byte :=
  [byte_of (n mod 256); byte_of (n / 256 mod 256);
   byte_of (n / 65536 mod 256); byte_of (n / 16777216 mod 256)].

Definition blk (tag : byte) (payload : list byte) : list byte :=
  tag :: le32 (Z.of_nat (length payload)) ++ payload.

(** ** Reading a list of bytes

    The values that the decoders are compared with: the byte at an offset
    and the little-endian number of the bytes from an offset on. *)

Definition get (l : list byte) (i : Z) : byte := default x00 (l !! Z.to_nat i).

Definition u16 (l : list byte) (i : Z) : Z :=
  Z.lor (uint8 (get l i)) (Z.shiftl (uint8 (get l (i + 1))) 8).

Definition u32 (l : list byte) (i : Z) : Z :=
  Z.lor (Z.lor (Z.lor (uint8 (get l i)) (Z.shiftl (uint8 (get l (i + 1))) 8))
               (Z.shiftl (uint8 (get l (i + 2))) 16))
        (Z.shiftl (uint8 (get l (i + 3))) 24).

(** The little-endian number of a sequence of bytes. *)
Fixpoint little_endian (l : list byte) : Z :=
  match l with
  | [] => 0
  | c :: l' => uint8 c + 256 * little_endian l'
  end.

(** The tag and the declared length of the block at the start of the
    remaining stream. *)
Definition tag (floatBuffer : slice) : byte := get (elems floatBuffer) 0.
Definition declared (floatBuffer : slice) : Z := u32 (elems floatBuffer) 1.

(** The window [l[lo:hi]] of a list. *)
Definition window (l : list byte) (lo hi : Z) : list byte :=
  take (Z.to_nat (hi - lo)) (drop (Z.to_nat lo) l).

(** The record that a span of bytes stands for, field by field. *)
Definition Char_of (l : list byte) : Char.t :=
  Char.mk (u32 l 0) (u16 l 4) (u16 l 6) (u16 l 8) (u16 l 10)
          (int16 (u16 l 12)) (int16 (u16 l 14)) (int16 (u16 l 16))
          (get l 18) (get l 19).

Definition Info_of (l name : list byte) : Info.t :=
  Info.mk (int16 (u16 l 0)) (get l 2) (get l 3) (u16 l 4) (get l 6) (get l 7) (get l 8)
          (get l 9) (get l 10) (get l 11) (get l 12) (get l 13) name.

Definition KerningPair_of (l : list byte) : KerningPair.t :=
  KerningPair.mk (u32 l 0) (u32 l 4) (u16 l 8).

Definition Common_of (l : list byte) : Common.t :=
  Common.mk (u16 l 0) (u16 l 2) (u16 l 4) (u16 l 6) (u16 l 8)
            (get l 10) (get l 11) (get l 12) (get l 13) (get l 14).

(** Record [i] of a payload of records of [size] bytes. *)
Definition records (size : Z) (payload : list byte) (i : nat) : list byte :=
  window payload (Z.of_nat i * size) (Z.of_nat i * size + size).

(** The dispatch loop, started with font [f] on the stream [fb], comes to
    the head of the loop with font [f'] and the stream [fb'] remaining. *)
Inductive reaches (Enc : encoding.Encoding) : Font.t -> slice -> Font.t -> slice -> Prop :=
| reaches_here f fb : reaches Enc f fb f fb
| reaches_pass f fb f1 fb1 f' fb' :
    4 < len fb ->
    Font.block Enc f fb = Value (Font.Continue f1 fb1) ->
    reaches Enc f1 fb1 f' fb' ->
    reaches Enc f fb f' fb'.

(** The stream that follows a well-formed header. *)
Definition after_header (b : slice) : slice := Slice (drop 4 (elems b)) (spare b).

(** The magic identifier, [B], [M], [F]. *)
Definition magic : list byte := [x42; x4d; x46].

(** ** Inputs used in the examples *)

(** A Chars block that declares 40 bytes in a buffer that holds 20 of them. *)
Definition truncated_chars_input : list byte :=
  header ++ [x04; x28; x00; x00; x00] ++ replicate 20 x00.

(** Two Chars blocks of one record each, with glyph identifiers 1 and 2. *)
Definition first_chars_block : list byte := blk x04 (x01 :: replicate 19 x00).
Definition second_chars_block : list byte := blk x04 (x02 :: replicate 19 x00).
Definition two_chars_blocks : list byte :=
  header ++ first_chars_block ++ second_chars_block.

(** An Info block whose font name is the single byte 0x80, the euro sign of
    Windows-1252. *)
Definition euro_info_payload : list byte := replicate 14 x00 ++ [x80].
Definition euro_info_input : list byte := header ++ blk x01 euro_info_payload.

(** A Pages block with one file name of five euro signs. *)
Definition euro_pages_input : list byte :=
  header ++ blk x03 [x80; x80; x80; x80; x80; x00].

(** A Pages block with the names [a] and [b]. *)
Definition pages_stream : list byte := blk x03 [x61; x00; x62; x00].

(** A kerning record with the bytes 0xFF 0xFF as its amount. *)
Definition kerning_ff_record : list byte := replicate 8 x00 ++ [xff; xff].

(** An unknown block (tag 99, three bytes) followed by a Common block. *)
Definition unknown_then_common : list byte :=
  blk x63 [x01; x02; x03] ++ blk x02 (replicate 15 x00).

(** A Chars block of two records followed by two stray bytes. *)
Definition chars_stream : list byte := blk x04 (replicate 40 x00) ++ [x00; x00].

(** A KerningPairs block of one record. *)
Definition kerning_stream : list byte := blk x05 kerning_ff_record.

(** A complete Common block followed by the truncated Chars block. *)
Definition truncated_after_common : list byte :=
  header ++ blk x02 (replicate 15 x00) ++ [x04; x28; x00; x00; x00] ++ replicate 20 x00.
Definition common_font : Font.t := Font.mk None (Some Common.zero) [] [] [].
Definition truncated_chars_stream : slice :=
  bytes ([x04; x28; x00; x00; x00] ++ replicate 20 x00).

(** The output buffer after the pages [a] and [b] have been transcoded. *)
Definition pages_output : list byte := [x61; x00; x62; x00; x00; x00; x00; x00; x00; x00].

(** The Pages block of [euro_pages_input] and the UTF-8 bytes of its one
    name, five euro signs. *)
Definition euro_pages_block : list byte := blk x03 [x80; x80; x80; x80; x80; x00].
Definition euro_name : list byte := concat (replicate 5 [xe2; x82; xac]).

(** The fonts [f] and [g] hold the same in the field that the blocks of tag
    [k] write. *)
Definition same_field (k : Z) (f g : Font.t) : Prop :=
  (k = 1 -> Font.Info f = Font.Info g) /\
  (k = 2 -> Font.Common f = Font.Common g) /\
  (k = 3 -> Font.Pages f = Font.Pages g) /\
  (k = 4 -> Font.Chars f = Font.Chars g) /\
  (k = 5 -> Font.KerningPairs f = Font.KerningPairs g).

(** ** Well-formed streams, fonts in range

    A stream of blocks is well formed when every block that the loop comes
    to has its payload within the stream, an Info block has the 14 bytes of
    its fixed fields and a Common block its 15 bytes; fewer than 5 bytes may
    be left over at the end. *)
Inductive well_formed : list byte -> Prop :=
| wf_end l : (length l < 5)%nat -> well_formed l
| wf_block l :
    4 < len (bytes l) ->
    5 + declared (bytes l) <= len (bytes l) ->
    5 + declared (bytes l) < 2 ^ 32 ->
    (uint8 (tag (bytes l)) = 1 -> 14 <= declared (bytes l)) ->
    (uint8 (tag (bytes l)) = 2 -> 15 <= declared (bytes l)) ->
    well_formed (drop (Z.to_nat (5 + declared (bytes l))) l) ->
    well_formed l.

(** The numeric fields of the records are [Z] here; in the source they are
    [uint32], [uint16] and [int16].  A record is in range when each field is
    a value of its Go type. *)
Definition Char_valid (c : Char.t) : Prop :=
  0 <= Char.Id c < 2 ^ 32 /\
  0 <= Char.X c < 2 ^ 16 /\ 0 <= Char.Y c < 2 ^ 16 /\
  0 <= Char.Width c < 2 ^ 16 /\ 0 <= Char.Height c < 2 ^ 16 /\
  - 2 ^ 15 <= Char.Xoffset c < 2 ^ 15 /\ - 2 ^ 15 <= Char.Yoffset c < 2 ^ 15 /\
  - 2 ^ 15 <= Char.Xadvance c < 2 ^ 15.

Definition KerningPair_valid (kp : KerningPair.t) : Prop :=
  0 <= KerningPair.First kp < 2 ^ 32 /\ 0 <= KerningPair.Second kp < 2 ^ 32 /\
  0 <= KerningPair.Amount kp < 2 ^ 16.

Definition Common_valid (c : Common.t) : Prop :=
  0 <= Common.LineHeight c < 2 ^ 16 /\ 0 <= Common.Base c < 2 ^ 16 /\
  0 <= Common.ScaleW c < 2 ^ 16 /\ 0 <= Common.ScaleH c < 2 ^ 16 /\
  0 <= Common.Pages c < 2 ^ 16.

Definition Info_valid (i : Info.t) : Prop :=
  - 2 ^ 15 <= Info.FontSize i < 2 ^ 15 /\ 0 <= Info.StretchH i < 2 ^ 16.

(** A font is in range when its records are and no page name holds a NUL. *)
Definition Font_valid (f : Font.t) : Prop :=
  from_option Info_valid True (Font.Info f) /\
  from_option Common_valid True (Font.Common f) /\
  Forall (fun name => x00 ∉ name) (Font.Pages f) /\
  Forall Char_valid (Font.Chars f) /\
  Forall KerningPair_valid (Font.KerningPairs f).

(** The decode of [b] into [g] passes the header and its loop comes to a
    block with the tag [k]. *)
Definition dispatches (Enc : encoding.Encoding) (g : Font.t) (b : slice) (k : Z) : Prop :=
  take 4 (elems b) = header /\
  exists f fb, reaches Enc g (after_header b) f fb /\ 4 < len fb /\ uint8 (tag fb) = k.

(** A glyph record of 20 bytes [0xff], a common block of the bytes 1 to 15 and
    a font that holds two pages. *)
Definition all_ones_char : list byte := replicate 20 xff.
Definition counting_common : list byte :=
  [x01; x02; x03; x04; x05; x06; x07; x08; x09; x0a; x0b; x0c; x0d; x0e; x0f].
Definition two_pages_font : Font.t := Font.mk None None [[x61]; [x62]] [] [].

(** * Properties *)

(** ** Slices *)

Lemma uint8_range c : 0 <= uint8 c < 256.
Proof. unfold uint8. pose proof (Byte.to_N_bounded c). lia. Qed.

Lemma len_nonneg s : 0 <= len s.
Proof. unfold len. lia. Qed.

Lemma len_le_cap s : len s <= cap s.
Proof. unfold len, cap, backing. rewrite length_app. lia. Qed.

Lemma index_in s i : 0 <= i < len s -> index s i = Value (get (elems s) i).
Proof.
  intros Hi. unfold index, get, len in *.
  destruct (Z.leb_spec 0 i); [|lia].
  destruct (Z.ltb_spec i (Z.of_nat (length (elems s)))); [|lia].
  simpl. destruct (lookup_lt_is_Some_2 (elems s) (Z.to_nat i)) as [c Hc]; [lia|].
  by rewrite Hc.
Qed.

Lemma index_out s i : len s <= i -> index s i = Panic.
Proof.
  intros Hi. unfold index.
  destruct (Z.ltb_spec i (len s)); [lia|]. by rewrite andb_false_r.
Qed.

Lemma reslice_in s lo hi :
  0 <= lo <= hi -> hi <= cap s ->
  reslice s lo hi = Value (Slice (window (backing s) lo hi) (drop (Z.to_nat hi) (backing s))).
Proof.
  intros Hlo Hhi. unfold reslice.
  destruct (Z.leb_spec 0 lo); [|lia].
  destruct (Z.leb_spec lo hi); [|lia].
  destruct (Z.leb_spec hi (cap s)); [|lia]. done.
Qed.

Lemma reslice_out s lo hi : cap s < hi \/ hi < lo -> reslice s lo hi = Panic.
Proof.
  intros H. unfold reslice.
  destruct (Z.leb_spec lo hi); [|by rewrite andb_false_r].
  destruct (Z.leb_spec hi (cap s)); [lia|]. by rewrite andb_false_r.
Qed.

Lemma window_app_l l1 l2 lo hi :
  0 <= lo <= hi -> hi <= Z.of_nat (length l1) -> window (l1 ++ l2) lo hi = window l1 lo hi.
Proof.
  intros Hlo Hhi. unfold window.
  rewrite drop_app_le by lia. rewrite take_app_le; [done|].
  rewrite length_drop. lia.
Qed.

Lemma length_window l lo hi :
  0 <= lo <= hi -> hi <= Z.of_nat (length l) -> Z.of_nat (length (window l lo hi)) = hi - lo.
Proof.
  intros Hlo Hhi. unfold window. rewrite length_take, length_drop. lia.
Qed.

Lemma get_window l lo hi i :
  0 <= lo -> 0 <= i < hi - lo -> get (window l lo hi) i = get l (lo + i).
Proof.
  intros Hlo Hi. unfold get, window.
  rewrite lookup_take_lt by lia. rewrite lookup_drop.
  by replace (Z.to_nat lo + Z.to_nat i)%nat with (Z.to_nat (lo + i)) by lia.
Qed.

(** Within the length of a slice, re-slicing gives the window of its
    elements. *)
Lemma reslice_len s lo hi :
  0 <= lo <= hi -> hi <= len s ->
  exists sp, reslice s lo hi = Value (Slice (window (elems s) lo hi) sp).
Proof.
  intros Hlo Hhi. pose proof (len_le_cap s).
  rewrite reslice_in by lia. unfold backing at 1.
  rewrite window_app_l by (unfold len in *; lia). eauto.
Qed.

(** ** Reading fields *)

Lemma read8 {A} s i (k : byte -> run A) :
  0 <= i < len s -> (x <- index s i ;; k x) = k (get (elems s) i).
Proof. intros Hi. by rewrite index_in. Qed.

Lemma Uint16_window l sp lo :
  0 <= lo -> lo + 2 <= Z.of_nat (length l) ->
  LittleEndian.Uint16 (Slice (window l lo (lo + 2)) sp) = Value (u16 l lo).
Proof.
  intros Hlo Hhi. unfold LittleEndian.Uint16.
  assert (Hlen : len (Slice (window l lo (lo + 2)) sp) = 2).
  { unfold len; simpl. rewrite length_window; lia. }
  rewrite !index_in by lia. cbn [bind elems]. unfold u16.
  rewrite !get_window by lia. by rewrite Z.add_0_r.
Qed.

Lemma Uint32_window l sp lo :
  0 <= lo -> lo + 4 <= Z.of_nat (length l) ->
  LittleEndian.Uint32 (Slice (window l lo (lo + 4)) sp) = Value (u32 l lo).
Proof.
  intros Hlo Hhi. unfold LittleEndian.Uint32.
  assert (Hlen : len (Slice (window l lo (lo + 4)) sp) = 4).
  { unfold len; simpl. rewrite length_window; lia. }
  rewrite !index_in by lia. cbn [bind elems]. unfold u32.
  rewrite !get_window by lia. by rewrite Z.add_0_r.
Qed.

Lemma read16 {A} s lo hi (k : Z -> run A) :
  hi = lo + 2 -> 0 <= lo -> hi <= len s ->
  (b <- reslice s lo hi ;; x <- LittleEndian.Uint16 b ;; k x) = k (u16 (elems s) lo).
Proof.
  intros -> Hlo Hhi. destruct (reslice_len s lo (lo + 2)) as [sp ->]; [lia..|].
  cbn [bind]. rewrite Uint16_window by (unfold len in *; lia). done.
Qed.

Lemma read32 {A} s lo hi (k : Z -> run A) :
  hi = lo + 4 -> 0 <= lo -> hi <= len s ->
  (b <- reslice s lo hi ;; x <- LittleEndian.Uint32 b ;; k x) = k (u32 (elems s) lo).
Proof.
  intros -> Hlo Hhi. destruct (reslice_len s lo (lo + 4)) as [sp ->]; [lia..|].
  cbn [bind]. rewrite Uint32_window by (unfold len in *; lia). done.
Qed.

(** A chain of reads ends in a panic as soon as one of them does. *)
Ltac panics :=
  repeat match goal with
         | |- bind ?m _ = Panic => destruct m; cbn [bind]; [|reflexivity]
         end;
  try reflexivity.

(** ** The record decoders *)

Lemma Char_fromBinary_ok c b :
  20 <= len b -> Char.fromBinary c b = Value (Char_of (elems b), None).
Proof.
  intros Hb. unfold Char.fromBinary.
  rewrite read32 by lia. rewrite !read16 by lia. rewrite !read8 by lia. done.
Qed.

Lemma Char_fromBinary_short c b : len b < 20 -> Char.fromBinary c b = Panic.
Proof.
  intros Hb. unfold Char.fromBinary. rewrite (index_out b 19) by lia. panics.
Qed.

Lemma KerningPair_fromBinary_ok kp b :
  10 <= len b -> KerningPair.fromBinary kp b = Value (KerningPair_of (elems b), None).
Proof.
  intros Hb. unfold KerningPair.fromBinary.
  rewrite !read32 by lia. rewrite !read16 by lia. done.
Qed.

Lemma Common_fromBinary_ok c b :
  15 <= len b -> Common.fromBinary c b = Value (Common_of (elems b), None).
Proof.
  intros Hb. unfold Common.fromBinary.
  rewrite !read16 by lia. rewrite !read8 by lia. done.
Qed.

Lemma Common_fromBinary_short c b : len b < 15 -> Common.fromBinary c b = Panic.
Proof.
  intros Hb. unfold Common.fromBinary. rewrite (index_out b 14) by lia. panics.
Qed.

Lemma Info_fromBinary_short Enc i b : len b < 14 -> Info.fromBinary Enc i b = Panic.
Proof.
  intros Hb. unfold Info.fromBinary. rewrite (index_out b 13) by lia. panics.
Qed.

(** ** Little-endian numbers *)

Lemma lor_shiftl a b n :
  0 <= n -> 0 <= a < 2 ^ n -> 0 <= b -> Z.lor a (Z.shiftl b n) = a + b * 2 ^ n.
Proof.
  intros Hn Ha Hb. rewrite Z.shiftl_mul_pow2 by done.
  symmetry. apply Z.add_nocarry_lor. apply Z.bits_inj'. intros i Hi.
  rewrite Z.land_spec, Z.bits_0.
  destruct (Z.lt_ge_cases i n) as [Hlt|Hge].
  - rewrite Z.mul_pow2_bits_low by done. apply andb_false_r.
  - by rewrite (proj1 (Z.bounded_iff_bits_nonneg n a Hn (proj1 Ha)) (proj2 Ha) i Hge).
Qed.

Lemma u16_le l i : u16 l i = little_endian [get l i; get l (i + 1)].
Proof.
  unfold u16, little_endian.
  pose proof (uint8_range (get l i)). pose proof (uint8_range (get l (i + 1))).
  rewrite lor_shiftl by lia. lia.
Qed.

Lemma u32_le l i : u32 l i = little_endian [get l i; get l (i + 1); get l (i + 2); get l (i + 3)].
Proof.
  unfold u32, little_endian.
  pose proof (uint8_range (get l i)). pose proof (uint8_range (get l (i + 1))).
  pose proof (uint8_range (get l (i + 2))). pose proof (uint8_range (get l (i + 3))).
  rewrite (lor_shiftl (uint8 (get l i))) by lia.
  rewrite (lor_shiftl _ _ 16) by lia.
  rewrite (lor_shiftl _ _ 24) by lia. lia.
Qed.

Lemma u32_range l i : 0 <= u32 l i < 2 ^ 32.
Proof.
  rewrite u32_le. unfold little_endian.
  pose proof (uint8_range (get l i)). pose proof (uint8_range (get l (i + 1))).
  pose proof (uint8_range (get l (i + 2))). pose proof (uint8_range (get l (i + 3))).
  lia.
Qed.

Lemma u16_range l i : 0 <= u16 l i < 2 ^ 16.
Proof.
  rewrite u16_le. unfold little_endian.
  pose proof (uint8_range (get l i)). pose proof (uint8_range (get l (i + 1))).
  lia.
Qed.

(** ** The record loops *)

Lemma chars_loop_ok blockData n : forall k chars,
  length chars = (k + n)%nat ->
  Z.of_nat (k + n) * 20 <= len blockData ->
  Font.chars_loop blockData chars (seq k n) =
    Value (take k chars ++
           map (fun i => Char_of (records 20 (elems blockData) i)) (seq k n), None).
Proof.
  induction n as [|n IH]; intros k chars Hlen Hdata; simpl.
  - rewrite app_nil_r, take_ge by lia. done.
  - destruct (lookup_lt_is_Some_2 chars k) as [c Hc]; [lia|]. rewrite Hc.
    destruct (reslice_len blockData (Z.of_nat k * 20) (Z.of_nat k * 20 + 20)) as [sp ->];
      [lia..|]. cbn [bind].
    rewrite Char_fromBinary_ok
      by (unfold len in *; simpl; rewrite length_window; lia).
    cbn [bind elems]. rewrite IH by (rewrite ?length_insert; lia).
    rewrite (take_S_r _ _ (Char_of (records 20 (elems blockData) k)))
      by (apply list_lookup_insert_eq; lia).
    rewrite take_insert_ge by lia. by rewrite <- app_assoc.
Qed.

Lemma kerning_loop_ok blockData n : forall k pairs,
  length pairs = (k + n)%nat ->
  Z.of_nat (k + n) * 10 <= len blockData ->
  Font.kerning_loop blockData pairs (seq k n) =
    Value (take k pairs ++
           map (fun i => KerningPair_of (records 10 (elems blockData) i)) (seq k n), None).
Proof.
  induction n as [|n IH]; intros k pairs Hlen Hdata; simpl.
  - rewrite app_nil_r, take_ge by lia. done.
  - destruct (lookup_lt_is_Some_2 pairs k) as [c Hc]; [lia|]. rewrite Hc.
    destruct (reslice_len blockData (Z.of_nat k * 10) (Z.of_nat k * 10 + 10)) as [sp ->];
      [lia..|]. cbn [bind].
    rewrite KerningPair_fromBinary_ok
      by (unfold len in *; simpl; rewrite length_window; lia).
    cbn [bind elems]. rewrite IH by (rewrite ?length_insert; lia).
    rewrite (take_S_r _ _ (KerningPair_of (records 10 (elems blockData) k)))
      by (apply list_lookup_insert_eq; lia).
    rewrite take_insert_ge by lia. by rewrite <- app_assoc.
Qed.

(** ** One pass of the dispatch loop *)

Lemma reslice_from_in s lo :
  0 <= lo <= len s -> reslice_from s lo = Value (Slice (drop (Z.to_nat lo) (elems s)) (spare s)).
Proof.
  intros Hlo. unfold reslice_from. pose proof (len_le_cap s).
  rewrite reslice_in by lia. unfold window, backing, len in *.
  rewrite drop_app_le by lia. rewrite take_app_le by (rewrite length_drop; lia).
  rewrite take_ge by (rewrite length_drop; lia).
  rewrite drop_app_ge by lia.
  replace (Z.to_nat (Z.of_nat (length (elems s))) - length (elems s))%nat with 0%nat by lia.
  done.
Qed.

Lemma reslice_from_out s lo : len s < lo -> reslice_from s lo = Panic.
Proof. intros Hlo. unfold reslice_from. apply reslice_out. lia. Qed.

Lemma block_unfold Enc f fb :
  4 < len fb ->
  Font.block Enc f fb =
    (blockData <- reslice fb 5 (uint32 (5 + declared fb)) ;;
     r <- Font.switch Enc f (tag fb) (declared fb) blockData ;;
     match r with
     | (f', Some err) => Value (Font.Return f' err)
     | (f', None) =>
         floatBuffer' <- reslice_from fb (uint32 (5 + declared fb)) ;;
         Value (Font.Continue f' floatBuffer')
     end).
Proof.
  intros Hfb. unfold Font.block. rewrite read8 by lia. by rewrite read32 by lia.
Qed.

Lemma declared_range fb : 0 <= declared fb < 2 ^ 32.
Proof. apply u32_range. Qed.

Lemma uint32_small x : 0 <= x < 2 ^ 32 -> uint32 x = x.
Proof. intros Hx. unfold uint32. by apply Z.mod_small. Qed.

Lemma uint32_wrap x : 2 ^ 32 <= x < 2 ^ 33 -> uint32 x = x - 2 ^ 32.
Proof.
  intros Hx. unfold uint32.
  replace x with (x - 2 ^ 32 + 1 * 2 ^ 32) at 1 by lia.
  rewrite Z.mod_add by lia. apply Z.mod_small. lia.
Qed.

(** The sum [5+blockLenght] wraps: the payload slice has its bounds
    inverted. *)
Lemma block_wraps Enc f fb :
  4 < len fb -> 2 ^ 32 <= 5 + declared fb -> Font.block Enc f fb = Panic.
Proof.
  intros Hfb Hw. rewrite block_unfold by done. pose proof (declared_range fb).
  rewrite uint32_wrap by lia. rewrite reslice_out by lia. done.
Qed.

Lemma block_past_cap Enc f fb :
  4 < len fb -> cap fb < 5 + declared fb -> Font.block Enc f fb = Panic.
Proof.
  intros Hfb Hc. destruct (Z.le_gt_cases (2 ^ 32) (5 + declared fb)).
  { by apply block_wraps. }
  rewrite block_unfold by done. pose proof (declared_range fb).
  rewrite uint32_small by lia. rewrite reslice_out by lia. done.
Qed.

(** The payload of a block that lies within the capacity. *)
Lemma block_in_cap Enc f fb :
  4 < len fb -> 5 + declared fb <= cap fb -> 5 + declared fb < 2 ^ 32 ->
  exists blockData,
    len blockData = declared fb /\
    elems blockData = window (backing fb) 5 (5 + declared fb) /\
    Font.block Enc f fb =
      (r <- Font.switch Enc f (tag fb) (declared fb) blockData ;;
       match r with
       | (f', Some err) => Value (Font.Return f' err)
       | (f', None) =>
           floatBuffer' <- reslice_from fb (5 + declared fb) ;;
           Value (Font.Continue f' floatBuffer')
       end).
Proof.
  intros Hfb Hc Hw. pose proof (declared_range fb).
  eexists. split_and!; [| |rewrite block_unfold by done; rewrite uint32_small by lia;
                           rewrite reslice_in by lia; cbn [bind]; reflexivity].
  - unfold len; simpl. rewrite length_window; unfold cap in *; lia.
  - done.
Qed.

Lemma block_Continue Enc f fb f' fb' :
  4 < len fb -> Font.block Enc f fb = Value (Font.Continue f' fb') ->
  5 + declared fb <= len fb /\
  fb' = Slice (drop (Z.to_nat (5 + declared fb)) (elems fb)) (spare fb).
Proof.
  intros Hfb Hb. pose proof (declared_range fb). pose proof (len_le_cap fb).
  destruct (Z.le_gt_cases (2 ^ 32) (5 + declared fb)).
  { by rewrite block_wraps in Hb. }
  destruct (Z.lt_ge_cases (cap fb) (5 + declared fb)).
  { by rewrite block_past_cap in Hb. }
  destruct (block_in_cap Enc f fb) as (blockData & _ & _ & Heq); [lia..|].
  rewrite Heq in Hb. clear Heq.
  destruct (Font.switch _ _ _ _ _) as [[f1 [e|]]|]; cbn [bind] in Hb; try done.
  destruct (Z.lt_ge_cases (len fb) (5 + declared fb)).
  { by rewrite reslice_from_out in Hb. }
  rewrite reslice_from_in in Hb by lia. cbn [bind] in Hb.
  split; [done|]. congruence.
Qed.

(** ** The cases of the switch *)

Ltac switch_case :=
  unfold Font.switch, BLOCK_TYPE_INFO, BLOCK_TYPE_COMMON, BLOCK_TYPE_PAGES,
    BLOCK_TYPE_CHARS, BLOCK_TYPE_KERNING_PAIRS;
  repeat match goal with
         | |- context [?x =? ?n] => destruct (Z.eqb_spec x n); [try lia|]
         end; try lia.

Lemma switch_unknown Enc f blockId blockLenght blockData :
  ~ 1 <= uint8 blockId <= 5 ->
  Font.switch Enc f blockId blockLenght blockData = Value (f, None).
Proof. intros Hid. switch_case. done. Qed.

Lemma switch_info_short Enc f blockId blockLenght blockData :
  uint8 blockId = 1 -> len blockData < 14 ->
  Font.switch Enc f blockId blockLenght blockData = Panic.
Proof. intros Hid Hd. switch_case. by rewrite Info_fromBinary_short. Qed.

Lemma switch_common_short Enc f blockId blockLenght blockData :
  uint8 blockId = 2 -> len blockData < 15 ->
  Font.switch Enc f blockId blockLenght blockData = Panic.
Proof. intros Hid Hd. switch_case. by rewrite Common_fromBinary_short. Qed.

Lemma switch_common Enc f blockId blockLenght blockData :
  uint8 blockId = 2 -> 15 <= len blockData ->
  Font.switch Enc f blockId blockLenght blockData =
    Value (Font.mk (Font.Info f) (Some (Common_of (elems blockData))) (Font.Pages f)
                   (Font.Chars f) (Font.KerningPairs f), None).
Proof. intros Hid Hd. switch_case. by rewrite Common_fromBinary_ok. Qed.

Lemma switch_chars Enc f blockId blockLenght blockData :
  uint8 blockId = 4 -> 0 <= blockLenght -> len blockData = blockLenght ->
  Font.switch Enc f blockId blockLenght blockData =
    Value (Font.mk (Font.Info f) (Font.Common f) (Font.Pages f)
             (map (fun i => Char_of (records 20 (elems blockData) i))
                  (seq 0 (Z.to_nat (blockLenght / 20))))
             (Font.KerningPairs f), None).
Proof.
  intros Hid HL Hd. switch_case.
  rewrite Z.quot_div_nonneg by lia. rewrite length_replicate.
  rewrite (chars_loop_ok _ _ 0); [done|by rewrite length_replicate|].
  rewrite Hd. pose proof (Z.mul_div_le blockLenght 20). lia.
Qed.

Lemma switch_kerning Enc f blockId blockLenght blockData :
  uint8 blockId = 5 -> 0 <= blockLenght -> len blockData = blockLenght ->
  Font.switch Enc f blockId blockLenght blockData =
    Value (Font.mk (Font.Info f) (Font.Common f) (Font.Pages f) (Font.Chars f)
             (map (fun i => KerningPair_of (records 10 (elems blockData) i))
                  (seq 0 (Z.to_nat (blockLenght / 10)))), None).
Proof.
  intros Hid HL Hd. switch_case.
  rewrite Z.quot_div_nonneg by lia. rewrite length_replicate.
  rewrite (kerning_loop_ok _ _ 0); [done|by rewrite length_replicate|].
  rewrite Hd. pose proof (Z.mul_div_le blockLenght 10). lia.
Qed.

(** ** The errors that a block can return *)

Ltac no_error :=
  repeat match goal with
         | |- bind ?m _ <> _ => destruct m; cbn [bind]; [|done]
         end;
  try done.

Lemma Common_fromBinary_noerr c b c' e : Common.fromBinary c b <> Value (c', Some e).
Proof. unfold Common.fromBinary. no_error. Qed.

Lemma Char_fromBinary_noerr c b c' e : Char.fromBinary c b <> Value (c', Some e).
Proof. unfold Char.fromBinary. no_error. Qed.

Lemma KerningPair_fromBinary_noerr kp b kp' e :
  KerningPair.fromBinary kp b <> Value (kp', Some e).
Proof. unfold KerningPair.fromBinary. no_error. Qed.

Lemma chars_loop_noerr blockData indices : forall chars chars' e,
  Font.chars_loop blockData chars indices <> Value (chars', Some e).
Proof.
  induction indices as [|i rest IH]; intros chars chars' e; simpl; [done|].
  destruct (chars !! i) as [c|]; [|done].
  destruct (reslice _ _ _) as [b|]; cbn [bind]; [|done].
  destruct (Char.fromBinary c b) as [[c1 [e1|]]|] eqn:Hc; cbn [bind]; [|apply IH|done].
  by apply Char_fromBinary_noerr in Hc.
Qed.

Lemma kerning_loop_noerr blockData indices : forall pairs pairs' e,
  Font.kerning_loop blockData pairs indices <> Value (pairs', Some e).
Proof.
  induction indices as [|i rest IH]; intros pairs pairs' e; simpl; [done|].
  destruct (pairs !! i) as [c|]; [|done].
  destruct (reslice _ _ _) as [b|]; cbn [bind]; [|done].
  destruct (KerningPair.fromBinary c b) as [[c1 [e1|]]|] eqn:Hc; cbn [bind]; [|apply IH|done].
  by apply KerningPair_fromBinary_noerr in Hc.
Qed.

Lemma Info_fromBinary_err Enc i b i' e :
  Info.fromBinary Enc i b = Value (i', Some e) -> exists e', e = InfoFontNameError e'.
Proof.
  unfold Info.fromBinary.
  repeat match goal with
         | |- bind ?m _ = _ -> _ => destruct m; cbn [bind]; [|done]
         end.
  destruct (encoding.Transform _ _ _ _) as [[[dst nDst] nSrc] [err|]].
  - intros [= _ <-]. eauto.
  - destruct (reslice _ _ _); cbn [bind]; done.
Qed.

Lemma switch_err Enc f blockId blockLenght blockData f' e :
  Font.switch Enc f blockId blockLenght blockData = Value (f', Some e) ->
  (uint8 blockId = 1 /\ exists e', e = InfoBlockError (InfoFontNameError e')) \/
  (uint8 blockId = 3 /\ e = PagesTextError).
Proof.
  switch_case.
  - destruct (Info.fromBinary _ _ _) as [[i [e1|]]|] eqn:Hi; cbn [bind]; try done.
    apply Info_fromBinary_err in Hi as [e' ->]. intros [= _ <-]. eauto.
  - destruct (Common.fromBinary _ _) as [[c [e1|]]|] eqn:Hc; cbn [bind]; try done.
    by apply Common_fromBinary_noerr in Hc.
  - destruct (make _) as [fontBuf|]; cbn [bind]; [|done].
    destruct (encoding.Transform _ _ _ _) as [[[dst nDst] nSrc] [err|]].
    + intros [= _ <-]. eauto.
    + destruct (reslice _ _ _); cbn [bind]; [|done].
      by destruct (_ <? 0).
  - destruct (Font.chars_loop _ _ _) as [[chars [e1|]]|] eqn:Hc; cbn [bind]; try done.
    by apply chars_loop_noerr in Hc.
  - destruct (Font.kerning_loop _ _ _) as [[pairs [e1|]]|] eqn:Hc; cbn [bind]; try done.
    by apply kerning_loop_noerr in Hc.
  - done.
Qed.

(** ** The dispatch loop *)

Lemma loop_stops Enc fuel f fb : len fb <= 4 -> Font.loop Enc fuel f fb = Some (Value (f, None)).
Proof.
  intros Hfb. destruct fuel; simpl; by destruct (Z.ltb_spec 4 (len fb)); try lia.
Qed.

Lemma loop_pass Enc fuel f fb :
  4 < len fb ->
  Font.loop Enc (S fuel) f fb =
    match Font.block Enc f fb with
    | Panic => Some Panic
    | Value (Font.Return f' err) => Some (Value (f', Some err))
    | Value (Font.Continue f' fb') => Font.loop Enc fuel f' fb'
    end.
Proof. intros Hfb. simpl. by destruct (Z.ltb_spec 4 (len fb)); try lia. Qed.

Lemma loop_enough Enc fuel : forall f fb,
  (length (elems fb) <= fuel)%nat -> exists r, Font.loop Enc fuel f fb = Some r.
Proof.
  induction fuel as [|fuel IH]; intros f fb Hfuel.
  - rewrite loop_stops by (unfold len; lia). eauto.
  - destruct (Z.le_gt_cases (len fb) 4); [rewrite loop_stops by done; eauto|].
    rewrite loop_pass by lia.
    destruct (Font.block Enc f fb) as [[f' fb'|f' e]|] eqn:Hb; eauto.
    apply block_Continue in Hb as [Hle ->]; [|lia]. apply IH. simpl.
    pose proof (declared_range fb). rewrite length_drop. unfold len in *. lia.
Qed.

Lemma loop_mono Enc n : forall m f fb r,
  Font.loop Enc n f fb = Some r -> (n <= m)%nat -> Font.loop Enc m f fb = Some r.
Proof.
  induction n as [|n IH]; intros m f fb r Hr Hm.
  - destruct (Z.le_gt_cases (len fb) 4).
    + rewrite loop_stops in * by done. done.
    + simpl in Hr. by destruct (Z.ltb_spec 4 (len fb)); try lia.
  - destruct (Z.le_gt_cases (len fb) 4).
    + rewrite loop_stops in * by done. done.
    + destruct m as [|m]; [lia|]. rewrite loop_pass in * by lia.
      destruct (Font.block Enc f fb) as [[f' fb'|f' e]|]; try done.
      apply IH; [done|lia].
Qed.

Lemma loop_fuel Enc n m f fb :
  (length (elems fb) <= n)%nat -> (length (elems fb) <= m)%nat ->
  Font.loop Enc n f fb = Font.loop Enc m f fb.
Proof.
  intros Hn Hm. destruct (loop_enough Enc (length (elems fb)) f fb) as [r Hr]; [done|].
  rewrite (loop_mono _ _ n _ _ _ Hr), (loop_mono _ _ m _ _ _ Hr); done.
Qed.

Lemma reaches_shorter Enc f fb f' fb' :
  reaches Enc f fb f' fb' -> (length (elems fb') <= length (elems fb))%nat.
Proof.
  induction 1 as [|f fb f1 fb1 f' fb' Hfb Hb _ IH]; [done|].
  apply block_Continue in Hb as [Hle ->]; [|done].
  simpl in IH. rewrite length_drop in IH. lia.
Qed.

Lemma loop_reaches Enc f fb f' fb' :
  reaches Enc f fb f' fb' ->
  Font.loop Enc (length (elems fb)) f fb = Font.loop Enc (length (elems fb')) f' fb'.
Proof.
  induction 1 as [|f fb f1 fb1 f' fb' Hfb Hb Hr IH]; [done|].
  rewrite <- IH.
  destruct (length (elems fb)) as [|n] eqn:Hn; [unfold len in *; lia|].
  rewrite loop_pass, Hb by done. apply loop_fuel; [|done].
  apply block_Continue in Hb as [Hle ->]; [|done]. simpl.
  pose proof (declared_range fb). rewrite length_drop. unfold len in *. lia.
Qed.

(** ** The header *)

Lemma FromBuffer_header Enc f b :
  take 4 (elems b) = header ->
  Font.FromBuffer Enc f b =
    Font.loop Enc (length (elems (after_header b))) f (after_header b).
Proof.
  intros Hh. assert (Hlen : 4 <= len b).
  { apply (f_equal length) in Hh. rewrite length_take in Hh.
    change (length header) with 4%nat in Hh. unfold len. lia. }
  assert (Hget : forall i, 0 <= i < 4 -> get (elems b) i = get header i).
  { intros i Hi. unfold get. rewrite <- Hh. by rewrite lookup_take_lt by lia. }
  unfold Font.FromBuffer, Font.orelse. rewrite !index_in by lia.
  rewrite !Hget by lia. cbn -[Font.loop reslice_from].
  rewrite reslice_from_in by lia. done.
Qed.

Lemma loop_head Enc f fb :
  4 < len fb ->
  Font.loop Enc (length (elems fb)) f fb =
    match Font.block Enc f fb with
    | Panic => Some Panic
    | Value (Font.Return f' err) => Some (Value (f', Some err))
    | Value (Font.Continue f' fb') => Font.loop Enc (length (elems fb')) f' fb'
    end.
Proof.
  intros Hfb. destruct (length (elems fb)) as [|n] eqn:Hn; [unfold len in *; lia|].
  rewrite loop_pass by done.
  destruct (Font.block Enc f fb) as [[f' fb'|f' e]|] eqn:Hb; try done.
  apply loop_fuel; [|done].
  apply block_Continue in Hb as [Hle ->]; [|done]. simpl.
  pose proof (declared_range fb). rewrite length_drop. unfold len in *. lia.
Qed.

Lemma FromBuffer_reaches Enc g b f fb :
  take 4 (elems b) = header -> reaches Enc g (after_header b) f fb -> 4 < len fb ->
  Font.FromBuffer Enc g b =
    match Font.block Enc f fb with
    | Panic => Some Panic
    | Value (Font.Return f' err) => Some (Value (f', Some err))
    | Value (Font.Continue f' fb') => Font.loop Enc (length (elems fb')) f' fb'
    end.
Proof.
  intros Hh Hr Hfb. rewrite FromBuffer_header by done.
  rewrite (loop_reaches _ _ _ _ _ Hr). by apply loop_head.
Qed.

Lemma FromBuffer_total Enc f b : exists r, Font.FromBuffer Enc f b = Some r.
Proof.
  unfold Font.FromBuffer.
  destruct (Font.orelse _ _) as [[|]|]; eauto.
  destruct (index b 3) as [b3|]; eauto.
  destruct (negb _); eauto.
  destruct (reslice_from b 4) as [fb|]; eauto.
  by apply loop_enough.
Qed.

(** ** The magic identifier and the version *)

Lemma uint8_inj a b : uint8 a = uint8 b -> a = b.
Proof.
  unfold uint8. intros H. apply Znat.N2Z.inj in H.
  apply (f_equal Byte.of_N) in H. rewrite !Byte.of_to_N in H. congruence.
Qed.

Lemma magic_check b :
  Font.orelse (b0 <- index b 0 ;; Value (negb (uint8 b0 =? 66)))
    (Font.orelse (b1 <- index b 1 ;; Value (negb (uint8 b1 =? 77)))
                 (b2 <- index b 2 ;; Value (negb (uint8 b2 =? 70)))) =
  match elems b with
  | [] => Panic
  | b0 :: l1 =>
      if negb (uint8 b0 =? 66) then Value true
      else match l1 with
           | [] => Panic
           | b1 :: l2 =>
               if negb (uint8 b1 =? 77) then Value true
               else match l2 with
                    | [] => Panic
                    | b2 :: _ => Value (negb (uint8 b2 =? 70))
                    end
           end
  end.
Proof.
  destruct b as [l sp]. unfold Font.orelse. simpl elems.
  destruct l as [|b0 l].
  { by rewrite index_out by (unfold len; simpl; lia). }
  rewrite (index_in _ 0) by (unfold len; simpl; lia). cbn [bind elems].
  change (get (b0 :: l) 0) with b0. destruct (negb (uint8 b0 =? 66)); [done|].
  destruct l as [|b1 l].
  { by rewrite index_out by (unfold len; simpl; lia). }
  rewrite (index_in _ 1) by (unfold len; simpl; lia). cbn [bind elems].
  change (get (b0 :: b1 :: l) 1) with b1. destruct (negb (uint8 b1 =? 77)); [done|].
  destruct l as [|b2 l].
  { by rewrite index_out by (unfold len; simpl; lia). }
  rewrite (index_in _ 2) by (unfold len; simpl; lia). cbn [bind elems].
  done.
Qed.

Lemma uint8_eqb_byte c (x : byte) n : uint8 x = n -> (uint8 c =? n) = true -> c = x.
Proof. intros <- H. apply Z.eqb_eq in H. by apply uint8_inj. Qed.

Ltac byte_cases :=
  repeat match goal with
         | |- context [uint8 ?c =? ?n] =>
             let H := fresh "Hc" in destruct (uint8 c =? n) eqn:H; cbn [negb]
         end.

Ltac bytes_known :=
  repeat match goal with
         | H : (uint8 ?c =? 66) = true |- _ => apply (uint8_eqb_byte c x42 66 eq_refl) in H; subst c
         | H : (uint8 ?c =? 77) = true |- _ => apply (uint8_eqb_byte c x4d 77 eq_refl) in H; subst c
         | H : (uint8 ?c =? 70) = true |- _ => apply (uint8_eqb_byte c x46 70 eq_refl) in H; subst c
         end.

Lemma invalid_identifier f b :
  3 <= len b ->
  (magic <- reslice b 0 3 ;; Value (f, Some (InvalidIdentifier (elems magic)))) =
  Value (f : Font.t, Some (InvalidIdentifier (take 3 (elems b)))).
Proof.
  intros Hb. destruct (reslice_len b 0 3) as [sp ->]; [lia..|]. cbn [bind elems].
  unfold window. by rewrite drop_0.
Qed.

(** ** Pages *)

Lemma Split_nonempty s sep : strings.Split s sep <> [].
Proof.
  induction s as [|c s IH]; simpl; [done|].
  destruct (Byte.eqb c sep); [done|]. by destruct (strings.Split s sep).
Qed.

Lemma Split_name name sep rest :
  sep ∉ name ->
  strings.Split (name ++ sep :: rest) sep = name :: strings.Split rest sep.
Proof.
  induction name as [|c name IH]; intros Hn; simpl.
  - assert (Byte.eqb sep sep = true) as -> by (by apply Byte.byte_dec_lb). done.
  - apply not_elem_of_cons in Hn as [Hc Hn].
    destruct (Byte.eqb c sep) eqn:E.
    { apply Byte.byte_dec_bl in E. congruence. }
    by rewrite IH.
Qed.

Lemma Split_terminated names sep :
  Forall (fun name => sep ∉ name) names ->
  strings.Split (concat (map (fun name => name ++ [sep]) names)) sep = names ++ [[]].
Proof.
  induction 1 as [|name names Hn _ IH]; simpl; [done|].
  rewrite <- app_assoc. simpl. rewrite Split_name by done. by rewrite IH.
Qed.

Lemma Split_snoc t sep : strings.Split (t ++ [sep]) sep = strings.Split t sep ++ [[]].
Proof.
  induction t as [|c t IH]; simpl.
  - assert (Byte.eqb sep sep = true) as -> by (by apply Byte.byte_dec_lb). done.
  - destruct (Byte.eqb c sep); rewrite IH; [done|].
    pose proof (Split_nonempty t sep). by destruct (strings.Split t sep).
Qed.

Lemma switch_pages Enc f blockId blockLenght blockData dst nDst nSrc :
  uint8 blockId = 3 ->
  encoding.Transform (encoding.NewDecoder Enc)
    (replicate (Z.to_nat (uint32 (blockLenght * 5) `quot` 2)) x00) (elems blockData) false
    = (dst, nDst, nSrc, None) ->
  0 <= nDst <= Z.of_nat (length dst) ->
  Font.switch Enc f blockId blockLenght blockData =
    Value (Font.mk (Font.Info f) (Font.Common f)
             (take (length (strings.Split (take (Z.to_nat nDst) dst) x00) - 1)
                   (strings.Split (take (Z.to_nat nDst) dst) x00))
             (Font.Chars f) (Font.KerningPairs f), None).
Proof.
  intros Hid Ht Hn. switch_case.
  assert (0 <= uint32 (blockLenght * 5) `quot` 2).
  { apply Z.quot_pos; [|lia]. unfold uint32. apply Z.mod_pos_bound. lia. }
  unfold make. destruct (Z.ltb_spec (uint32 (blockLenght * 5) `quot` 2) 0); [lia|].
  cbn [bind elems spare]. rewrite Ht.
  rewrite reslice_in by (unfold cap, backing; simpl; rewrite ?app_nil_r; lia).
  cbn [bind elems]. unfold window, backing. simpl elems. simpl spare.
  rewrite app_nil_r, drop_0, Z.sub_0_r.
  pose proof (Split_nonempty (take (Z.to_nat nDst) dst) x00) as Hne.
  destruct (strings.Split (take (Z.to_nat nDst) dst) x00) as [|w ws] eqn:Hs; [done|].
  destruct (Z.ltb_spec (Z.of_nat (length (w :: ws)) - 1) 0); [simpl in *; lia|].
  do 3 f_equal. f_equal. lia.
Qed.

(** ** The charmap decoder *)

Lemma length_utf8 r : (1 <= length (charmap.utf8 r) <= 3)%nat.
Proof.
  unfold charmap.utf8. destruct (r <? 128); [simpl; lia|].
  destruct (r <? 2048); simpl; lia.
Qed.

Lemma length_image_windows1252 c :
  (1 <= length (charmap.image charmap.windows1252 c) <= 3)%nat.
Proof.
  unfold charmap.image. simpl. destruct (uint8 c <? 128); [simpl; lia|apply length_utf8].
Qed.

Lemma length_image_cons m c src :
  Z.of_nat (length (flat_map (charmap.image m) (c :: src))) =
  Z.of_nat (length (charmap.image m c)) + Z.of_nat (length (flat_map (charmap.image m) src)).
Proof.
  change (flat_map (charmap.image m) (c :: src))
    with (charmap.image m c ++ flat_map (charmap.image m) src).
  rewrite length_app. lia.
Qed.

Lemma transform_loop_fits m src : forall dst nDst nSrc i,
  0 <= nDst ->
  nDst + Z.of_nat (length (flat_map (charmap.image m) src)) <= Z.of_nat (length dst) ->
  exists dst' nSrc',
    length dst' = length dst /\
    charmap.transform_loop m dst nDst nSrc i src =
      (dst', nDst + Z.of_nat (length (flat_map (charmap.image m) src)), nSrc', None).
Proof.
  induction src as [|c src IH]; intros dst nDst nSrc i HnDst Hfit.
  { exists dst, nSrc. simpl. by rewrite Z.add_0_r. }
  rewrite length_image_cons in *. cbn [charmap.transform_loop].
  assert (Himg : charmap.image m c =
    if charmap.asciiSuperset m && (uint8 c <? 128) then [c] else charmap.decode m c) by done.
  destruct (charmap.asciiSuperset m && (uint8 c <? 128)); rewrite Himg in *.
  - change (Z.of_nat (length [c])) with 1 in *.
    destruct (Z.leb_spec (Z.of_nat (length dst)) nDst); [lia|].
    destruct (IH (<[Z.to_nat nDst:=c]> dst) (nDst + 1) (i + 1) (i + 1)) as (dst' & nSrc' & Hl & ->);
      [lia|rewrite length_insert; lia|].
    exists dst', nSrc'. rewrite length_insert in Hl. split; [done|].
    do 3 f_equal. lia.
  - destruct (Z.ltb_spec (Z.of_nat (length dst)) (nDst + Z.of_nat (length (charmap.decode m c))));
      [lia|].
    destruct (IH (list_inserts (Z.to_nat nDst) (charmap.decode m c) dst)
                (nDst + Z.of_nat (length (charmap.decode m c))) (i + 1) (i + 1))
      as (dst' & nSrc' & Hl & ->); [lia|rewrite length_inserts; lia|].
    exists dst', nSrc'. rewrite length_inserts in Hl. split; [done|].
    do 3 f_equal. lia.
Qed.

Lemma transform_loop_short m src : forall dst nDst nSrc i,
  Z.of_nat (length dst) < nDst + Z.of_nat (length (flat_map (charmap.image m) src)) ->
  nDst <= Z.of_nat (length dst) ->
  exists dst' nDst' nSrc',
    charmap.transform_loop m dst nDst nSrc i src = (dst', nDst', nSrc', Some ErrShortDst).
Proof.
  induction src as [|c src IH]; intros dst nDst nSrc i Hfit HnDst.
  { simpl in Hfit. lia. }
  rewrite length_image_cons in *. cbn [charmap.transform_loop].
  assert (Himg : charmap.image m c =
    if charmap.asciiSuperset m && (uint8 c <? 128) then [c] else charmap.decode m c) by done.
  destruct (charmap.asciiSuperset m && (uint8 c <? 128)); rewrite Himg in *.
  - change (Z.of_nat (length [c])) with 1 in *.
    destruct (Z.leb_spec (Z.of_nat (length dst)) nDst); [eauto|].
    apply IH; rewrite length_insert; lia.
  - destruct (Z.ltb_spec (Z.of_nat (length dst)) (nDst + Z.of_nat (length (charmap.decode m c))));
      [eauto|].
    apply IH; rewrite length_inserts; lia.
Qed.

Lemma take_inserts (l k : list byte) i :
  (i + length k <= length l)%nat ->
  take (i + length k) (list_inserts i k l) = take i l ++ k.
Proof.
  intros Hl. apply list_eq. intros j.
  destruct (decide (j < i)%nat).
  - rewrite lookup_take_lt by lia. rewrite list_lookup_inserts_lt by done.
    rewrite lookup_app_l by (rewrite length_take; lia). by rewrite lookup_take_lt.
  - destruct (decide (j < i + length k)%nat).
    + rewrite lookup_take_lt by lia. rewrite list_lookup_inserts by lia.
      rewrite lookup_app_r by (rewrite length_take; lia).
      rewrite length_take. f_equal. lia.
    + rewrite lookup_take_ge by lia. symmetry. apply lookup_ge_None.
      rewrite length_app, length_take. lia.
Qed.

Lemma transform_loop_output m src : forall dst nDst nSrc i,
  0 <= nDst ->
  nDst + Z.of_nat (length (flat_map (charmap.image m) src)) <= Z.of_nat (length dst) ->
  exists dst' nSrc',
    charmap.transform_loop m dst nDst nSrc i src =
      (dst', nDst + Z.of_nat (length (flat_map (charmap.image m) src)), nSrc', None) /\
    length dst' = length dst /\
    take (Z.to_nat (nDst + Z.of_nat (length (flat_map (charmap.image m) src)))) dst' =
      take (Z.to_nat nDst) dst ++ flat_map (charmap.image m) src.
Proof.
  induction src as [|c src IH]; intros dst nDst nSrc i HnDst Hfit.
  { exists dst, nSrc. simpl. by rewrite Z.add_0_r, app_nil_r. }
  rewrite length_image_cons in *. cbn [charmap.transform_loop].
  change (flat_map (charmap.image m) (c :: src))
    with (charmap.image m c ++ flat_map (charmap.image m) src).
  assert (Himg : charmap.image m c =
    if charmap.asciiSuperset m && (uint8 c <? 128) then [c] else charmap.decode m c) by done.
  destruct (charmap.asciiSuperset m && (uint8 c <? 128)); rewrite Himg in *.
  - change (Z.of_nat (length [c])) with 1 in *.
    destruct (Z.leb_spec (Z.of_nat (length dst)) nDst); [lia|].
    destruct (IH (<[Z.to_nat nDst:=c]> dst) (nDst + 1) (i + 1) (i + 1))
      as (dst' & nSrc' & -> & Hl & Ht); [lia|rewrite length_insert; lia|].
    exists dst', nSrc'. rewrite length_insert in Hl. split_and!; [do 3 f_equal; lia|done|].
    rewrite Z.add_assoc, Ht.
    replace (Z.to_nat (nDst + 1)) with (S (Z.to_nat nDst)) by lia.
    rewrite (take_S_r _ _ c) by (apply list_lookup_insert_eq; lia).
    rewrite take_insert_ge by lia. by rewrite <- app_assoc.
  - destruct (Z.ltb_spec (Z.of_nat (length dst)) (nDst + Z.of_nat (length (charmap.decode m c))));
      [lia|].
    destruct (IH (list_inserts (Z.to_nat nDst) (charmap.decode m c) dst)
                (nDst + Z.of_nat (length (charmap.decode m c))) (i + 1) (i + 1))
      as (dst' & nSrc' & -> & Hl & Ht); [lia|rewrite length_inserts; lia|].
    exists dst', nSrc'. rewrite length_inserts in Hl. split_and!; [do 3 f_equal; lia|done|].
    rewrite Z.add_assoc, Ht.
    replace (Z.to_nat (nDst + Z.of_nat (length (charmap.decode m c))))
      with (Z.to_nat nDst + length (charmap.decode m c))%nat by lia.
    rewrite take_inserts by lia. by rewrite <- app_assoc.
Qed.

(** ** Transcoding with the default encoding *)

Lemma make_nonneg n : 0 <= n -> make n = Value (Slice (replicate (Z.to_nat n) x00) []).
Proof. intros Hn. unfold make. by destruct (Z.ltb_spec n 0); [lia|]. Qed.

Lemma Info_fromBinary_unfold Enc i b :
  14 <= len b ->
  Info.fromBinary Enc i b =
    match encoding.Transform (encoding.NewDecoder Enc)
            (replicate (Z.to_nat (((len b - 14) * 5) `quot` 2)) x00)
            (drop 14 (elems b)) true with
    | (dst, nDst, _, Some err) =>
        Value (Info_of (elems b) (Info.FontName i), Some (InfoFontNameError err))
    | (dst, nDst, _, None) =>
        name <- reslice (Slice dst []) 0 nDst ;;
        Value (Info_of (elems b) (elems name), None)
    end.
Proof.
  intros Hb. unfold Info.fromBinary.
  repeat first [rewrite read16 by lia | rewrite read8 by lia].
  rewrite make_nonneg by (apply Z.quot_pos; lia). cbn [bind elems spare].
  fold (reslice_from b 14). rewrite reslice_from_in by lia. cbn [bind elems].
  change (Z.to_nat 14) with 14%nat.
  by destruct (encoding.Transform _ _ _ _) as [[[dst nDst] nSrc] [err|]].
Qed.

Lemma Info_fromBinary_windows1252 i b :
  14 <= len b ->
  (Z.of_nat (length (flat_map (charmap.image charmap.windows1252) (drop 14 (elems b))))
     <= ((len b - 14) * 5) `quot` 2 ->
   Info.fromBinary Encoding i b =
     Value (Info_of (elems b) (flat_map (charmap.image charmap.windows1252) (drop 14 (elems b))),
            None)) /\
  (((len b - 14) * 5) `quot` 2
     < Z.of_nat (length (flat_map (charmap.image charmap.windows1252) (drop 14 (elems b)))) ->
   Info.fromBinary Encoding i b =
     Value (Info_of (elems b) (Info.FontName i), Some (InfoFontNameError ErrShortDst))).
Proof.
  intros Hb. rewrite Info_fromBinary_unfold by done.
  assert (Hq : 0 <= ((len b - 14) * 5) `quot` 2) by (apply Z.quot_pos; lia).
  change (encoding.Transform (encoding.NewDecoder Encoding) ?dst ?src true)
    with (charmap.transform_loop charmap.windows1252 dst 0 0 0 src).
  split; intros Hfit.
  - destruct (transform_loop_output charmap.windows1252 (drop 14 (elems b))
                (replicate (Z.to_nat (((len b - 14) * 5) `quot` 2)) x00) 0 0 0)
      as (dst' & nSrc' & -> & Hl & Ht); [lia|rewrite length_replicate; lia|].
    rewrite length_replicate in Hl.
    destruct (reslice_len (Slice dst' []) 0
                (0 + Z.of_nat (length (flat_map (charmap.image charmap.windows1252)
                                         (drop 14 (elems b)))))) as [sp ->];
      [lia|unfold len; simpl; lia|].
    cbn [bind elems]. unfold window. rewrite drop_0, Z.sub_0_r.
    simpl in Ht. by rewrite Ht.
  - destruct (transform_loop_short charmap.windows1252 (drop 14 (elems b))
                (replicate (Z.to_nat (((len b - 14) * 5) `quot` 2)) x00) 0 0 0)
      as (dst' & nDst' & nSrc' & ->); [rewrite length_replicate; lia..|]. done.
Qed.

Lemma switch_pages_windows1252 f blockId blockLenght blockData :
  uint8 blockId = 3 ->
  (Z.of_nat (length (flat_map (charmap.image charmap.windows1252) (elems blockData)))
     <= uint32 (blockLenght * 5) `quot` 2 ->
   Font.switch Encoding f blockId blockLenght blockData =
     Value (Font.mk (Font.Info f) (Font.Common f)
              (take (length (strings.Split
                               (flat_map (charmap.image charmap.windows1252) (elems blockData))
                               x00) - 1)
                    (strings.Split
                       (flat_map (charmap.image charmap.windows1252) (elems blockData)) x00))
              (Font.Chars f) (Font.KerningPairs f), None)) /\
  (uint32 (blockLenght * 5) `quot` 2
     < Z.of_nat (length (flat_map (charmap.image charmap.windows1252) (elems blockData))) ->
   Font.switch Encoding f blockId blockLenght blockData = Value (f, Some PagesTextError)).
Proof.
  intros Hid.
  assert (Hq : 0 <= uint32 (blockLenght * 5) `quot` 2).
  { apply Z.quot_pos; [|lia]. unfold uint32. apply Z.mod_pos_bound. lia. }
  split; intros Hfit.
  - destruct (transform_loop_output charmap.windows1252 (elems blockData)
                (replicate (Z.to_nat (uint32 (blockLenght * 5) `quot` 2)) x00) 0 0 0)
      as (dst' & nSrc' & Heq & Hl & Ht); [lia|rewrite length_replicate; lia|].
    rewrite length_replicate in Hl. simpl in Ht. rewrite <- Ht.
    apply (switch_pages Encoding f blockId blockLenght blockData dst' _ nSrc'); [done|exact Heq|lia].
  - destruct (transform_loop_short charmap.windows1252 (elems blockData)
                (replicate (Z.to_nat (uint32 (blockLenght * 5) `quot` 2)) x00) 0 0 0)
      as (dst' & nDst' & nSrc' & Heq); [rewrite length_replicate; lia..|].
    switch_case. rewrite make_nonneg by done. cbn [bind elems].
    change (encoding.Transform (encoding.NewDecoder Encoding) ?dst ?src false)
      with (charmap.transform_loop charmap.windows1252 dst 0 0 0 src).
    by rewrite Heq.
Qed.

(** ** Blocks do not depend on what follows them *)

Lemma Info_fromBinary_elems Enc i b1 b2 :
  elems b1 = elems b2 -> Info.fromBinary Enc i b1 = Info.fromBinary Enc i b2.
Proof.
  intros He. assert (Hl : len b1 = len b2) by (unfold len; by rewrite He).
  destruct (Z.lt_ge_cases (len b1) 14).
  - rewrite !Info_fromBinary_short by lia. done.
  - rewrite !Info_fromBinary_unfold by lia. by rewrite He, Hl.
Qed.

Lemma Common_fromBinary_elems c b1 b2 :
  elems b1 = elems b2 -> Common.fromBinary c b1 = Common.fromBinary c b2.
Proof.
  intros He. assert (Hl : len b1 = len b2) by (unfold len; by rewrite He).
  destruct (Z.lt_ge_cases (len b1) 15).
  - rewrite !Common_fromBinary_short by lia. done.
  - rewrite !Common_fromBinary_ok by lia. by rewrite He.
Qed.

Lemma switch_elems Enc f blockId blockLenght d1 d2 :
  0 <= blockLenght -> len d1 = blockLenght -> elems d1 = elems d2 ->
  Font.switch Enc f blockId blockLenght d1 = Font.switch Enc f blockId blockLenght d2.
Proof.
  intros HL Hl He. assert (Hl2 : len d2 = blockLenght) by (unfold len in *; by rewrite <- He).
  destruct (decide (uint8 blockId = 4)) as [H4|H4].
  { rewrite !switch_chars by done. by rewrite He. }
  destruct (decide (uint8 blockId = 5)) as [H5|H5].
  { rewrite !switch_kerning by done. by rewrite He. }
  switch_case.
  - by rewrite (Info_fromBinary_elems _ _ d1 d2).
  - by rewrite (Common_fromBinary_elems _ d1 d2).
  - by rewrite He.
  - done.
Qed.

Lemma get_take (l : list byte) n i : 0 <= i < Z.of_nat n -> get (take n l) i = get l i.
Proof. intros Hi. unfold get. by rewrite lookup_take_lt by lia. Qed.

Lemma window_take (l : list byte) n lo hi :
  0 <= lo <= hi -> hi <= Z.of_nat n -> window (take n l) lo hi = window l lo hi.
Proof.
  intros Hlo Hhi. unfold window. rewrite !take_drop_commute, take_take.
  do 2 f_equal. lia.
Qed.

Lemma block_frame Enc f fb1 fb2 :
  4 < len fb1 -> 5 + declared fb1 <= len fb1 -> 5 + declared fb1 <= len fb2 ->
  take (Z.to_nat (5 + declared fb1)) (elems fb1) = take (Z.to_nat (5 + declared fb1)) (elems fb2) ->
  Font.block Enc f fb2 =
    match Font.block Enc f fb1 with
    | Value (Font.Continue f' _) =>
        Value (Font.Continue f'
                 (Slice (drop (Z.to_nat (5 + declared fb1)) (elems fb2)) (spare fb2)))
    | r => r
    end.
Proof.
  intros Hfb Hle1 Hle2 Ht. pose proof (declared_range fb1) as Hr.
  pose proof (len_le_cap fb1). pose proof (len_le_cap fb2).
  assert (Hd : declared fb2 = declared fb1).
  { unfold declared, u32.
    rewrite <- !(get_take (elems fb2) (Z.to_nat (5 + declared fb1))) by lia.
    rewrite <- Ht. rewrite !get_take by lia. done. }
  assert (Htag : tag fb2 = tag fb1).
  { unfold tag. rewrite <- (get_take (elems fb2) (Z.to_nat (5 + declared fb1))) by lia.
    rewrite <- Ht. by rewrite get_take by lia. }
  destruct (Z.le_gt_cases (2 ^ 32) (5 + declared fb1)).
  { rewrite !block_wraps by lia. done. }
  destruct (block_in_cap Enc f fb1) as (d1 & Hl1 & He1 & ->); [lia..|].
  destruct (block_in_cap Enc f fb2) as (d2 & Hl2 & He2 & ->); [lia..|].
  rewrite Hd, Htag in *.
  assert (He : elems d1 = elems d2).
  { rewrite He1, He2. unfold backing.
    rewrite !window_app_l by (unfold len in *; lia).
    rewrite <- (window_take (elems fb1) (Z.to_nat (5 + declared fb1))) by lia.
    rewrite <- (window_take (elems fb2) (Z.to_nat (5 + declared fb1))) by lia.
    by rewrite Ht. }
  rewrite <- (switch_elems Enc f (tag fb1) (declared fb1) d1 d2) by (done || lia).
  destruct (Font.switch _ _ _ _ _) as [[f' [e|]]|]; cbn [bind]; try done.
  rewrite !reslice_from_in by lia. done.
Qed.

Lemma reaches_frame Enc f fb f' fb' :
  reaches Enc f fb f' fb' ->
  forall pre X sp Y sp',
    fb = Slice (pre ++ X) sp -> fb' = Slice X sp ->
    reaches Enc f (Slice (pre ++ Y) sp') f' (Slice Y sp').
Proof.
  induction 1 as [f fb|f fb f1 fb1 f' fb' Hfb Hb Hr IH]; intros pre X sp Y sp' -> Hfb'.
  - injection Hfb' as Hpre. apply (app_inv_tail X pre []) in Hpre as ->.
    apply reaches_here.
  - subst fb'. pose proof (reaches_shorter _ _ _ _ _ Hr) as Hshort.
    pose proof (declared_range (Slice (pre ++ X) sp)) as Hrange.
    destruct (block_Continue _ _ _ _ _ Hfb Hb) as [Hle ->].
    pose proof Hfb as Hfb0. pose proof Hle as Hle0.
    unfold len in Hle, Hfb. simpl in Hshort, Hle, Hfb.
    rewrite length_drop in Hshort. rewrite length_app in Hshort, Hle, Hfb.
    simpl elems in *. simpl spare in *.
    rewrite drop_app_le in Hr, IH by lia.
    apply (reaches_pass _ _ _ f1
             (Slice (drop (Z.to_nat (5 + declared (Slice (pre ++ X) sp))) pre ++ Y) sp')).
    + unfold len. simpl. rewrite length_app. lia.
    + rewrite (block_frame Enc f (Slice (pre ++ X) sp) (Slice (pre ++ Y) sp')).
      * rewrite Hb. simpl. by rewrite drop_app_le by lia.
      * done.
      * done.
      * unfold len. simpl. rewrite length_app. lia.
      * simpl. by rewrite !take_app_le by lia.
    + by apply (IH _ X sp).
Qed.

Lemma FromBuffer_after_header Enc g l sp :
  Font.FromBuffer Enc g (Slice (header ++ l) sp) = Font.loop Enc (length l) g (Slice l sp).
Proof. by rewrite FromBuffer_header. Qed.

(** * The claims *)

(** C9.  The block-dispatch loop terminates on every input: with as many
    passes allowed as the stream has bytes, the loop and the whole of
    [FromBuffer] produce an outcome, and a larger allowance gives the same
    one.  Each pass that goes on to the next consumes at least 5 bytes (the
    tag, the length and the payload).  The loop stops exactly when fewer
    than 5 bytes remain: then it returns the font with no error, whatever
    the remaining bytes are, and with 5 bytes or more it makes another
    pass. *)
Theorem dispatch_loop_terminates Enc :
  (forall f b, exists r, Font.FromBuffer Enc f b = Some r) /\
  (forall f fb, exists r, forall fuel,
      (length (elems fb) <= fuel)%nat -> Font.loop Enc fuel f fb = Some r) /\
  (forall f fb f' fb',
      4 < len fb -> Font.block Enc f fb = Value (Font.Continue f' fb') ->
      len fb' = len fb - (5 + declared fb) /\ len fb' + 5 <= len fb) /\
  (forall fuel f fb, len fb < 5 -> Font.loop Enc fuel f fb = Some (Value (f, None))) /\
  (forall fuel f fb,
      5 <= len fb ->
      Font.loop Enc (S fuel) f fb =
        match Font.block Enc f fb with
        | Panic => Some Panic
        | Value (Font.Return f' err) => Some (Value (f', Some err))
        | Value (Font.Continue f' fb') => Font.loop Enc fuel f' fb'
        end).
Proof.
  split_and!.
  - intros f b. apply FromBuffer_total.
  - intros f fb. destruct (loop_enough Enc (length (elems fb)) f fb) as [r Hr]; [done|].
    exists r. intros fuel Hfuel. by apply (loop_mono _ _ _ _ _ _ Hr).
  - intros f fb f' fb' Hfb Hb. apply block_Continue in Hb as [Hle ->]; [|done].
    pose proof (declared_range fb). unfold len in *. simpl. rewrite length_drop. lia.
  - intros fuel f fb Hfb. apply loop_stops. lia.
  - intros fuel f fb Hfb. apply loop_pass. lia.
Qed.

(** C8.  A block whose tag is none of 1 to 5, and whose declared payload
    lies in the stream, is consumed without error and leaves every field of
    the font as it was; the loop goes on with the bytes after the payload.
    So the decode of a buffer in which the loop comes to the unknown block
    ends as the decode of the same buffer with the unknown block taken out:
    the blocks after it are decoded exactly as if it were absent. *)
Theorem unknown_block_skipped Enc f fb :
  4 < len fb -> ~ 1 <= uint8 (tag fb) <= 5 ->
  5 + declared fb <= len fb -> 5 + declared fb < 2 ^ 32 ->
  Font.block Enc f fb =
    Value (Font.Continue f (Slice (drop (Z.to_nat (5 + declared fb)) (elems fb)) (spare fb))) /\
  (forall fuel,
      Font.loop Enc (S fuel) f fb =
      Font.loop Enc fuel f (Slice (drop (Z.to_nat (5 + declared fb)) (elems fb)) (spare fb))) /\
  (forall g b,
      take 4 (elems b) = header -> reaches Enc g (after_header b) f fb ->
      Font.FromBuffer Enc g b =
      Font.loop Enc (length (drop (Z.to_nat (5 + declared fb)) (elems fb))) f
        (Slice (drop (Z.to_nat (5 + declared fb)) (elems fb)) (spare fb))) /\
  (forall g pre,
      reaches Enc g (Slice (pre ++ elems fb) (spare fb)) f fb ->
      Font.FromBuffer Enc g (Slice (header ++ pre ++ elems fb) (spare fb)) =
      Font.FromBuffer Enc g
        (Slice (header ++ pre ++ drop (Z.to_nat (5 + declared fb)) (elems fb)) (spare fb))).
Proof.
  intros Hfb Htag Hle Hw. pose proof (len_le_cap fb). pose proof (declared_range fb).
  assert (Hb : Font.block Enc f fb =
    Value (Font.Continue f (Slice (drop (Z.to_nat (5 + declared fb)) (elems fb)) (spare fb)))).
  { destruct (block_in_cap Enc f fb) as (blockData & _ & _ & ->); [lia..|].
    rewrite switch_unknown by done. cbn [bind].
    by rewrite reslice_from_in by lia. }
  split_and!; [done| | |].
  - intros fuel. by rewrite loop_pass, Hb.
  - intros g b Hh Hr. by rewrite (FromBuffer_reaches _ _ _ _ _ Hh Hr Hfb), Hb.
  - intros g pre Hr. rewrite !FromBuffer_after_header.
    pose proof (loop_reaches _ _ _ _ _ Hr) as E. cbn [elems] in E.
    rewrite E, loop_head, Hb by done. clear E.
    pose proof (reaches_frame _ _ _ _ _ Hr pre (elems fb) (spare fb)
                  (drop (Z.to_nat (5 + declared fb)) (elems fb)) (spare fb)) as Hr'.
    pose proof (loop_reaches _ _ _ _ _ (Hr' eq_refl ltac:(by destruct fb))) as E.
    cbn [elems] in E. by rewrite E.
Qed.

(** C5.  For a Chars block whose payload lies in the stream, the number
    of glyph records decoded is the declared length divided by 20, and
    record [i] is what [Char.fromBinary] makes of the 20 bytes of the payload
    from offset [i*20] on; for a KerningPairs block the same holds with 10
    and [KerningPair.fromBinary]. *)
Theorem record_count_and_spans Enc f fb :
  4 < len fb -> 5 + declared fb <= len fb -> 5 + declared fb < 2 ^ 32 ->
  (uint8 (tag fb) = 4 ->
   exists chars,
     Font.block Enc f fb =
       Value (Font.Continue
                (Font.mk (Font.Info f) (Font.Common f) (Font.Pages f) chars (Font.KerningPairs f))
                (Slice (drop (Z.to_nat (5 + declared fb)) (elems fb)) (spare fb))) /\
     Z.of_nat (length chars) = declared fb / 20 /\
     forall i c, chars !! i = Some c ->
       length (records 20 (window (elems fb) 5 (5 + declared fb)) i) = 20%nat /\
       Char.fromBinary Char.zero (bytes (records 20 (window (elems fb) 5 (5 + declared fb)) i))
         = Value (c, None)) /\
  (uint8 (tag fb) = 5 ->
   exists pairs,
     Font.block Enc f fb =
       Value (Font.Continue
                (Font.mk (Font.Info f) (Font.Common f) (Font.Pages f) (Font.Chars f) pairs)
                (Slice (drop (Z.to_nat (5 + declared fb)) (elems fb)) (spare fb))) /\
     Z.of_nat (length pairs) = declared fb / 10 /\
     forall i kp, pairs !! i = Some kp ->
       length (records 10 (window (elems fb) 5 (5 + declared fb)) i) = 10%nat /\
       KerningPair.fromBinary KerningPair.zero
           (bytes (records 10 (window (elems fb) 5 (5 + declared fb)) i))
         = Value (kp, None)).
Proof.
  intros Hfb Hle Hw. pose proof (len_le_cap fb). pose proof (declared_range fb).
  destruct (block_in_cap Enc f fb) as (blockData & Hlen & Helems & ->); [lia..|].
  unfold backing in Helems. rewrite window_app_l in Helems by (unfold len in *; lia).
  assert (Hpay : Z.of_nat (length (window (elems fb) 5 (5 + declared fb))) = declared fb).
  { rewrite length_window; unfold len in *; lia. }
  split; intros Htag.
  - rewrite switch_chars by (done || lia). cbn [bind].
    rewrite reslice_from_in by lia. cbn [bind].
    eexists. split; [reflexivity|]. rewrite length_map, length_seq. split.
    { rewrite Z2Nat.id; [done|]. apply Z.div_pos; lia. }
    intros i c Hi. rewrite list_lookup_fmap in Hi.
    destruct (seq _ _ !! i) as [j|] eqn:Hj; [|done].
    apply lookup_seq in Hj as [-> Hi']. simpl in Hi. injection Hi as <-.
    rewrite Helems. pose proof (Z.mul_div_le (declared fb) 20).
    assert (Hrec : Z.of_nat (length (records 20 (window (elems fb) 5 (5 + declared fb)) i)) = 20).
    { unfold records. rewrite length_window; lia. }
    split; [lia|]. rewrite Char_fromBinary_ok by (unfold len; simpl; lia). done.
  - rewrite switch_kerning by (done || lia). cbn [bind].
    rewrite reslice_from_in by lia. cbn [bind].
    eexists. split; [reflexivity|]. rewrite length_map, length_seq. split.
    { rewrite Z2Nat.id; [done|]. apply Z.div_pos; lia. }
    intros i c Hi. rewrite list_lookup_fmap in Hi.
    destruct (seq _ _ !! i) as [j|] eqn:Hj; [|done].
    apply lookup_seq in Hj as [-> Hi']. simpl in Hi. injection Hi as <-.
    rewrite Helems. pose proof (Z.mul_div_le (declared fb) 10).
    assert (Hrec : Z.of_nat (length (records 10 (window (elems fb) 5 (5 + declared fb)) i)) = 10).
    { unfold records. rewrite length_window; lia. }
    split; [lia|]. rewrite KerningPair_fromBinary_ok by (unfold len; simpl; lia). done.
Qed.

(** C1 (amended).  When the dispatch loop comes to a block whose declared
    length reaches past the end of the buffer, or to an Info block shorter
    than 14 bytes or a Common block shorter than 15, the decode returns no
    truncation error and does not succeed.  It panics whenever the declared
    length reaches past the capacity of the buffer (so always, for a buffer
    whose capacity is its length) and whenever the Info or Common payload is
    too short; when the declared length reaches past the length but not the
    capacity, it panics as well, unless the transcoding of the over-read
    Info or Pages payload has failed first and that error is returned. *)
Theorem truncated_block_panics Enc g b f fb :
  take 4 (elems b) = header -> reaches Enc g (after_header b) f fb -> 4 < len fb ->
  (cap fb < 5 + declared fb -> Font.FromBuffer Enc g b = Some Panic) /\
  (uint8 (tag fb) = 1 -> declared fb < 14 -> Font.FromBuffer Enc g b = Some Panic) /\
  (uint8 (tag fb) = 2 -> declared fb < 15 -> Font.FromBuffer Enc g b = Some Panic) /\
  (len fb < 5 + declared fb ->
   Font.FromBuffer Enc g b = Some Panic \/
   exists f' e,
     Font.FromBuffer Enc g b = Some (Value (f', Some e)) /\
     ((uint8 (tag fb) = 1 /\ exists e', e = InfoBlockError (InfoFontNameError e')) \/
      (uint8 (tag fb) = 3 /\ e = PagesTextError))).
Proof.
  intros Hh Hr Hfb. rewrite (FromBuffer_reaches _ _ _ _ _ Hh Hr Hfb).
  pose proof (len_le_cap fb). pose proof (declared_range fb).
  assert (Hcap : cap fb < 5 + declared fb -> Font.block Enc f fb = Panic).
  { intros Hc. by apply block_past_cap. }
  assert (Hwrap : 2 ^ 32 <= 5 + declared fb -> Font.block Enc f fb = Panic).
  { intros Hc. by apply block_wraps. }
  split_and!.
  - intros Hc. by rewrite Hcap.
  - intros Htag Hshort. destruct (Z.lt_ge_cases (cap fb) (5 + declared fb)).
    { by rewrite Hcap. }
    destruct (block_in_cap Enc f fb) as (blockData & Hlen & _ & ->); [lia..|].
    by rewrite switch_info_short by lia.
  - intros Htag Hshort. destruct (Z.lt_ge_cases (cap fb) (5 + declared fb)).
    { by rewrite Hcap. }
    destruct (block_in_cap Enc f fb) as (blockData & Hlen & _ & ->); [lia..|].
    by rewrite switch_common_short by lia.
  - intros Hover. destruct (Z.lt_ge_cases (cap fb) (5 + declared fb)).
    { rewrite Hcap by done. by left. }
    destruct (Z.le_gt_cases (2 ^ 32) (5 + declared fb)).
    { rewrite Hwrap by done. by left. }
    destruct (block_in_cap Enc f fb) as (blockData & Hlen & _ & ->); [lia..|].
    destruct (Font.switch _ _ _ _ _) as [[f' [e|]]|] eqn:Hs; cbn [bind].
    + right. exists f', e. split; [done|]. by apply switch_err in Hs.
    + rewrite reslice_from_out by lia. by left.
    + by left.
Qed.

(** C6.  A buffer whose first three bytes are not [B], [M], [F] is rejected
    with the invalid-identifier error, and a buffer of five bytes or more
    with the right identifier and a version byte other than 3 with the
    unsupported-version error (which reports the byte after the version);
    in both cases the font is returned as it was, no block decoded.  A
    buffer of exactly four bytes with the right identifier and a wrong
    version is not rejected with an error: the error is built from [b[4]],
    which is not there, and the call panics. *)
Theorem header_checks Enc f b :
  (3 <= len b -> take 3 (elems b) <> magic ->
   Font.FromBuffer Enc f b = Some (Value (f, Some (InvalidIdentifier (take 3 (elems b)))))) /\
  (5 <= len b -> take 3 (elems b) = magic -> uint8 (get (elems b) 3) <> 3 ->
   Font.FromBuffer Enc f b = Some (Value (f, Some (UnsupportedVersion (get (elems b) 4))))) /\
  (len b = 4 -> take 3 (elems b) = magic -> uint8 (get (elems b) 3) <> 3 ->
   Font.FromBuffer Enc f b = Some Panic).
Proof.
  split_and!.
  - intros Hb Hne. unfold Font.FromBuffer. rewrite magic_check.
    rewrite invalid_identifier by done.
    destruct (elems b) as [|b0 [|b1 [|b2 l]]] eqn:He;
      try (unfold len in Hb; rewrite He in Hb; simpl in Hb; lia).
    byte_cases; try done. bytes_known. done.
  - intros Hb Hm Hv. unfold Font.FromBuffer. rewrite magic_check.
    rewrite (index_in b 3), (index_in b 4) by lia. cbn [bind].
    destruct (elems b) as [|b0 [|b1 [|b2 l]]] eqn:He; try done.
    simpl in Hm. injection Hm as -> -> ->. cbn.
    destruct (Z.eqb_spec (uint8 (get (x42 :: x4d :: x46 :: l) 3)) 3); done.
  - intros Hb Hm Hv. unfold Font.FromBuffer. rewrite magic_check.
    rewrite (index_in b 3), (index_out b 4) by lia. cbn [bind].
    destruct (elems b) as [|b0 [|b1 [|b2 l]]] eqn:He; try done.
    simpl in Hm. injection Hm as -> -> ->. cbn.
    destruct (Z.eqb_spec (uint8 (get (x42 :: x4d :: x46 :: l) 3)) 3); done.
Qed.

(** C10 (amended).  A buffer shorter than 4 bytes whose bytes are the
    beginning of the identifier [B], [M], [F] (the empty buffer included)
    makes the checks index a byte that is not there, and the call panics
    instead of returning an error.  A buffer shorter than 4 bytes in which a
    byte differs from the identifier is read no further than that byte: the
    call then panics in slicing [b[:3]] when the capacity is below 3, and
    returns the invalid-identifier error otherwise.  For a buffer of exactly
    4 bytes with the right identifier and a version byte other than 3,
    building the version error reads [b[4]], out of bounds, and the call
    panics. *)
Theorem short_buffer Enc f b :
  (len b < 4 -> elems b = take (length (elems b)) magic ->
   Font.FromBuffer Enc f b = Some Panic) /\
  (len b < 4 -> elems b <> take (length (elems b)) magic -> cap b < 3 ->
   Font.FromBuffer Enc f b = Some Panic) /\
  (len b < 4 -> elems b <> take (length (elems b)) magic -> 3 <= cap b ->
   Font.FromBuffer Enc f b =
     Some (Value (f, Some (InvalidIdentifier (take 3 (backing b)))))) /\
  (len b = 4 -> take 3 (elems b) = magic -> uint8 (get (elems b) 3) <> 3 ->
   Font.FromBuffer Enc f b = Some Panic).
Proof.
  assert (Hbad : 3 <= cap b ->
    (magic <- reslice b 0 3 ;; Value (f, Some (InvalidIdentifier (elems magic)))) =
    Value (f, Some (InvalidIdentifier (take 3 (backing b))))).
  { intros Hc. rewrite reslice_in by lia. cbn [bind elems]. unfold window. by rewrite drop_0. }
  assert (Hbad' : cap b < 3 ->
    (magic <- reslice b 0 3 ;; Value (f, Some (InvalidIdentifier (elems magic)))) = Panic).
  { intros Hc. by rewrite reslice_out by lia. }
  assert (Hshort : len b < 4 ->
    (elems b = take (length (elems b)) magic -> Font.FromBuffer Enc f b = Some Panic) /\
    (elems b <> take (length (elems b)) magic ->
     Font.FromBuffer Enc f b =
       Some (magic <- reslice b 0 3 ;; Value (f, Some (InvalidIdentifier (elems magic)))))).
  { intros Hb. unfold Font.FromBuffer. rewrite magic_check.
    rewrite (index_out b 3) by lia.
    destruct (elems b) as [|b0 [|b1 [|b2 [|b3 l]]]] eqn:He;
      try (unfold len in Hb; rewrite He in Hb; simpl in Hb; lia).
    all: split; [intros Hm; simpl in Hm; simplify_eq; done|].
    all: intros Hm; byte_cases; bytes_known; done. }
  split_and!.
  - intros Hb. by apply Hshort.
  - intros Hb Hm Hc. rewrite (proj2 (Hshort Hb) Hm). by rewrite Hbad'.
  - intros Hb Hm Hc. rewrite (proj2 (Hshort Hb) Hm). by rewrite Hbad.
  - intros Hb Hm Hv. unfold Font.FromBuffer. rewrite magic_check.
    rewrite (index_in b 3), (index_out b 4) by lia. cbn [bind].
    destruct (elems b) as [|b0 [|b1 [|b2 l]]] eqn:He; try done.
    simpl in Hm. injection Hm as -> -> ->. cbn.
    destruct (Z.eqb_spec (uint8 (get (x42 :: x4d :: x46 :: l) 3)) 3); done.
Qed.

(** C3.  A Pages block whose payload lies in the stream hands its entire
    payload to the transcoder.  When the transcoder succeeds, the text it
    produced is split on the NUL byte, the pieces are kept in order and the
    last piece is dropped, and these are the pages of the font; when the
    text ends with a NUL, the piece dropped is the empty one that this
    trailing NUL produces, and when the text is a sequence of names, each
    followed by a NUL, the pages are exactly those names in order.  When the
    transcoder fails, the block stores no pages and the decode ends with the
    pages-text error.  With the default encoding this happens on a payload
    that converts: five bytes 0x80 and a NUL are the text of one name of
    five euro signs and its terminator, sixteen bytes; the buffer of the
    source has fifteen, the transcoder reports the short buffer, and the
    decode returns the error with no page where the pages should be that one
    name. *)
Theorem pages_block :
  (forall Enc f fb dst nDst nSrc,
      4 < len fb -> uint8 (tag fb) = 3 ->
      5 + declared fb <= len fb -> 5 + declared fb < 2 ^ 32 ->
      encoding.Transform (encoding.NewDecoder Enc)
        (replicate (Z.to_nat (uint32 (declared fb * 5) `quot` 2)) x00)
        (window (elems fb) 5 (5 + declared fb)) false = (dst, nDst, nSrc, None) ->
      0 <= nDst <= Z.of_nat (length dst) ->
      Font.block Enc f fb =
        Value (Font.Continue
                 (Font.mk (Font.Info f) (Font.Common f)
                    (take (length (strings.Split (take (Z.to_nat nDst) dst) x00) - 1)
                          (strings.Split (take (Z.to_nat nDst) dst) x00))
                    (Font.Chars f) (Font.KerningPairs f))
                 (Slice (drop (Z.to_nat (5 + declared fb)) (elems fb)) (spare fb))) /\
      (forall text,
          take (Z.to_nat nDst) dst = text ++ [x00] ->
          strings.Split (take (Z.to_nat nDst) dst) x00 = strings.Split text x00 ++ [[]] /\
          take (length (strings.Split (take (Z.to_nat nDst) dst) x00) - 1)
               (strings.Split (take (Z.to_nat nDst) dst) x00) = strings.Split text x00) /\
      (forall names,
          Forall (fun name => x00 ∉ name) names ->
          take (Z.to_nat nDst) dst = concat (map (fun name => name ++ [x00]) names) ->
          take (length (strings.Split (take (Z.to_nat nDst) dst) x00) - 1)
               (strings.Split (take (Z.to_nat nDst) dst) x00) = names)) /\
  (forall Enc f fb dst nDst nSrc err,
      4 < len fb -> uint8 (tag fb) = 3 ->
      5 + declared fb <= len fb -> 5 + declared fb < 2 ^ 32 ->
      encoding.Transform (encoding.NewDecoder Enc)
        (replicate (Z.to_nat (uint32 (declared fb * 5) `quot` 2)) x00)
        (window (elems fb) 5 (5 + declared fb)) false = (dst, nDst, nSrc, Some err) ->
      Font.block Enc f fb = Value (Font.Return f PagesTextError)) /\
  flat_map (charmap.image charmap.windows1252) [x80; x80; x80; x80; x80; x00]
    = concat (map (fun name => name ++ [x00]) [euro_name]) /\
  Forall (fun name => x00 ∉ name) [euro_name] /\
  (exists dst nDst nSrc,
      encoding.Transform (encoding.NewDecoder Encoding)
        (replicate (Z.to_nat (uint32 (declared (bytes euro_pages_block) * 5) `quot` 2)) x00)
        (window (elems (bytes euro_pages_block)) 5 (5 + declared (bytes euro_pages_block)))
        false = (dst, nDst, nSrc, Some ErrShortDst)) /\
  Font.block Encoding NewFont (bytes euro_pages_block)
    = Value (Font.Return NewFont PagesTextError) /\
  NewFontFromBuf Encoding (bytes (header ++ euro_pages_block))
    = Some (Value (NewFont, Some PagesTextError)).
Proof.
  split_and!.
  - intros Enc f fb dst nDst nSrc Hfb Htag Hle Hw Ht Hn.
    pose proof (len_le_cap fb). pose proof (declared_range fb).
    split_and!.
    + destruct (block_in_cap Enc f fb) as (blockData & Hlen & Helems & ->); [lia..|].
      unfold backing in Helems. rewrite window_app_l in Helems by (unfold len in *; lia).
      rewrite <- Helems in Ht.
      rewrite (switch_pages _ _ _ _ _ _ _ _ Htag Ht Hn). cbn [bind].
      by rewrite reslice_from_in by lia.
    + intros text ->. rewrite Split_snoc. split; [done|].
      rewrite length_app. simpl. apply take_app_length'. lia.
    + intros names Hnames ->. rewrite Split_terminated by done.
      rewrite length_app. simpl. apply take_app_length'. lia.
  - intros Enc f fb dst nDst nSrc err Hfb Htag Hle Hw Ht.
    pose proof (len_le_cap fb). pose proof (declared_range fb).
    destruct (block_in_cap Enc f fb) as (blockData & Hlen & Helems & ->); [lia..|].
    unfold backing in Helems. rewrite window_app_l in Helems by (unfold len in *; lia).
    rewrite <- Helems in Ht.
    assert (Hs : Font.switch Enc f (tag fb) (declared fb) blockData
                 = Value (f, Some PagesTextError)).
    { revert Htag. switch_case. intros _. rewrite make_nonneg.
      - cbn [bind elems]. by rewrite Ht.
      - apply Z.quot_pos; [|lia]. unfold uint32. apply Z.mod_pos_bound. lia. }
    by rewrite Hs.
  - by vm_compute.
  - constructor; [|constructor]. intros Hin. apply list_elem_of_In in Hin.
    vm_compute in Hin. intuition discriminate.
  - by eexists _, _, _; vm_compute.
  - by vm_compute.
  - by vm_compute.
Qed.

(** C7.  The buffer of 2.5 times the input length is not always sufficient.
    The Windows-1252 decoder converts every byte, to at most three bytes
    each; it fails only when the output does not fit in the buffer it is
    given, and then with [ErrShortDst].  So the Info decoder, on a payload of
    14 bytes or more, and the Pages case of the switch succeed when the
    converted text fits in the buffer of the source, and fail with the
    font-name error and the pages-text error when it does not, although the
    input converts.  This happens for a font name that is the single byte
    0x80 (one byte in, a buffer of two bytes, three bytes out), and for a
    Pages payload of five bytes 0x80 and a NUL (six bytes in, a buffer of
    fifteen, sixteen out). *)
Theorem transcoding_buffer_too_small :
  (forall src,
      (length (flat_map (charmap.image charmap.windows1252) src) <= 3 * length src)%nat) /\
  (forall dst src atEOF,
      ((length (flat_map (charmap.image charmap.windows1252) src) <= length dst)%nat ->
       exists dst' nSrc,
         encoding.Transform (encoding.NewDecoder Encoding) dst src atEOF =
           (dst', Z.of_nat (length (flat_map (charmap.image charmap.windows1252) src)),
            nSrc, None)) /\
      ((length dst < length (flat_map (charmap.image charmap.windows1252) src))%nat ->
       exists dst' nDst nSrc,
         encoding.Transform (encoding.NewDecoder Encoding) dst src atEOF =
           (dst', nDst, nSrc, Some ErrShortDst))) /\
  (forall i b,
      14 <= len b ->
      (Z.of_nat (length (flat_map (charmap.image charmap.windows1252) (drop 14 (elems b))))
         <= ((len b - 14) * 5) `quot` 2 ->
       Info.fromBinary Encoding i b =
         Value (Info_of (elems b)
                  (flat_map (charmap.image charmap.windows1252) (drop 14 (elems b))),
                None)) /\
      (((len b - 14) * 5) `quot` 2
         < Z.of_nat (length (flat_map (charmap.image charmap.windows1252) (drop 14 (elems b)))) ->
       Info.fromBinary Encoding i b =
         Value (Info_of (elems b) (Info.FontName i), Some (InfoFontNameError ErrShortDst)))) /\
  (forall f blockId blockLenght blockData,
      uint8 blockId = 3 ->
      (Z.of_nat (length (flat_map (charmap.image charmap.windows1252) (elems blockData)))
         <= uint32 (blockLenght * 5) `quot` 2 ->
       Font.switch Encoding f blockId blockLenght blockData =
         Value (Font.mk (Font.Info f) (Font.Common f)
                  (take (length (strings.Split
                                   (flat_map (charmap.image charmap.windows1252)
                                             (elems blockData)) x00) - 1)
                        (strings.Split
                           (flat_map (charmap.image charmap.windows1252) (elems blockData))
                           x00))
                  (Font.Chars f) (Font.KerningPairs f), None)) /\
      (uint32 (blockLenght * 5) `quot` 2
         < Z.of_nat (length (flat_map (charmap.image charmap.windows1252) (elems blockData))) ->
       Font.switch Encoding f blockId blockLenght blockData =
         Value (f, Some PagesTextError))) /\
  Info.fromBinary Encoding Info.zero (bytes euro_info_payload) =
    Value (Info.zero, Some (InfoFontNameError ErrShortDst)) /\
  NewFontFromBuf Encoding (bytes euro_info_input) =
    Some (Value (Font.mk (Some Info.zero) None [] [] [],
                 Some (InfoBlockError (InfoFontNameError ErrShortDst)))) /\
  NewFontFromBuf Encoding (bytes euro_pages_input) =
    Some (Value (NewFont, Some PagesTextError)).
Proof.
  split_and!; [| | | |by vm_compute..].
  - induction src as [|c src IH]; [done|].
    change (flat_map (charmap.image charmap.windows1252) (c :: src))
      with (charmap.image charmap.windows1252 c
              ++ flat_map (charmap.image charmap.windows1252) src).
    rewrite length_app. pose proof (length_image_windows1252 c). simpl length in *. lia.
  - intros dst src atEOF. split.
    + intros Hfit.
      destruct (transform_loop_fits charmap.windows1252 src dst 0 0 0)
        as (dst' & nSrc' & _ & Heq); [lia..|].
      exists dst', nSrc'. exact Heq.
    + intros Hshort.
      apply (transform_loop_short charmap.windows1252 src dst 0 0 0); lia.
  - intros i b Hb. by apply Info_fromBinary_windows1252.
  - intros f blockId blockLenght blockData Hid.
    by apply switch_pages_windows1252.
Qed.

(** C2.  A kerning record of ten bytes decodes to the little-endian numbers
    of its bytes 0 to 3 and 4 to 7 as glyph identifiers, and to the
    little-endian number of its bytes 8 and 9 as amount: a number from 0 to
    65535, not the two's complement reading of the 16 bits.  The bytes 0xFF
    0xFF give the amount 65535, where the signed reading is -1. *)
Theorem kerning_amount_unsigned :
  (forall kp b0 b1 b2 b3 b4 b5 b6 b7 b8 b9 sp,
      KerningPair.fromBinary kp (Slice [b0; b1; b2; b3; b4; b5; b6; b7; b8; b9] sp) =
        Value (KerningPair.mk (little_endian [b0; b1; b2; b3])
                              (little_endian [b4; b5; b6; b7])
                              (little_endian [b8; b9]), None) /\
      0 <= little_endian [b8; b9] < 65536) /\
  KerningPair.fromBinary KerningPair.zero (bytes kerning_ff_record) =
    Value (KerningPair.mk 0 0 65535, None) /\
  int16 65535 = -1.
Proof.
  split_and!; [|by vm_compute..].
  intros kp b0 b1 b2 b3 b4 b5 b6 b7 b8 b9 sp. split.
  - rewrite KerningPair_fromBinary_ok by (by vm_compute).
    unfold KerningPair_of. rewrite !u32_le, u16_le. done.
  - pose proof (u16_range [b8; b9] 0) as Hr. rewrite u16_le in Hr. exact Hr.
Qed.

Ltac fields :=
  split_and!; intros; simpl; try done; try lia; try (split; [done|by eexists]).

(** One case of the switch on two fonts: the outcome and the field that the
    case writes are the same, and every other field is left as it was. *)
Lemma switch_replaces Enc f g blockId blockLenght blockData :
  match Font.switch Enc f blockId blockLenght blockData,
        Font.switch Enc g blockId blockLenght blockData with
  | Value (f', e), Value (g', e') =>
      e = e' /\
      (uint8 blockId = 1 -> Font.Info f' = Font.Info g' /\ is_Some (Font.Info f')) /\
      (uint8 blockId = 2 -> Font.Common f' = Font.Common g' /\ is_Some (Font.Common f')) /\
      (uint8 blockId = 3 -> e = None -> Font.Pages f' = Font.Pages g') /\
      (uint8 blockId = 4 -> Font.Chars f' = Font.Chars g') /\
      (uint8 blockId = 5 -> Font.KerningPairs f' = Font.KerningPairs g') /\
      (uint8 blockId <> 1 -> Font.Info f' = Font.Info f) /\
      (uint8 blockId <> 2 -> Font.Common f' = Font.Common f) /\
      (uint8 blockId <> 3 -> Font.Pages f' = Font.Pages f) /\
      (uint8 blockId <> 4 -> Font.Chars f' = Font.Chars f) /\
      (uint8 blockId <> 5 -> Font.KerningPairs f' = Font.KerningPairs f)
  | Panic, Panic => True
  | _, _ => False
  end.
Proof.
  switch_case.
  - destruct (Info.fromBinary _ _ _) as [[i [err|]]|]; cbn [bind]; [| |done]; fields.
  - destruct (Common.fromBinary _ _) as [[c [err|]]|]; cbn [bind]; [| |done]; fields.
  - destruct (make _) as [fontBuf|]; cbn [bind]; [|done].
    destruct (encoding.Transform _ _ _ _) as [[[dst nDst] nSrc] [err|]]; [fields|].
    destruct (reslice _ _ _); cbn [bind]; [|done].
    destruct (_ <? 0); [done|]. fields.
  - destruct (Font.chars_loop _ _ _) as [[chars err]|]; cbn [bind]; [|done]. fields.
  - destruct (Font.kerning_loop _ _ _) as [[pairs err]|]; cbn [bind]; [|done]. fields.
  - fields.
Qed.

(** What a pass of the loop over a block with another tag than [k] leaves
    in the field of [k]. *)
Lemma block_same_field Enc k f fb :
  4 < len fb -> uint8 (tag fb) <> k ->
  match Font.block Enc f fb with
  | Value (Font.Continue f1 _) => same_field k f1 f
  | Value (Font.Return f1 _) => same_field k f1 f
  | Panic => True
  end.
Proof.
  intros Hfb Hk. rewrite block_unfold by done.
  destruct (reslice _ _ _) as [d|]; cbn [bind]; [|done].
  pose proof (switch_replaces Enc f f (tag fb) (declared fb) d) as H.
  assert (Hsame : forall f1 oe,
    Font.switch Enc f (tag fb) (declared fb) d = Value (f1, oe) -> same_field k f1 f).
  { intros f1 oe Hs. rewrite Hs in H.
    destruct H as (_ & _ & _ & _ & _ & _ & H1 & H2 & H3 & H4 & H5).
    unfold same_field. split_and!; intros ->; auto. }
  destruct (Font.switch _ _ _ _ _) as [[f1 [e1|]]|]; cbn [bind]; [| |done].
  - by eapply Hsame.
  - destruct (reslice_from _ _); cbn [bind]; [|done]. by eapply Hsame.
Qed.

Lemma loop_same_field Enc k : forall fuel f fb f' oe,
  Font.loop Enc fuel f fb = Some (Value (f', oe)) ->
  (forall f2 fb2, reaches Enc f fb f2 fb2 -> 4 < len fb2 -> uint8 (tag fb2) <> k) ->
  same_field k f' f.
Proof.
  assert (Hrefl : forall f, same_field k f f) by (intros f; unfold same_field; done).
  induction fuel as [|fuel IH]; intros f fb f' oe Hl Hnone.
  - destruct (Z.le_gt_cases (len fb) 4).
    + rewrite loop_stops in Hl by done. by injection Hl as <- _.
    + simpl in Hl. by destruct (Z.ltb_spec 4 (len fb)); try lia.
  - destruct (Z.le_gt_cases (len fb) 4) as [Hs|Hs].
    + rewrite loop_stops in Hl by done. by injection Hl as <- _.
    + rewrite loop_pass in Hl by done.
      pose proof (block_same_field Enc k f fb Hs (Hnone f fb (reaches_here _ _ _) Hs)) as Hb.
      destruct (Font.block Enc f fb) as [[f1 fb1|f1 e1]|] eqn:Hblock; [| |done].
      * assert (Hrest : same_field k f' f1).
        { apply (IH _ _ _ _ Hl). intros f2 fb2 Hr. apply (Hnone f2 fb2).
          by apply (reaches_pass _ _ _ f1 fb1). }
        destruct Hb as (B1 & B2 & B3 & B4 & B5), Hrest as (R1 & R2 & R3 & R4 & R5).
        unfold same_field. split_and!; intros Hk; [rewrite R1, B1|rewrite R2, B2|
          rewrite R3, B3|rewrite R4, B4|rewrite R5, B5]; done.
      * by injection Hl as <- _.
Qed.

(** A block that is decoded without error into one font is decoded without
    error into any other, and writes the same. *)
Lemma block_replaces Enc f g fb f1 fb1 :
  4 < len fb -> Font.block Enc f fb = Value (Font.Continue f1 fb1) ->
  exists g1, Font.block Enc g fb = Value (Font.Continue g1 fb1) /\
             same_field (uint8 (tag fb)) f1 g1.
Proof.
  intros Hfb. rewrite !block_unfold by done.
  destruct (reslice _ _ _) as [d|]; cbn [bind]; [|done].
  pose proof (switch_replaces Enc f g (tag fb) (declared fb) d) as H.
  destruct (Font.switch Enc f _ _ _) as [[f' [e|]]|]; cbn [bind]; [done| |done].
  destruct (Font.switch Enc g _ _ _) as [[g' e']|]; [|done].
  destruct H as (<- & H1 & H2 & H3 & H4 & H5 & _). cbn [bind].
  destruct (reslice_from _ _) as [fb'|]; cbn [bind]; [|done].
  intros [= <- <-]. exists g'. split; [done|].
  unfold same_field. split_and!; intros Hk; [by apply H1|by apply H2|by apply H3|
    by apply H4|by apply H5].
Qed.

(** C4 (amended).  A block replaces what the earlier blocks of its kind
    have stored, it does not append to it.  In one pass, the field that a
    block writes depends on the block alone and not on the font it is
    decoded into, the Info and Common slots are allocated anew at every Info
    or Common block, and every other field is left as it was.  Over the
    whole decode: when the loop comes to a block of the tag [k], decodes it
    without error, and comes to no further block of that tag, the font that
    the decode returns, with or without an error of a later block, holds in
    the field of [k] what this block alone gives, whatever font it is
    decoded into: the records of the last block of its kind only. *)
Theorem later_block_replaces Enc :
  (forall f g blockId blockLenght blockData,
      match Font.switch Enc f blockId blockLenght blockData,
            Font.switch Enc g blockId blockLenght blockData with
      | Value (f', e), Value (g', e') =>
          e = e' /\
          (uint8 blockId = 1 -> Font.Info f' = Font.Info g' /\ is_Some (Font.Info f')) /\
          (uint8 blockId = 2 -> Font.Common f' = Font.Common g' /\ is_Some (Font.Common f')) /\
          (uint8 blockId = 3 -> e = None -> Font.Pages f' = Font.Pages g') /\
          (uint8 blockId = 4 -> Font.Chars f' = Font.Chars g') /\
          (uint8 blockId = 5 -> Font.KerningPairs f' = Font.KerningPairs g') /\
          (uint8 blockId <> 1 -> Font.Info f' = Font.Info f) /\
          (uint8 blockId <> 2 -> Font.Common f' = Font.Common f) /\
          (uint8 blockId <> 3 -> Font.Pages f' = Font.Pages f) /\
          (uint8 blockId <> 4 -> Font.Chars f' = Font.Chars f) /\
          (uint8 blockId <> 5 -> Font.KerningPairs f' = Font.KerningPairs f)
      | Panic, Panic => True
      | _, _ => False
      end) /\
  (forall g b f fb f1 fb1 f' oe,
      take 4 (elems b) = header ->
      reaches Enc g (after_header b) f fb -> 4 < len fb ->
      Font.block Enc f fb = Value (Font.Continue f1 fb1) ->
      (forall f2 fb2,
          reaches Enc f1 fb1 f2 fb2 -> 4 < len fb2 -> uint8 (tag fb2) <> uint8 (tag fb)) ->
      Font.FromBuffer Enc g b = Some (Value (f', oe)) ->
      forall g0, exists g1,
        Font.block Enc g0 fb = Value (Font.Continue g1 fb1) /\
        same_field (uint8 (tag fb)) f' g1).
Proof.
  split.
  { intros f g blockId blockLenght blockData. apply switch_replaces. }
  intros g b f fb f1 fb1 f' oe Hh Hr Hfb Hb Hlast Hdec g0.
  destruct (block_replaces Enc f g0 fb f1 fb1 Hfb Hb) as (g1 & Hg & Hsame).
  exists g1. split; [done|].
  rewrite (FromBuffer_reaches _ _ _ _ _ Hh Hr Hfb), Hb in Hdec.
  pose proof (loop_same_field _ _ _ _ _ _ _ Hdec Hlast) as Hkept.
  destruct Hkept as (K1 & K2 & K3 & K4 & K5), Hsame as (S1 & S2 & S3 & S4 & S5).
  unfold same_field. split_and!; intros Hk; [rewrite K1, S1|rewrite K2, S2|
    rewrite K3, S3|rewrite K4, S4|rewrite K5, S5]; done.
Qed.

(** ** The claims that do not hold, at concrete inputs *)

(** C1, as stated, fails: the Chars block of this input declares 40 bytes
    where 20 are left, and the decode panics; no error is returned. *)
Lemma truncated_block_counterexample :
  declared (after_header (bytes truncated_chars_input)) = 40 /\
  len (after_header (bytes truncated_chars_input)) = 25 /\
  NewFontFromBuf Encoding (bytes truncated_chars_input) = Some Panic.
Proof. by vm_compute. Qed.

(** C4, as stated, fails: of two Chars blocks the font keeps the record of
    the second only. *)
Lemma chars_blocks_counterexample :
  NewFontFromBuf Encoding (bytes (header ++ first_chars_block)) =
    Some (Value (Font.mk None None [] [Char.mk 1 0 0 0 0 0 0 0 x00 x00] [], None)) /\
  NewFontFromBuf Encoding (bytes (header ++ second_chars_block)) =
    Some (Value (Font.mk None None [] [Char.mk 2 0 0 0 0 0 0 0 x00 x00] [], None)) /\
  NewFontFromBuf Encoding (bytes two_chars_blocks) =
    Some (Value (Font.mk None None [] [Char.mk 2 0 0 0 0 0 0 0 x00 x00] [], None)).
Proof. by vm_compute. Qed.

(** C10, as stated, fails: the buffer [X], [Y], [Z] is shorter than 4 bytes,
    and the decode returns the invalid-identifier error without a panic. *)
Lemma three_byte_buffer_counterexample :
  len (bytes [x58; x59; x5a]) = 3 /\
  NewFontFromBuf Encoding (bytes [x58; x59; x5a]) =
    Some (Value (NewFont, Some (InvalidIdentifier [x58; x59; x5a]))).
Proof. by vm_compute. Qed.

(** The end-to-end example: a Common block of fifteen zero bytes and a
    Chars block of two zero records. *)
Example end_to_end :
  NewFontFromBuf Encoding
    (bytes (header ++ blk x02 (replicate 15 x00) ++ blk x04 (replicate 40 x00))) =
  Some (Value (Font.mk None (Some Common.zero) [] [Char.zero; Char.zero] [], None)).
Proof. by vm_compute. Qed.

(** A Pages block that fails to transcode stores nothing: the decode ends
    there with the pages of the block before it. *)
Example failed_pages_block_keeps_pages :
  NewFontFromBuf Encoding (bytes (header ++ pages_stream ++ euro_pages_block)) =
  Some (Value (two_pages_font, Some PagesTextError)).
Proof. by vm_compute. Qed.

(** ** The theorems at concrete inputs *)

(** C9 on the stream of an unknown block and a Common block, and on two
    stray bytes. *)
Lemma dispatch_loop_terminates_witness :
  (exists r, Font.loop Encoding 28 NewFont (bytes unknown_then_common) = Some r) /\
  4 < len (bytes unknown_then_common) /\
  Font.block Encoding NewFont (bytes unknown_then_common) =
    Value (Font.Continue NewFont (bytes (blk x02 (replicate 15 x00)))) /\
  (len (bytes (blk x02 (replicate 15 x00)))
     = len (bytes unknown_then_common) - (5 + declared (bytes unknown_then_common)) /\
   len (bytes (blk x02 (replicate 15 x00))) + 5 <= len (bytes unknown_then_common)) /\
  len (bytes [x00; x00]) < 5 /\
  Font.loop Encoding 0 NewFont (bytes [x00; x00]) = Some (Value (NewFont, None)) /\
  5 <= len (bytes unknown_then_common) /\
  Font.loop Encoding 1 NewFont (bytes unknown_then_common) =
    match Font.block Encoding NewFont (bytes unknown_then_common) with
    | Panic => Some Panic
    | Value (Font.Return f' err) => Some (Value (f', Some err))
    | Value (Font.Continue f' fb') => Font.loop Encoding 0 f' fb'
    end.
Proof.
  destruct (dispatch_loop_terminates Encoding) as (_ & Hfuel & Hpass & Hstop & Hgoes).
  assert (Hlen : 4 < len (bytes unknown_then_common)) by (by vm_compute).
  assert (Hb : Font.block Encoding NewFont (bytes unknown_then_common) =
               Value (Font.Continue NewFont (bytes (blk x02 (replicate 15 x00)))))
    by (by vm_compute).
  assert (Hshort : len (bytes [x00; x00]) < 5) by (by vm_compute).
  assert (Hlong : 5 <= len (bytes unknown_then_common)) by (by vm_compute).
  assert (Hall : (length (elems (bytes unknown_then_common)) <= 28)%nat) by (vm_compute; lia).
  destruct (Hfuel NewFont (bytes unknown_then_common)) as [r Hr].
  exact (conj (ex_intro _ r (Hr 28%nat Hall))
        (conj Hlen (conj Hb (conj (Hpass _ _ _ _ Hlen Hb)
        (conj Hshort (conj (Hstop 0%nat NewFont _ Hshort)
        (conj Hlong (Hgoes 0%nat NewFont _ Hlong)))))))).
Defined.

(** C8 on the unknown block with tag 99 and three bytes of payload, between
    two Common blocks. *)
Lemma unknown_block_skipped_witness :
  4 < len (bytes unknown_then_common) /\
  ~ 1 <= uint8 (tag (bytes unknown_then_common)) <= 5 /\
  5 + declared (bytes unknown_then_common) <= len (bytes unknown_then_common) /\
  5 + declared (bytes unknown_then_common) < 2 ^ 32 /\
  reaches Encoding NewFont
    (Slice (blk x02 (replicate 15 x00) ++ elems (bytes unknown_then_common))
           (spare (bytes unknown_then_common)))
    common_font (bytes unknown_then_common) /\
  Font.block Encoding common_font (bytes unknown_then_common) =
    Value (Font.Continue common_font
             (Slice (drop (Z.to_nat (5 + declared (bytes unknown_then_common)))
                          (elems (bytes unknown_then_common)))
                    (spare (bytes unknown_then_common)))) /\
  Font.FromBuffer Encoding NewFont
    (Slice (header ++ blk x02 (replicate 15 x00) ++ elems (bytes unknown_then_common))
           (spare (bytes unknown_then_common))) =
  Font.FromBuffer Encoding NewFont
    (Slice (header ++ blk x02 (replicate 15 x00)
              ++ drop (Z.to_nat (5 + declared (bytes unknown_then_common)))
                      (elems (bytes unknown_then_common)))
           (spare (bytes unknown_then_common))).
Proof.
  assert (H1 : 4 < len (bytes unknown_then_common)) by (by vm_compute).
  assert (H2 : ~ 1 <= uint8 (tag (bytes unknown_then_common)) <= 5).
  { replace (uint8 (tag (bytes unknown_then_common))) with 99 by (by vm_compute). lia. }
  assert (H3 : 5 + declared (bytes unknown_then_common) <= len (bytes unknown_then_common)).
  { replace (declared (bytes unknown_then_common)) with 3 by (by vm_compute).
    replace (len (bytes unknown_then_common)) with 28 by (by vm_compute). lia. }
  assert (H4 : 5 + declared (bytes unknown_then_common) < 2 ^ 32).
  { replace (declared (bytes unknown_then_common)) with 3 by (by vm_compute). lia. }
  assert (H5 : reaches Encoding NewFont
                 (Slice (blk x02 (replicate 15 x00) ++ elems (bytes unknown_then_common))
                        (spare (bytes unknown_then_common)))
                 common_font (bytes unknown_then_common)).
  { apply (reaches_pass _ _ _ common_font (bytes unknown_then_common));
      [by vm_compute|by vm_compute|apply reaches_here]. }
  pose proof (unknown_block_skipped Encoding common_font _ H1 H2 H3 H4) as (Hb & _ & _ & Heq).
  exact (conj H1 (conj H2 (conj H3 (conj H4 (conj H5 (conj Hb (Heq NewFont _ H5))))))).
Defined.

(** C5 on a Chars block of 40 bytes and a KerningPairs block of 10. *)
Lemma record_count_and_spans_witness :
  (4 < len (bytes chars_stream) /\
   5 + declared (bytes chars_stream) <= len (bytes chars_stream) /\
   5 + declared (bytes chars_stream) < 2 ^ 32 /\
   uint8 (tag (bytes chars_stream)) = 4 /\
   exists chars,
     Font.block Encoding NewFont (bytes chars_stream) =
       Value (Font.Continue
                (Font.mk (Font.Info NewFont) (Font.Common NewFont) (Font.Pages NewFont) chars
                   (Font.KerningPairs NewFont))
                (Slice (drop (Z.to_nat (5 + declared (bytes chars_stream)))
                             (elems (bytes chars_stream)))
                       (spare (bytes chars_stream)))) /\
     Z.of_nat (length chars) = declared (bytes chars_stream) / 20 /\
     forall i c, chars !! i = Some c ->
       length (records 20 (window (elems (bytes chars_stream)) 5
                             (5 + declared (bytes chars_stream))) i) = 20%nat /\
       Char.fromBinary Char.zero
         (bytes (records 20 (window (elems (bytes chars_stream)) 5
                               (5 + declared (bytes chars_stream))) i))
         = Value (c, None)) /\
  (4 < len (bytes kerning_stream) /\
   5 + declared (bytes kerning_stream) <= len (bytes kerning_stream) /\
   5 + declared (bytes kerning_stream) < 2 ^ 32 /\
   uint8 (tag (bytes kerning_stream)) = 5 /\
   exists pairs,
     Font.block Encoding NewFont (bytes kerning_stream) =
       Value (Font.Continue
                (Font.mk (Font.Info NewFont) (Font.Common NewFont) (Font.Pages NewFont)
                   (Font.Chars NewFont) pairs)
                (Slice (drop (Z.to_nat (5 + declared (bytes kerning_stream)))
                             (elems (bytes kerning_stream)))
                       (spare (bytes kerning_stream)))) /\
     Z.of_nat (length pairs) = declared (bytes kerning_stream) / 10 /\
     forall i kp, pairs !! i = Some kp ->
       length (records 10 (window (elems (bytes kerning_stream)) 5
                             (5 + declared (bytes kerning_stream))) i) = 10%nat /\
       KerningPair.fromBinary KerningPair.zero
         (bytes (records 10 (window (elems (bytes kerning_stream)) 5
                               (5 + declared (bytes kerning_stream))) i))
         = Value (kp, None)).
Proof.
  assert (Hd : declared (bytes chars_stream) = 40) by (by vm_compute).
  assert (Hl : len (bytes chars_stream) = 47) by (by vm_compute).
  assert (H1 : 4 < len (bytes chars_stream)) by lia.
  assert (H2 : 5 + declared (bytes chars_stream) <= len (bytes chars_stream)) by lia.
  assert (H3 : 5 + declared (bytes chars_stream) < 2 ^ 32) by lia.
  assert (H4 : uint8 (tag (bytes chars_stream)) = 4) by (by vm_compute).
  assert (Kd : declared (bytes kerning_stream) = 10) by (by vm_compute).
  assert (Kl : len (bytes kerning_stream) = 15) by (by vm_compute).
  assert (K1 : 4 < len (bytes kerning_stream)) by lia.
  assert (K2 : 5 + declared (bytes kerning_stream) <= len (bytes kerning_stream)) by lia.
  assert (K3 : 5 + declared (bytes kerning_stream) < 2 ^ 32) by lia.
  assert (K4 : uint8 (tag (bytes kerning_stream)) = 5) by (by vm_compute).
  exact (conj
           (conj H1 (conj H2 (conj H3 (conj H4
              (proj1 (record_count_and_spans Encoding NewFont _ H1 H2 H3) H4)))))
           (conj K1 (conj K2 (conj K3 (conj K4
              (proj2 (record_count_and_spans Encoding NewFont _ K1 K2 K3) K4)))))).
Defined.

(** C1 (amended) on a Chars block cut short after a complete Common block. *)
Lemma truncated_block_panics_witness :
  take 4 (elems (bytes truncated_after_common)) = header /\
  reaches Encoding NewFont (after_header (bytes truncated_after_common))
    common_font truncated_chars_stream /\
  4 < len truncated_chars_stream /\
  cap truncated_chars_stream < 5 + declared truncated_chars_stream /\
  Font.FromBuffer Encoding NewFont (bytes truncated_after_common) = Some Panic.
Proof.
  assert (H1 : take 4 (elems (bytes truncated_after_common)) = header) by (by vm_compute).
  assert (H2 : reaches Encoding NewFont (after_header (bytes truncated_after_common))
                 common_font truncated_chars_stream).
  { apply (reaches_pass _ _ _ common_font truncated_chars_stream);
      [by vm_compute|by vm_compute|apply reaches_here]. }
  assert (H3 : 4 < len truncated_chars_stream) by (by vm_compute).
  assert (H4 : cap truncated_chars_stream < 5 + declared truncated_chars_stream)
    by (by vm_compute).
  split_and!; [exact H1|exact H2|exact H3|exact H4|].
  exact (proj1 (truncated_block_panics Encoding _ _ _ _ H1 H2 H3) H4).
Defined.

(** C6 on a wrong identifier, on version 2 followed by a byte, and on
    version 2 at the end of the buffer. *)
Lemma header_checks_witness :
  (3 <= len (bytes [x58; x59; x5a; x03]) /\
   take 3 (elems (bytes [x58; x59; x5a; x03])) <> magic /\
   Font.FromBuffer Encoding NewFont (bytes [x58; x59; x5a; x03]) =
     Some (Value (NewFont, Some (InvalidIdentifier (take 3 (elems (bytes [x58; x59; x5a; x03]))))))) /\
  (5 <= len (bytes [x42; x4d; x46; x02; x07]) /\
   take 3 (elems (bytes [x42; x4d; x46; x02; x07])) = magic /\
   uint8 (get (elems (bytes [x42; x4d; x46; x02; x07])) 3) <> 3 /\
   Font.FromBuffer Encoding NewFont (bytes [x42; x4d; x46; x02; x07]) =
     Some (Value (NewFont,
                  Some (UnsupportedVersion (get (elems (bytes [x42; x4d; x46; x02; x07])) 4))))) /\
  (len (bytes [x42; x4d; x46; x02]) = 4 /\
   take 3 (elems (bytes [x42; x4d; x46; x02])) = magic /\
   uint8 (get (elems (bytes [x42; x4d; x46; x02])) 3) <> 3 /\
   Font.FromBuffer Encoding NewFont (bytes [x42; x4d; x46; x02]) = Some Panic).
Proof.
  assert (A1 : 3 <= len (bytes [x58; x59; x5a; x03])) by (by vm_compute).
  assert (A2 : take 3 (elems (bytes [x58; x59; x5a; x03])) <> magic) by (by vm_compute).
  assert (B1 : 5 <= len (bytes [x42; x4d; x46; x02; x07])) by (by vm_compute).
  assert (B2 : take 3 (elems (bytes [x42; x4d; x46; x02; x07])) = magic) by (by vm_compute).
  assert (B3 : uint8 (get (elems (bytes [x42; x4d; x46; x02; x07])) 3) <> 3) by (by vm_compute).
  assert (C1 : len (bytes [x42; x4d; x46; x02]) = 4) by (by vm_compute).
  assert (C2 : take 3 (elems (bytes [x42; x4d; x46; x02])) = magic) by (by vm_compute).
  assert (C3 : uint8 (get (elems (bytes [x42; x4d; x46; x02])) 3) <> 3) by (by vm_compute).
  exact (conj (conj A1 (conj A2 (proj1 (header_checks Encoding NewFont _) A1 A2)))
        (conj (conj B1 (conj B2 (conj B3
                 (proj1 (proj2 (header_checks Encoding NewFont _)) B1 B2 B3))))
              (conj C1 (conj C2 (conj C3
                 (proj2 (proj2 (header_checks Encoding NewFont _)) C1 C2 C3)))))).
Defined.

(** C10 (amended) on the buffers [B M], [X] without and with spare capacity,
    and [B M F 2]. *)
Lemma short_buffer_witness :
  (len (bytes [x42; x4d]) < 4 /\
   elems (bytes [x42; x4d]) = take (length (elems (bytes [x42; x4d]))) magic /\
   Font.FromBuffer Encoding NewFont (bytes [x42; x4d]) = Some Panic) /\
  (len (bytes [x58]) < 4 /\
   elems (bytes [x58]) <> take (length (elems (bytes [x58]))) magic /\
   cap (bytes [x58]) < 3 /\
   Font.FromBuffer Encoding NewFont (bytes [x58]) = Some Panic) /\
  (len (Slice [x58] [x00; x00]) < 4 /\
   elems (Slice [x58] [x00; x00]) <> take (length (elems (Slice [x58] [x00; x00]))) magic /\
   3 <= cap (Slice [x58] [x00; x00]) /\
   Font.FromBuffer Encoding NewFont (Slice [x58] [x00; x00]) =
     Some (Value (NewFont, Some (InvalidIdentifier (take 3 (backing (Slice [x58] [x00; x00]))))))) /\
  (len (bytes [x42; x4d; x46; x02]) = 4 /\
   take 3 (elems (bytes [x42; x4d; x46; x02])) = magic /\
   uint8 (get (elems (bytes [x42; x4d; x46; x02])) 3) <> 3 /\
   Font.FromBuffer Encoding NewFont (bytes [x42; x4d; x46; x02]) = Some Panic).
Proof.
  assert (A1 : len (bytes [x42; x4d]) < 4) by (by vm_compute).
  assert (A2 : elems (bytes [x42; x4d]) = take (length (elems (bytes [x42; x4d]))) magic)
    by (by vm_compute).
  assert (B1 : len (bytes [x58]) < 4) by (by vm_compute).
  assert (B2 : elems (bytes [x58]) <> take (length (elems (bytes [x58]))) magic)
    by (by vm_compute).
  assert (B3 : cap (bytes [x58]) < 3) by (by vm_compute).
  assert (C1 : len (Slice [x58] [x00; x00]) < 4) by (by vm_compute).
  assert (C2 : elems (Slice [x58] [x00; x00])
               <> take (length (elems (Slice [x58] [x00; x00]))) magic) by (by vm_compute).
  assert (C3 : 3 <= cap (Slice [x58] [x00; x00])) by (by vm_compute).
  assert (D1 : len (bytes [x42; x4d; x46; x02]) = 4) by (by vm_compute).
  assert (D2 : take 3 (elems (bytes [x42; x4d; x46; x02])) = magic) by (by vm_compute).
  assert (D3 : uint8 (get (elems (bytes [x42; x4d; x46; x02])) 3) <> 3) by (by vm_compute).
  pose proof (short_buffer Encoding NewFont (bytes [x42; x4d])) as (HA & _).
  pose proof (short_buffer Encoding NewFont (bytes [x58])) as (_ & HB & _).
  pose proof (short_buffer Encoding NewFont (Slice [x58] [x00; x00])) as (_ & _ & HC & _).
  pose proof (short_buffer Encoding NewFont (bytes [x42; x4d; x46; x02])) as (_ & _ & _ & HD).
  exact (conj (conj A1 (conj A2 (HA A1 A2)))
        (conj (conj B1 (conj B2 (conj B3 (HB B1 B2 B3))))
        (conj (conj C1 (conj C2 (conj C3 (HC C1 C2 C3))))
              (conj D1 (conj D2 (conj D3 (HD D1 D2 D3))))))).
Defined.

(** C3 on the Pages block with the names [a] and [b]. *)
Lemma pages_block_witness :
  4 < len (bytes pages_stream) /\
  uint8 (tag (bytes pages_stream)) = 3 /\
  5 + declared (bytes pages_stream) <= len (bytes pages_stream) /\
  5 + declared (bytes pages_stream) < 2 ^ 32 /\
  encoding.Transform (encoding.NewDecoder Encoding)
    (replicate (Z.to_nat (uint32 (declared (bytes pages_stream) * 5) `quot` 2)) x00)
    (window (elems (bytes pages_stream)) 5 (5 + declared (bytes pages_stream))) false
    = (pages_output, 4, 4, None) /\
  0 <= 4 <= Z.of_nat (length pages_output) /\
  Forall (fun name => x00 ∉ name) [[x61]; [x62]] /\
  take (Z.to_nat 4) pages_output = concat (map (fun name => name ++ [x00]) [[x61]; [x62]]) /\
  Font.block Encoding NewFont (bytes pages_stream) =
    Value (Font.Continue
             (Font.mk (Font.Info NewFont) (Font.Common NewFont)
                (take (length (strings.Split (take (Z.to_nat 4) pages_output) x00) - 1)
                      (strings.Split (take (Z.to_nat 4) pages_output) x00))
                (Font.Chars NewFont) (Font.KerningPairs NewFont))
             (Slice (drop (Z.to_nat (5 + declared (bytes pages_stream)))
                          (elems (bytes pages_stream)))
                    (spare (bytes pages_stream)))) /\
  take (length (strings.Split (take (Z.to_nat 4) pages_output) x00) - 1)
       (strings.Split (take (Z.to_nat 4) pages_output) x00) = [[x61]; [x62]].
Proof.
  assert (Hd : declared (bytes pages_stream) = 4) by (by vm_compute).
  assert (Hl : len (bytes pages_stream) = 9) by (by vm_compute).
  assert (H1 : 4 < len (bytes pages_stream)) by lia.
  assert (H2 : uint8 (tag (bytes pages_stream)) = 3) by (by vm_compute).
  assert (H3 : 5 + declared (bytes pages_stream) <= len (bytes pages_stream)) by lia.
  assert (H4 : 5 + declared (bytes pages_stream) < 2 ^ 32) by lia.
  assert (H5 : encoding.Transform (encoding.NewDecoder Encoding)
    (replicate (Z.to_nat (uint32 (declared (bytes pages_stream) * 5) `quot` 2)) x00)
    (window (elems (bytes pages_stream)) 5 (5 + declared (bytes pages_stream))) false
    = (pages_output, 4, 4, None)) by (by vm_compute).
  assert (H6 : 0 <= 4 <= Z.of_nat (length pages_output)) by (by vm_compute).
  assert (H7 : Forall (fun name => x00 ∉ name) [[x61]; [x62]]).
  { repeat constructor; intros Hin; apply list_elem_of_In in Hin; simpl in Hin;
      intuition discriminate. }
  assert (H8 : take (Z.to_nat 4) pages_output
               = concat (map (fun name => name ++ [x00]) [[x61]; [x62]])) by (by vm_compute).
  pose proof (proj1 pages_block Encoding NewFont _ _ _ _ H1 H2 H3 H4 H5 H6) as (Hb & _ & Hn).
  exact (conj H1 (conj H2 (conj H3 (conj H4 (conj H5 (conj H6 (conj H7 (conj H8
           (conj Hb (Hn _ H7 H8)))))))))).
Defined.

(** C4 (amended) on two Chars blocks: the decode returns the glyph of the
    second block, which is what the second block gives on the empty font. *)
Lemma later_block_replaces_witness :
  take 4 (elems (bytes two_chars_blocks)) = header /\
  reaches Encoding NewFont (after_header (bytes two_chars_blocks))
    (Font.mk None None [] [Char.mk 1 0 0 0 0 0 0 0 x00 x00] []) (bytes second_chars_block) /\
  4 < len (bytes second_chars_block) /\
  Font.block Encoding (Font.mk None None [] [Char.mk 1 0 0 0 0 0 0 0 x00 x00] [])
    (bytes second_chars_block) =
    Value (Font.Continue (Font.mk None None [] [Char.mk 2 0 0 0 0 0 0 0 x00 x00] [])
             (bytes [])) /\
  Font.FromBuffer Encoding NewFont (bytes two_chars_blocks) =
    Some (Value (Font.mk None None [] [Char.mk 2 0 0 0 0 0 0 0 x00 x00] [], None)) /\
  exists g1,
    Font.block Encoding NewFont (bytes second_chars_block) = Value (Font.Continue g1 (bytes [])) /\
    same_field (uint8 (tag (bytes second_chars_block)))
      (Font.mk None None [] [Char.mk 2 0 0 0 0 0 0 0 x00 x00] []) g1.
Proof.
  assert (Hh : take 4 (elems (bytes two_chars_blocks)) = header) by reflexivity.
  assert (Hr : reaches Encoding NewFont (after_header (bytes two_chars_blocks))
    (Font.mk None None [] [Char.mk 1 0 0 0 0 0 0 0 x00 x00] []) (bytes second_chars_block)).
  { apply (reaches_pass _ _ _ (Font.mk None None [] [Char.mk 1 0 0 0 0 0 0 0 x00 x00] [])
             (bytes second_chars_block)); [by vm_compute..|].
    apply reaches_here. }
  assert (Hfb : 4 < len (bytes second_chars_block)) by (by vm_compute).
  assert (Hb : Font.block Encoding (Font.mk None None [] [Char.mk 1 0 0 0 0 0 0 0 x00 x00] [])
    (bytes second_chars_block) =
    Value (Font.Continue (Font.mk None None [] [Char.mk 2 0 0 0 0 0 0 0 x00 x00] [])
             (bytes []))) by (by vm_compute).
  assert (Hlast : forall f2 fb2,
    reaches Encoding (Font.mk None None [] [Char.mk 2 0 0 0 0 0 0 0 x00 x00] []) (bytes [])
      f2 fb2 ->
    4 < len fb2 -> uint8 (tag fb2) <> uint8 (tag (bytes second_chars_block))).
  { intros f2 fb2 Hr2 Hlen. apply reaches_shorter in Hr2. unfold len in Hlen.
    simpl in Hr2. lia. }
  assert (Hdec : Font.FromBuffer Encoding NewFont (bytes two_chars_blocks) =
    Some (Value (Font.mk None None [] [Char.mk 2 0 0 0 0 0 0 0 x00 x00] [], None)))
    by (by vm_compute).
  exact (conj Hh (conj Hr (conj Hfb (conj Hb (conj Hdec
          (proj2 (later_block_replaces Encoding) _ _ _ _ _ _ _ _ Hh Hr Hfb Hb Hlast Hdec
             NewFont)))))).
Defined.

(** C7 on the font name that is one euro sign. *)
Lemma transcoding_buffer_too_small_witness :
  14 <= len (bytes euro_info_payload) /\
  ((len (bytes euro_info_payload) - 14) * 5) `quot` 2
    < Z.of_nat (length (flat_map (charmap.image charmap.windows1252)
                                 (drop 14 (elems (bytes euro_info_payload))))) /\
  Info.fromBinary Encoding Info.zero (bytes euro_info_payload) =
    Value (Info_of (elems (bytes euro_info_payload)) (Info.FontName Info.zero),
           Some (InfoFontNameError ErrShortDst)).
Proof.
  assert (H1 : 14 <= len (bytes euro_info_payload)) by (by vm_compute).
  assert (H2 : ((len (bytes euro_info_payload) - 14) * 5) `quot` 2
               < Z.of_nat (length (flat_map (charmap.image charmap.windows1252)
                                            (drop 14 (elems (bytes euro_info_payload))))))
    by (by vm_compute).
  destruct transcoding_buffer_too_small as (_ & _ & Hinfo & _).
  exact (conj H1 (conj H2 (proj2 (Hinfo Info.zero _ H1) H2))).
Defined.

(** * Further properties of the decoders *)

(** ** Signed fields *)

Lemma int16_signed x :
  0 <= x < 2 ^ 16 -> int16 x = if x <? 2 ^ 15 then x else x - 2 ^ 16.
Proof.
  intros Hx. unfold int16. destruct (Z.ltb_spec x (2 ^ 15)).
  - rewrite Z.mod_small by lia. lia.
  - replace (x + 2 ^ 15) with (x - 2 ^ 15 + 1 * 2 ^ 16) by lia.
    rewrite Z.mod_add by lia. rewrite Z.mod_small by lia. lia.
Qed.

Lemma int16_range x : - 2 ^ 15 <= int16 x < 2 ^ 15.
Proof. unfold int16. pose proof (Z.mod_pos_bound (x + 2 ^ 15) (2 ^ 16)). lia. Qed.

Lemma int16_inj x y : 0 <= x < 2 ^ 16 -> 0 <= y < 2 ^ 16 -> int16 x = int16 y -> x = y.
Proof.
  intros Hx Hy. rewrite !int16_signed by done.
  destruct (Z.ltb_spec x (2 ^ 15)), (Z.ltb_spec y (2 ^ 15)); lia.
Qed.

Lemma len_cons_app (l rest sp : list byte) n :
  Z.of_nat (length l) = n -> n <= len (Slice (l ++ rest) sp).
Proof. intros <-. unfold len. simpl. rewrite length_app. lia. Qed.

Lemma Common_fromBinary_panic c b : Common.fromBinary c b = Panic <-> len b < 15.
Proof.
  split.
  - intros Hp. destruct (Z.lt_ge_cases (len b) 15); [done|].
    by rewrite Common_fromBinary_ok in Hp.
  - apply Common_fromBinary_short.
Qed.

Lemma Char_fromBinary_panic c b : Char.fromBinary c b = Panic <-> len b < 20.
Proof.
  split.
  - intros Hp. destruct (Z.lt_ge_cases (len b) 20); [done|].
    by rewrite Char_fromBinary_ok in Hp.
  - apply Char_fromBinary_short.
Qed.

Lemma u16_inj l i l' j :
  u16 l i = u16 l' j -> get l i = get l' j /\ get l (i + 1) = get l' (j + 1).
Proof.
  rewrite !u16_le. unfold little_endian. intros H.
  pose proof (uint8_range (get l i)). pose proof (uint8_range (get l (i + 1))).
  pose proof (uint8_range (get l' j)). pose proof (uint8_range (get l' (j + 1))).
  split; apply uint8_inj; lia.
Qed.

Lemma u32_inj l i l' j :
  u32 l i = u32 l' j ->
  get l i = get l' j /\ get l (i + 1) = get l' (j + 1) /\
  get l (i + 2) = get l' (j + 2) /\ get l (i + 3) = get l' (j + 3).
Proof.
  rewrite !u32_le. unfold little_endian. intros H.
  pose proof (uint8_range (get l i)). pose proof (uint8_range (get l (i + 1))).
  pose proof (uint8_range (get l (i + 2))). pose proof (uint8_range (get l (i + 3))).
  pose proof (uint8_range (get l' j)). pose proof (uint8_range (get l' (j + 1))).
  pose proof (uint8_range (get l' (j + 2))). pose proof (uint8_range (get l' (j + 3))).
  split_and!; apply uint8_inj; lia.
Qed.

Lemma list_eq_get (l l' : list byte) n :
  Z.of_nat (length l) = n -> Z.of_nat (length l') = n ->
  (forall i, 0 <= i < n -> get l i = get l' i) -> l = l'.
Proof.
  intros Hl Hl' Hget. apply list_eq. intros i.
  destruct (decide (Z.of_nat i < n)) as [Hi|Hi].
  - destruct (lookup_lt_is_Some_2 l i) as [x Hx]; [lia|].
    destruct (lookup_lt_is_Some_2 l' i) as [y Hy]; [lia|].
    specialize (Hget (Z.of_nat i) ltac:(lia)). unfold get in Hget.
    rewrite Nat2Z.id, Hx, Hy in Hget. simpl in Hget. by rewrite Hx, Hy, Hget.
  - rewrite !lookup_ge_None_2 by lia. done.
Qed.

Lemma Char_of_inj l l' :
  Z.of_nat (length l) = 20 -> Z.of_nat (length l') = 20 -> Char_of l = Char_of l' -> l = l'.
Proof.
  intros Hl Hl' H. unfold Char_of in H.
  injection H as H0 H4 H6 H8 H10 H12 H14 H16 H18 H19.
  apply int16_inj in H12, H14, H16; try apply u16_range.
  apply u32_inj in H0 as (?&?&?&?).
  apply u16_inj in H4 as (?&?), H6 as (?&?), H8 as (?&?), H10 as (?&?),
    H12 as (?&?), H14 as (?&?), H16 as (?&?).
  simpl in *.
  apply (list_eq_get l l' 20); [done..|]. intros i Hi.
  assert (i = 0 \/ i = 1 \/ i = 2 \/ i = 3 \/ i = 4 \/ i = 5 \/ i = 6 \/ i = 7 \/ i = 8 \/
          i = 9 \/ i = 10 \/ i = 11 \/ i = 12 \/ i = 13 \/ i = 14 \/ i = 15 \/ i = 16 \/
          i = 17 \/ i = 18 \/ i = 19) as Hcases by lia.
  repeat (destruct Hcases as [->|Hcases]; [done|]). by subst i.
Qed.

Lemma KerningPair_of_inj l l' :
  Z.of_nat (length l) = 10 -> Z.of_nat (length l') = 10 ->
  KerningPair_of l = KerningPair_of l' -> l = l'.
Proof.
  intros Hl Hl' H. unfold KerningPair_of in H. injection H as H0 H4 H8.
  apply u32_inj in H0 as (?&?&?&?), H4 as (?&?&?&?). apply u16_inj in H8 as (?&?).
  simpl in *.
  apply (list_eq_get l l' 10); [done..|]. intros i Hi.
  assert (i = 0 \/ i = 1 \/ i = 2 \/ i = 3 \/ i = 4 \/ i = 5 \/ i = 6 \/ i = 7 \/ i = 8 \/
          i = 9) as Hcases by lia.
  repeat (destruct Hcases as [->|Hcases]; [done|]). by subst i.
Qed.

Lemma Common_of_inj l l' :
  Z.of_nat (length l) = 15 -> Z.of_nat (length l') = 15 ->
  Common_of l = Common_of l' -> l = l'.
Proof.
  intros Hl Hl' H. unfold Common_of in H.
  injection H as H0 H2 H4 H6 H8 H10 H11 H12 H13 H14.
  apply u16_inj in H0 as (?&?), H2 as (?&?), H4 as (?&?), H6 as (?&?), H8 as (?&?).
  simpl in *.
  apply (list_eq_get l l' 15); [done..|]. intros i Hi.
  assert (i = 0 \/ i = 1 \/ i = 2 \/ i = 3 \/ i = 4 \/ i = 5 \/ i = 6 \/ i = 7 \/ i = 8 \/
          i = 9 \/ i = 10 \/ i = 11 \/ i = 12 \/ i = 13 \/ i = 14) as Hcases by lia.
  repeat (destruct Hcases as [->|Hcases]; [done|]). by subst i.
Qed.

Lemma KerningPair_fromBinary_cap kp b :
  10 <= cap b -> KerningPair.fromBinary kp b = Value (KerningPair_of (backing b), None).
Proof.
  intros Hc. unfold KerningPair.fromBinary.
  rewrite (reslice_in b 0 4), (reslice_in b 4 8), (reslice_in b 8 10) by lia.
  cbn [bind].
  rewrite (Uint32_window (backing b) _ 0), (Uint32_window (backing b) _ 4),
    (Uint16_window (backing b) _ 8) by (unfold cap in Hc; lia).
  done.
Qed.

Lemma KerningPair_fromBinary_panic kp b : KerningPair.fromBinary kp b = Panic <-> cap b < 10.
Proof.
  split.
  - intros Hp. destruct (Z.lt_ge_cases (cap b) 10); [done|].
    by rewrite KerningPair_fromBinary_cap in Hp.
  - intros Hc. unfold KerningPair.fromBinary. rewrite (reslice_out b 8 10) by lia. panics.
Qed.

Lemma KerningPair_of_take l : KerningPair_of (take 10 l) = KerningPair_of l.
Proof.
  unfold KerningPair_of, u32, u16. by rewrite !get_take by lia.
Qed.

(** ** The fixed-size records *)

(** X1.  [Common.fromBinary] panics exactly when the slice has fewer than
    15 bytes and never returns an error.  On 15 bytes or more it reads the
    five 16-bit fields little-endian from bytes 0 to 9 and the five
    one-byte fields from bytes 10 to 14, whatever the receiver held before
    and whatever follows the 15 bytes. *)
Theorem Common_fromBinary_exact c :
  (forall b, Common.fromBinary c b = Panic <-> len b < 15) /\
  (forall b r e, Common.fromBinary c b <> Value (r, Some e)) /\
  (forall b0 b1 b2 b3 b4 b5 b6 b7 b8 b9 b10 b11 b12 b13 b14 rest sp,
      Common.fromBinary c
        (Slice ([b0; b1; b2; b3; b4; b5; b6; b7; b8; b9; b10; b11; b12; b13; b14] ++ rest) sp) =
      Value (Common.mk (little_endian [b0; b1]) (little_endian [b2; b3])
               (little_endian [b4; b5]) (little_endian [b6; b7]) (little_endian [b8; b9])
               b10 b11 b12 b13 b14, None)).
Proof.
  split_and!.
  - intros b. apply Common_fromBinary_panic.
  - intros b r e. apply Common_fromBinary_noerr.
  - intros. rewrite Common_fromBinary_ok by (by apply len_cons_app).
    unfold Common_of. rewrite !u16_le. done.
Qed.

(** X2.  [Char.fromBinary] panics exactly when the slice has fewer than 20
    bytes and never returns an error.  On 20 bytes or more it reads the
    identifier little-endian from bytes 0 to 3, the position and size from
    bytes 4 to 11, the two offsets and the advance from bytes 12 to 17 as
    two's complement numbers (a value of 32768 or more stands for that value
    less 65536), and the page and channel from bytes 18 and 19.  Every field
    of a decoded record lies in the range of its Go type. *)
Theorem Char_fromBinary_exact c :
  (forall b, Char.fromBinary c b = Panic <-> len b < 20) /\
  (forall b r e, Char.fromBinary c b <> Value (r, Some e)) /\
  (forall b0 b1 b2 b3 b4 b5 b6 b7 b8 b9 b10 b11 b12 b13 b14 b15 b16 b17 b18 b19 rest sp,
      Char.fromBinary c
        (Slice ([b0; b1; b2; b3; b4; b5; b6; b7; b8; b9; b10; b11; b12; b13; b14; b15; b16;
                 b17; b18; b19] ++ rest) sp) =
      Value (Char.mk (little_endian [b0; b1; b2; b3])
               (little_endian [b4; b5]) (little_endian [b6; b7])
               (little_endian [b8; b9]) (little_endian [b10; b11])
               (if little_endian [b12; b13] <? 2 ^ 15 then little_endian [b12; b13]
                else little_endian [b12; b13] - 2 ^ 16)
               (if little_endian [b14; b15] <? 2 ^ 15 then little_endian [b14; b15]
                else little_endian [b14; b15] - 2 ^ 16)
               (if little_endian [b16; b17] <? 2 ^ 15 then little_endian [b16; b17]
                else little_endian [b16; b17] - 2 ^ 16)
               b18 b19, None)) /\
  (forall b r,
      Char.fromBinary c b = Value (r, None) ->
      0 <= Char.Id r < 2 ^ 32 /\
      0 <= Char.X r < 2 ^ 16 /\ 0 <= Char.Y r < 2 ^ 16 /\
      0 <= Char.Width r < 2 ^ 16 /\ 0 <= Char.Height r < 2 ^ 16 /\
      - 2 ^ 15 <= Char.Xoffset r < 2 ^ 15 /\ - 2 ^ 15 <= Char.Yoffset r < 2 ^ 15 /\
      - 2 ^ 15 <= Char.Xadvance r < 2 ^ 15).
Proof.
  split_and!.
  - intros b. apply Char_fromBinary_panic.
  - intros b r e. apply Char_fromBinary_noerr.
  - intros. rewrite Char_fromBinary_ok by (by apply len_cons_app).
    unfold Char_of. rewrite !int16_signed by apply u16_range.
    rewrite !u32_le, !u16_le. done.
  - intros b r Hr. destruct (Z.lt_ge_cases (len b) 20) as [Hs|Hs].
    { by rewrite Char_fromBinary_short in Hr. }
    rewrite Char_fromBinary_ok in Hr by done. injection Hr as <-. simpl.
    split_and!; try apply u32_range; try apply u16_range; try apply int16_range.
Qed.

(** X3.  The decoders of the fixed-size records lose nothing: two spans of
    20 bytes that decode to the same glyph record are the same bytes, and
    likewise two spans of 10 bytes for a kerning pair and two spans of 15
    bytes for the common block. *)
Theorem record_decoders_injective :
  (forall c c' l l' sp sp',
      length l = 20%nat -> length l' = 20%nat ->
      Char.fromBinary c (Slice l sp) = Char.fromBinary c' (Slice l' sp') -> l = l') /\
  (forall kp kp' l l' sp sp',
      length l = 10%nat -> length l' = 10%nat ->
      KerningPair.fromBinary kp (Slice l sp) = KerningPair.fromBinary kp' (Slice l' sp') ->
      l = l') /\
  (forall c c' l l' sp sp',
      length l = 15%nat -> length l' = 15%nat ->
      Common.fromBinary c (Slice l sp) = Common.fromBinary c' (Slice l' sp') -> l = l').
Proof.
  split_and!; intros ? ? l l' sp sp' Hl Hl' H.
  - rewrite !Char_fromBinary_ok in H by (unfold len; simpl; lia).
    apply Char_of_inj; [lia..|]. simpl in H. congruence.
  - rewrite !KerningPair_fromBinary_ok in H by (unfold len; simpl; lia).
    apply KerningPair_of_inj; [lia..|]. simpl in H. congruence.
  - rewrite !Common_fromBinary_ok in H by (unfold len; simpl; lia).
    apply Common_of_inj; [lia..|]. simpl in H. congruence.
Qed.

(** X4.  [KerningPair.fromBinary] only slices its argument, and slicing is
    checked against the capacity: it panics exactly when the capacity is
    below 10, never returns an error, and on a slice shorter than 10 bytes
    with capacity for 10 it decodes the first ten bytes of the backing array,
    those beyond the length included. *)
Theorem KerningPair_fromBinary_bounds kp b :
  (KerningPair.fromBinary kp b = Panic <-> cap b < 10) /\
  (forall r e, KerningPair.fromBinary kp b <> Value (r, Some e)) /\
  (10 <= cap b ->
   KerningPair.fromBinary kp b = KerningPair.fromBinary kp (bytes (take 10 (backing b)))).
Proof.
  split_and!.
  - apply KerningPair_fromBinary_panic.
  - intros r e. apply KerningPair_fromBinary_noerr.
  - intros Hc. rewrite KerningPair_fromBinary_cap by done.
    rewrite KerningPair_fromBinary_ok
      by (unfold len, cap in *; simpl; rewrite length_take; lia).
    simpl. by rewrite KerningPair_of_take.
Qed.

(** ** The default encoding on bytes outside 0x80-0x9F *)

Lemma image_ascii c : uint8 c < 128 -> charmap.image charmap.windows1252 c = [c].
Proof.
  intros Hc. unfold charmap.image. simpl.
  by destruct (Z.ltb_spec (uint8 c) 128); [|lia].
Qed.

Lemma length_image_low c :
  ~ 128 <= uint8 c < 160 -> (length (charmap.image charmap.windows1252 c) <= 2)%nat.
Proof.
  intros Hc. pose proof (uint8_range c). unfold charmap.image. simpl.
  destruct (Z.ltb_spec (uint8 c) 128); [simpl; lia|].
  unfold charmap.windows1252_rune.
  destruct (Z.leb_spec 128 (uint8 c)); [|lia].
  destruct (Z.ltb_spec (uint8 c) 160); [lia|]. simpl.
  unfold charmap.utf8.
  destruct (Z.ltb_spec (uint8 c) 128); [lia|].
  destruct (Z.ltb_spec (uint8 c) 2048); [simpl; lia|lia].
Qed.

Lemma flat_map_image_ascii l :
  Forall (fun c => uint8 c < 128) l -> flat_map (charmap.image charmap.windows1252) l = l.
Proof.
  induction 1 as [|c l Hc _ IH]; [done|].
  change (flat_map (charmap.image charmap.windows1252) (c :: l))
    with (charmap.image charmap.windows1252 c ++ flat_map (charmap.image charmap.windows1252) l).
  by rewrite image_ascii, IH.
Qed.

Lemma length_flat_map_image_low l :
  Forall (fun c => ~ 128 <= uint8 c < 160) l ->
  (length (flat_map (charmap.image charmap.windows1252) l) <= 2 * length l)%nat.
Proof.
  induction 1 as [|c l Hc _ IH]; [done|].
  change (flat_map (charmap.image charmap.windows1252) (c :: l))
    with (charmap.image charmap.windows1252 c ++ flat_map (charmap.image charmap.windows1252) l).
  rewrite length_app. pose proof (length_image_low c Hc). simpl length. lia.
Qed.

Lemma Forall_ascii_low l :
  Forall (fun c => uint8 c < 128) l -> Forall (fun c => ~ 128 <= uint8 c < 160) l.
Proof. intros H. eapply Forall_impl; [exact H|]. simpl. intros c Hc. lia. Qed.

Lemma Info_fromBinary_low i b :
  14 <= len b ->
  Forall (fun c => ~ 128 <= uint8 c < 160) (drop 14 (elems b)) ->
  Info.fromBinary Encoding i b =
    Value (Info_of (elems b) (flat_map (charmap.image charmap.windows1252) (drop 14 (elems b))),
           None).
Proof.
  intros Hb Hlow. apply Info_fromBinary_windows1252; [done|].
  pose proof (length_flat_map_image_low _ Hlow) as Hl. rewrite length_drop in Hl.
  rewrite Z.quot_div_nonneg by lia. unfold len in *.
  apply Z.div_le_lower_bound; lia.
Qed.

(** X5.  With the default encoding, [Info.fromBinary] panics exactly when
    the slice has fewer than 14 bytes.  The only error it returns is the
    font-name error for a short output buffer; it then leaves the name of the
    receiver as it was, and the name bytes contain a byte in 0x80-0x9F.  A
    name without such bytes is always decoded, to the conversion of all the
    bytes after the 14th, with the size in the range of [int16] and the
    stretch in that of [uint16].  A name of ASCII bytes is taken over
    verbatim, to the end of the payload: it is not cut at a NUL byte. *)
Theorem Info_fromBinary_default i :
  (forall b, Info.fromBinary Encoding i b = Panic <-> len b < 14) /\
  (forall b r e,
      Info.fromBinary Encoding i b = Value (r, Some e) ->
      e = InfoFontNameError ErrShortDst /\
      Info.FontName r = Info.FontName i /\
      Exists (fun c => 128 <= uint8 c < 160) (drop 14 (elems b))) /\
  (forall b r,
      Forall (fun c => ~ 128 <= uint8 c < 160) (drop 14 (elems b)) ->
      Info.fromBinary Encoding i b = Value (r, None) ->
      Info.FontName r = flat_map (charmap.image charmap.windows1252) (drop 14 (elems b)) /\
      - 2 ^ 15 <= Info.FontSize r < 2 ^ 15 /\ 0 <= Info.StretchH r < 2 ^ 16) /\
  (forall b0 b1 b2 b3 b4 b5 b6 b7 b8 b9 b10 b11 b12 b13 name sp,
      Forall (fun c => uint8 c < 128) name ->
      Info.fromBinary Encoding i
        (Slice ([b0; b1; b2; b3; b4; b5; b6; b7; b8; b9; b10; b11; b12; b13] ++ name) sp) =
      Value (Info.mk (if little_endian [b0; b1] <? 2 ^ 15 then little_endian [b0; b1]
                      else little_endian [b0; b1] - 2 ^ 16)
               b2 b3 (little_endian [b4; b5]) b6 b7 b8 b9 b10 b11 b12 b13 name, None)).
Proof.
  assert (Hcases : forall b, 14 <= len b ->
    Info.fromBinary Encoding i b =
      Value (Info_of (elems b)
               (flat_map (charmap.image charmap.windows1252) (drop 14 (elems b))), None) \/
    (Info.fromBinary Encoding i b =
       Value (Info_of (elems b) (Info.FontName i), Some (InfoFontNameError ErrShortDst)) /\
     ((len b - 14) * 5) `quot` 2
       < Z.of_nat (length (flat_map (charmap.image charmap.windows1252) (drop 14 (elems b)))))).
  { intros b Hb. destruct (Info_fromBinary_windows1252 i b Hb) as [Hfit Hshort].
    destruct (Z.le_gt_cases
      (Z.of_nat (length (flat_map (charmap.image charmap.windows1252) (drop 14 (elems b)))))
      (((len b - 14) * 5) `quot` 2)); [left|right]; auto with lia. }
  split_and!.
  - intros b. split; [|apply Info_fromBinary_short].
    intros Hp. destruct (Z.lt_ge_cases (len b) 14) as [|Hb]; [done|].
    destruct (Hcases b Hb) as [H|[H _]]; by rewrite H in Hp.
  - intros b r e Hr. destruct (Z.lt_ge_cases (len b) 14) as [Hs|Hb].
    { by rewrite Info_fromBinary_short in Hr. }
    destruct (Hcases b Hb) as [H|[H Hshort]]; rewrite H in Hr; [done|].
    injection Hr as <- <-. split_and!; [done..|].
    destruct (Forall_Exists_dec (fun c => ~ 128 <= uint8 c < 160)
                (fun c => 128 <= uint8 c < 160)
                (fun c => match decide (128 <= uint8 c < 160) with
                          | left H => right H
                          | right H => left H
                          end) (drop 14 (elems b))) as [Hlow|Hex]; [|done].
    pose proof (length_flat_map_image_low _ Hlow) as Hl. rewrite length_drop in Hl.
    rewrite Z.quot_div_nonneg in Hshort by lia. unfold len in *.
    apply Z.lt_nge in Hshort. destruct Hshort.
    apply Z.div_le_lower_bound; lia.
  - intros b r Hlow Hr. destruct (Z.lt_ge_cases (len b) 14) as [Hs|Hb].
    { by rewrite Info_fromBinary_short in Hr. }
    rewrite Info_fromBinary_low in Hr by done. injection Hr as <-. simpl.
    split; [done|]. split; [apply int16_range|apply u16_range].
  - intros b0 b1 b2 b3 b4 b5 b6 b7 b8 b9 b10 b11 b12 b13 name sp Hname.
    rewrite Info_fromBinary_low.
    + simpl. rewrite flat_map_image_ascii by done.
      unfold Info_of. rewrite int16_signed by apply u16_range. rewrite !u16_le. done.
    + by apply len_cons_app.
    + simpl. by apply Forall_ascii_low.
Qed.

(** ** The pieces of a split *)

Lemma Split_pieces s sep :
  exists ps last,
    strings.Split s sep = ps ++ [last] /\
    s = concat (map (fun p => p ++ [sep]) ps) ++ last /\
    (sep ∉ last) /\
    Forall (fun p => sep ∉ p) ps.
Proof.
  induction s as [|c s (ps & last & Hs & Hcat & Hlast & Hps)]; simpl.
  { exists [], []. split_and!; [done..|apply not_elem_of_nil|constructor]. }
  destruct (Byte.eqb c sep) eqn:Hc.
  - apply Byte.byte_dec_bl in Hc as ->.
    exists ([] :: ps), last. rewrite Hs. split_and!; [done| |done|].
    + simpl. by rewrite <- Hcat.
    + constructor; [apply not_elem_of_nil|done].
  - apply Byte.eqb_false in Hc. rewrite Hs. destruct ps as [|p ps]; simpl.
    + exists [], (c :: last). simpl in Hcat. subst s.
      split_and!; [done..| |constructor].
      apply not_elem_of_cons. auto.
    + exists ((c :: p) :: ps), last. apply Forall_cons in Hps as [Hp Hps].
      split_and!; [done| |done|].
      * simpl. by rewrite Hcat.
      * constructor; [|done]. apply not_elem_of_cons. auto.
Qed.

Lemma take_init {A} (ps : list A) last :
  take (length (ps ++ [last]) - 1) (ps ++ [last]) = ps.
Proof. rewrite length_app. simpl. apply take_app_length'. lia. Qed.

(** X6.  After a Pages block has been decoded without error, no page name
    contains a NUL byte, and the names, each followed by a NUL, make up the
    transcoded text up to its last NUL: what the decoder drops is the piece
    of text after the last NUL, which is empty when the text ends with
    one. *)
Theorem pages_are_the_terminated_names Enc f blockId blockLenght blockData f' :
  uint8 blockId = 3 ->
  Font.switch Enc f blockId blockLenght blockData = Value (f', None) ->
  Forall (fun name => x00 ∉ name) (Font.Pages f') /\
  exists dst nDst nSrc dropped,
    encoding.Transform (encoding.NewDecoder Enc)
      (replicate (Z.to_nat (uint32 (blockLenght * 5) `quot` 2)) x00) (elems blockData) false
      = (dst, nDst, nSrc, None) /\
    take (Z.to_nat nDst) dst =
      concat (map (fun name => name ++ [x00]) (Font.Pages f')) ++ dropped /\
    x00 ∉ dropped.
Proof.
  intros Hid Hs.
  destruct (encoding.Transform (encoding.NewDecoder Enc)
      (replicate (Z.to_nat (uint32 (blockLenght * 5) `quot` 2)) x00) (elems blockData) false)
    as [[[dst nDst] nSrc] [err|]] eqn:Ht.
  { revert Hs. switch_case. rewrite make_nonneg.
    - cbn [bind elems]. by rewrite Ht.
    - apply Z.quot_pos; [|lia]. unfold uint32. apply Z.mod_pos_bound. lia. }
  assert (Hn : 0 <= nDst <= Z.of_nat (length dst)).
  { destruct (decide (0 <= nDst <= Z.of_nat (length dst))) as [|Hn]; [done|].
    revert Hs. switch_case. rewrite make_nonneg.
    - cbn [bind elems spare]. rewrite Ht.
      rewrite reslice_out; [done|]. unfold cap, backing. simpl. rewrite app_nil_r. lia.
    - apply Z.quot_pos; [|lia]. unfold uint32. apply Z.mod_pos_bound. lia. }
  rewrite (switch_pages _ _ _ _ _ _ _ _ Hid Ht Hn) in Hs. injection Hs as <-. simpl.
  destruct (Split_pieces (take (Z.to_nat nDst) dst) x00) as (ps & last & -> & Hcat & Hlast & Hps).
  rewrite take_init. split; [done|]. by exists dst, nDst, nSrc, last.
Qed.

(** ** Well-formed streams *)

Lemma Info_fromBinary_cases i b :
  14 <= len b ->
  Info.fromBinary Encoding i b =
    Value (Info_of (elems b)
             (flat_map (charmap.image charmap.windows1252) (drop 14 (elems b))), None) \/
  (Info.fromBinary Encoding i b =
     Value (Info_of (elems b) (Info.FontName i), Some (InfoFontNameError ErrShortDst)) /\
   ((len b - 14) * 5) `quot` 2
     < Z.of_nat (length (flat_map (charmap.image charmap.windows1252) (drop 14 (elems b))))).
Proof.
  intros Hb. destruct (Info_fromBinary_windows1252 i b Hb) as [Hfit Hshort].
  destruct (Z.le_gt_cases
    (Z.of_nat (length (flat_map (charmap.image charmap.windows1252) (drop 14 (elems b)))))
    (((len b - 14) * 5) `quot` 2)); [left|right]; auto with lia.
Qed.

Lemma switch_default f blockId blockLenght blockData :
  0 <= blockLenght -> len blockData = blockLenght ->
  (uint8 blockId = 1 -> 14 <= blockLenght) ->
  (uint8 blockId = 2 -> 15 <= blockLenght) ->
  exists f' oe,
    Font.switch Encoding f blockId blockLenght blockData = Value (f', oe) /\
    (oe = None \/ oe = Some (InfoBlockError (InfoFontNameError ErrShortDst)) \/
     oe = Some PagesTextError).
Proof.
  intros HL Hlen H1 H2.
  destruct (decide (uint8 blockId = 1)) as [Hid|].
  { switch_case.
    destruct (Info_fromBinary_cases Info.zero blockData ltac:(lia)) as [->|[-> _]];
      cbn [bind]; eauto 6. }
  destruct (decide (uint8 blockId = 2)) as [Hid|].
  { rewrite switch_common by (done || lia). eauto. }
  destruct (decide (uint8 blockId = 3)) as [Hid|].
  { destruct (switch_pages_windows1252 f blockId blockLenght blockData Hid) as [Hfit Hshort].
    destruct (Z.le_gt_cases
      (Z.of_nat (length (flat_map (charmap.image charmap.windows1252) (elems blockData))))
      (uint32 (blockLenght * 5) `quot` 2)) as [Hc|Hc].
    - rewrite (Hfit Hc). eauto.
    - rewrite (Hshort Hc). eauto 6. }
  destruct (decide (uint8 blockId = 4)) as [Hid|].
  { rewrite switch_chars by done. eauto. }
  destruct (decide (uint8 blockId = 5)) as [Hid|].
  { rewrite switch_kerning by done. eauto. }
  rewrite switch_unknown by lia. eauto.
Qed.

Lemma loop_well_formed l :
  well_formed l ->
  forall f sp, exists f' oe,
    Font.loop Encoding (length l) f (Slice l sp) = Some (Value (f', oe)) /\
    (oe = None \/ oe = Some (InfoBlockError (InfoFontNameError ErrShortDst)) \/
     oe = Some PagesTextError).
Proof.
  induction 1 as [l Hl|l Hfb Hle Hw H1 H2 Hwf IH]; intros f sp.
  { rewrite loop_stops by (unfold len; simpl; lia). eauto. }
  change (Font.loop Encoding (length l) f (Slice l sp))
    with (Font.loop Encoding (length (elems (Slice l sp))) f (Slice l sp)).
  rewrite loop_head by done.
  change (declared (bytes l)) with (declared (Slice l sp)) in *.
  change (tag (bytes l)) with (tag (Slice l sp)) in *.
  change (len (bytes l)) with (len (Slice l sp)) in *.
  pose proof (len_le_cap (Slice l sp)). pose proof (declared_range (Slice l sp)).
  destruct (block_in_cap Encoding f (Slice l sp)) as (d & Hd & _ & ->); [lia..|].
  destruct (switch_default f (tag (Slice l sp)) (declared (Slice l sp)) d)
    as (f' & oe & -> & Hoe); [lia|done..|].
  cbn [bind]. destruct oe as [e|]; [eauto|].
  rewrite reslice_from_in by lia. cbn [bind elems spare].
  destruct (IH f' sp) as (f'' & oe & Heq & Hoe').
  exists f'', oe. by rewrite <- Heq.
Qed.

(** X7.  A Pages block that lies in the stream and whose payload holds no
    byte in 0x80-0x9F is always decoded by the default encoding: the output
    buffer of five halves of the payload is large enough, the pages are the
    NUL-terminated pieces of the converted payload, the other fields are
    kept and the loop goes on after the payload.  For a payload of ASCII
    bytes the pages are the pieces of the payload itself. *)
Theorem pages_without_high_bytes f fb :
  4 < len fb -> uint8 (tag fb) = 3 ->
  5 + declared fb <= len fb -> declared fb * 5 < 2 ^ 32 ->
  (Forall (fun c => ~ 128 <= uint8 c < 160) (window (elems fb) 5 (5 + declared fb)) ->
   Font.block Encoding f fb =
     Value (Font.Continue
              (Font.mk (Font.Info f) (Font.Common f)
                 (take (length (strings.Split
                                  (flat_map (charmap.image charmap.windows1252)
                                            (window (elems fb) 5 (5 + declared fb))) x00) - 1)
                       (strings.Split
                          (flat_map (charmap.image charmap.windows1252)
                                    (window (elems fb) 5 (5 + declared fb))) x00))
                 (Font.Chars f) (Font.KerningPairs f))
              (Slice (drop (Z.to_nat (5 + declared fb)) (elems fb)) (spare fb)))) /\
  (Forall (fun c => uint8 c < 128) (window (elems fb) 5 (5 + declared fb)) ->
   Font.block Encoding f fb =
     Value (Font.Continue
              (Font.mk (Font.Info f) (Font.Common f)
                 (take (length (strings.Split (window (elems fb) 5 (5 + declared fb)) x00) - 1)
                       (strings.Split (window (elems fb) 5 (5 + declared fb)) x00))
                 (Font.Chars f) (Font.KerningPairs f))
              (Slice (drop (Z.to_nat (5 + declared fb)) (elems fb)) (spare fb)))).
Proof.
  intros Hfb Htag Hle Hw. pose proof (len_le_cap fb). pose proof (declared_range fb).
  assert (Hlow : Forall (fun c => ~ 128 <= uint8 c < 160) (window (elems fb) 5 (5 + declared fb)) ->
    Font.block Encoding f fb =
     Value (Font.Continue
              (Font.mk (Font.Info f) (Font.Common f)
                 (take (length (strings.Split
                                  (flat_map (charmap.image charmap.windows1252)
                                            (window (elems fb) 5 (5 + declared fb))) x00) - 1)
                       (strings.Split
                          (flat_map (charmap.image charmap.windows1252)
                                    (window (elems fb) 5 (5 + declared fb))) x00))
                 (Font.Chars f) (Font.KerningPairs f))
              (Slice (drop (Z.to_nat (5 + declared fb)) (elems fb)) (spare fb)))).
  { intros Hlow.
    destruct (block_in_cap Encoding f fb) as (d & Hd & He & ->); [lia..|].
    unfold backing in He. rewrite window_app_l in He by (unfold len in *; lia).
    rewrite <- He in *.
    rewrite (proj1 (switch_pages_windows1252 f (tag fb) (declared fb) d Htag)).
    - cbn [bind]. by rewrite reslice_from_in by lia.
    - pose proof (length_flat_map_image_low _ Hlow) as Hl.
      rewrite uint32_small by lia. rewrite Z.quot_div_nonneg by lia.
      apply Z.div_le_lower_bound; [lia|]. unfold len in Hd. lia. }
  split; [done|]. intros Hascii.
  rewrite Hlow by (by apply Forall_ascii_low). by rewrite flat_map_image_ascii.
Qed.

(** X8.  With the default encoding, the decode of a buffer that begins with
    the header and goes on with a well-formed stream of blocks never panics:
    it returns a font, with no error or with one of the two errors of a short
    output buffer, the info-block error or the pages-text error. *)
Theorem well_formed_never_panics g b :
  take 4 (elems b) = header -> well_formed (drop 4 (elems b)) ->
  exists f' oe,
    Font.FromBuffer Encoding g b = Some (Value (f', oe)) /\
    (oe = None \/ oe = Some (InfoBlockError (InfoFontNameError ErrShortDst)) \/
     oe = Some PagesTextError).
Proof.
  intros Hh Hwf. rewrite FromBuffer_header by done.
  apply (loop_well_formed _ Hwf).
Qed.

(** ** The outcomes of a decode *)

Lemma block_Return Enc f fb f' e :
  4 < len fb -> Font.block Enc f fb = Value (Font.Return f' e) ->
  (uint8 (tag fb) = 1 /\ exists e', e = InfoBlockError (InfoFontNameError e')) \/
  (uint8 (tag fb) = 3 /\ e = PagesTextError).
Proof.
  intros Hfb. rewrite block_unfold by done.
  destruct (reslice _ _ _) as [d|]; cbn [bind]; [|done].
  destruct (Font.switch _ _ _ _ _) as [[f1 [e1|]]|] eqn:Hs; cbn [bind]; [| |done].
  - intros [= <- <-]. by apply switch_err in Hs.
  - by destruct (reslice_from _ _).
Qed.

Lemma loop_errors Enc fuel : forall f fb f' e,
  Font.loop Enc fuel f fb = Some (Value (f', Some e)) ->
  (exists e', e = InfoBlockError (InfoFontNameError e')) \/ e = PagesTextError.
Proof.
  induction fuel as [|fuel IH]; intros f fb f' e Hl.
  - destruct (Z.le_gt_cases (len fb) 4).
    + by rewrite loop_stops in Hl.
    + simpl in Hl. by destruct (Z.ltb_spec 4 (len fb)); try lia.
  - destruct (Z.le_gt_cases (len fb) 4).
    + by rewrite loop_stops in Hl.
    + rewrite loop_pass in Hl by lia.
      destruct (Font.block Enc f fb) as [[f1 fb1|f1 e1]|] eqn:Hb; [by eapply IH| |done].
      injection Hl as <- <-. apply block_Return in Hb; [|lia].
      destruct Hb as [[_ [e' ->]]|[_ ->]]; eauto.
Qed.

(** A call that returns has either rejected the header, with the font
    untouched, or accepted it and run the loop. *)
Lemma FromBuffer_inv Enc g b f' oe :
  Font.FromBuffer Enc g b = Some (Value (f', oe)) ->
  (f' = g /\ exists m, oe = Some (InvalidIdentifier m)) \/
  (f' = g /\ take 3 (elems b) = magic /\ exists v, oe = Some (UnsupportedVersion v)) \/
  (take 4 (elems b) = header /\
   Font.loop Enc (length (elems (after_header b))) g (after_header b) = Some (Value (f', oe))).
Proof.
  unfold Font.FromBuffer. rewrite magic_check.
  assert (Hbad :
    Some (magic <- reslice b 0 3 ;; Value (g, Some (InvalidIdentifier (elems magic))))
      = Some (Value (f', oe)) ->
    (f' = g /\ exists m, oe = Some (InvalidIdentifier m)) \/
    (f' = g /\ take 3 (elems b) = magic /\ exists v, oe = Some (UnsupportedVersion v)) \/
    (take 4 (elems b) = header /\
     Font.loop Enc (length (elems (after_header b))) g (after_header b)
       = Some (Value (f', oe)))).
  { intros H. destruct (reslice b 0 3) as [m|]; cbn [bind] in H; [|done].
    injection H as <- <-. left. eauto. }
  destruct (elems b) as [|b0 [|b1 [|b2 [|b3 l]]]] eqn:He; byte_cases;
    try done; try (intros H; by apply Hbad).
  - rewrite index_out by (unfold len; rewrite He; simpl; lia). done.
  - bytes_known. rewrite index_in by (unfold len; rewrite He; simpl; lia).
    rewrite He. change (get (x42 :: x4d :: x46 :: b3 :: l) 3) with b3.
    destruct (uint8 b3 =? 3) eqn:Hv; cbn [negb].
    + apply (uint8_eqb_byte b3 x03 3 eq_refl) in Hv as ->.
      rewrite reslice_from_in by (unfold len; rewrite He; simpl; lia).
      intros Hl. right. right. split; [done|exact Hl].
    + destruct (index b 4) as [b4|]; cbn [bind]; [|done].
      intros [= <- <-]. right. left. eauto.
Qed.

(** X9.  A decode that returns without an error has read a buffer that
    begins with [B], [M], [F] and the version 3.  The errors it can return
    are four: the invalid-identifier and the unsupported-version error, both
    with the font untouched, and, only after a valid header, the info-block
    error wrapping the font-name error and the pages-text error.  The
    common-block, char and kerning-pair errors that the source formats are
    never returned. *)
Theorem FromBuffer_outcomes Enc g b f' oe :
  Font.FromBuffer Enc g b = Some (Value (f', oe)) ->
  (oe = None -> take 4 (elems b) = header) /\
  (forall e, oe = Some e ->
     (f' = g /\ exists m, e = InvalidIdentifier m) \/
     (f' = g /\ take 3 (elems b) = magic /\ exists v, e = UnsupportedVersion v) \/
     (take 4 (elems b) = header /\
      ((exists e', e = InfoBlockError (InfoFontNameError e')) \/ e = PagesTextError))).
Proof.
  intros H. destruct (FromBuffer_inv _ _ _ _ _ H) as [[-> [m ->]]|[[-> [Hm [v ->]]]|[Hh Hl]]].
  - split; [done|]. intros e [= <-]. left. eauto.
  - split; [done|]. intros e [= <-]. right. left. eauto.
  - split; [done|]. intros e ->. right. right. split; [done|]. by eapply loop_errors.
Qed.

(** ** Documents in range *)

Lemma Char_of_valid l : Char_valid (Char_of l).
Proof.
  unfold Char_valid, Char_of. simpl.
  pose proof (u32_range l 0). pose proof (u16_range l 4). pose proof (u16_range l 6).
  pose proof (u16_range l 8). pose proof (u16_range l 10).
  pose proof (int16_range (u16 l 12)). pose proof (int16_range (u16 l 14)).
  pose proof (int16_range (u16 l 16)). done.
Qed.

Lemma KerningPair_of_valid l : KerningPair_valid (KerningPair_of l).
Proof.
  unfold KerningPair_valid, KerningPair_of. simpl.
  pose proof (u32_range l 0). pose proof (u32_range l 4). pose proof (u16_range l 8). done.
Qed.

Lemma Common_of_valid l : Common_valid (Common_of l).
Proof.
  unfold Common_valid, Common_of. simpl.
  pose proof (u16_range l 0). pose proof (u16_range l 2). pose proof (u16_range l 4).
  pose proof (u16_range l 6). pose proof (u16_range l 8). done.
Qed.

Lemma Info_of_valid l name : Info_valid (Info_of l name).
Proof.
  unfold Info_valid, Info_of. simpl.
  pose proof (int16_range (u16 l 0)). pose proof (u16_range l 4). done.
Qed.

Lemma Char_fromBinary_valid c b r oe : Char.fromBinary c b = Value (r, oe) -> Char_valid r.
Proof.
  intros H. destruct (Z.lt_ge_cases (len b) 20).
  - by rewrite Char_fromBinary_short in H.
  - rewrite Char_fromBinary_ok in H by done. injection H as <- _. apply Char_of_valid.
Qed.

Lemma KerningPair_fromBinary_valid kp b r oe :
  KerningPair.fromBinary kp b = Value (r, oe) -> KerningPair_valid r.
Proof.
  intros H. destruct (Z.lt_ge_cases (cap b) 10) as [Hc|Hc].
  - by rewrite (proj2 (KerningPair_fromBinary_panic kp b) Hc) in H.
  - rewrite KerningPair_fromBinary_cap in H by done. injection H as <- _.
    apply KerningPair_of_valid.
Qed.

Lemma Common_fromBinary_valid c b r oe : Common.fromBinary c b = Value (r, oe) -> Common_valid r.
Proof.
  intros H. destruct (Z.lt_ge_cases (len b) 15).
  - by rewrite Common_fromBinary_short in H.
  - rewrite Common_fromBinary_ok in H by done. injection H as <- _. apply Common_of_valid.
Qed.

Lemma Info_fromBinary_valid Enc i b r oe :
  Info.fromBinary Enc i b = Value (r, oe) -> Info_valid r.
Proof.
  intros H. destruct (Z.lt_ge_cases (len b) 14).
  { by rewrite Info_fromBinary_short in H. }
  rewrite Info_fromBinary_unfold in H by done.
  destruct (encoding.Transform _ _ _ _) as [[[dst nDst] nSrc] [err|]].
  - injection H as <- _. apply Info_of_valid.
  - destruct (reslice _ _ _) as [name|]; cbn [bind] in H; [|done].
    injection H as <- _. apply Info_of_valid.
Qed.

Lemma chars_loop_valid blockData indices : forall chars chars' oe,
  Font.chars_loop blockData chars indices = Value (chars', oe) ->
  Forall Char_valid chars -> Forall Char_valid chars'.
Proof.
  induction indices as [|i rest IH]; intros chars chars' oe; simpl.
  { by intros [= <- _]. }
  destruct (chars !! i) as [c|]; [|done].
  destruct (reslice _ _ _) as [b|]; cbn [bind]; [|done].
  destruct (Char.fromBinary c b) as [[c1 [e1|]]|] eqn:Hc; cbn [bind]; [| |done].
  - intros [= <- _] Hv. apply Forall_insert; [done|]. by eapply Char_fromBinary_valid.
  - intros H Hv. apply (IH _ _ _ H). apply Forall_insert; [done|].
    by eapply Char_fromBinary_valid.
Qed.

Lemma kerning_loop_valid blockData indices : forall pairs pairs' oe,
  Font.kerning_loop blockData pairs indices = Value (pairs', oe) ->
  Forall KerningPair_valid pairs -> Forall KerningPair_valid pairs'.
Proof.
  induction indices as [|i rest IH]; intros pairs pairs' oe; simpl.
  { by intros [= <- _]. }
  destruct (pairs !! i) as [c|]; [|done].
  destruct (reslice _ _ _) as [b|]; cbn [bind]; [|done].
  destruct (KerningPair.fromBinary c b) as [[c1 [e1|]]|] eqn:Hc; cbn [bind]; [| |done].
  - intros [= <- _] Hv. apply Forall_insert; [done|]. by eapply KerningPair_fromBinary_valid.
  - intros H Hv. apply (IH _ _ _ H). apply Forall_insert; [done|].
    by eapply KerningPair_fromBinary_valid.
Qed.

Lemma Split_nul_free s sep : Forall (fun p => sep ∉ p) (strings.Split s sep).
Proof.
  destruct (Split_pieces s sep) as (ps & last & -> & _ & Hlast & Hps).
  apply Forall_app. split; [done|]. by constructor.
Qed.

Lemma switch_valid Enc f blockId blockLenght blockData f' oe :
  Font_valid f -> Font.switch Enc f blockId blockLenght blockData = Value (f', oe) ->
  Font_valid f'.
Proof.
  intros (Hi & Hc & Hp & Hch & Hk). unfold Font_valid. switch_case.
  - destruct (Info.fromBinary _ _ _) as [[i [err|]]|] eqn:Hr; cbn [bind]; [| |done];
      intros [= <- _]; simpl; split_and!; try done; by eapply Info_fromBinary_valid.
  - destruct (Common.fromBinary _ _) as [[c [err|]]|] eqn:Hr; cbn [bind]; [| |done];
      intros [= <- _]; simpl; split_and!; try done; by eapply Common_fromBinary_valid.
  - destruct (make _) as [fontBuf|]; cbn [bind]; [|done].
    destruct (encoding.Transform _ _ _ _) as [[[dst nDst] nSrc] [err|]].
    { by intros [= <- _]. }
    destruct (reslice _ _ _) as [text|]; cbn [bind]; [|done].
    destruct (_ <? 0); [done|]. intros [= <- _]. simpl. split_and!; try done.
    apply Forall_take, Split_nul_free.
  - destruct (Font.chars_loop _ _ _) as [[chars err]|] eqn:Hr; cbn [bind]; [|done].
    intros [= <- _]. simpl. split_and!; try done.
    apply (chars_loop_valid _ _ _ _ _ Hr). apply Forall_replicate.
    split_and!; done.
  - destruct (Font.kerning_loop _ _ _) as [[pairs err]|] eqn:Hr; cbn [bind]; [|done].
    intros [= <- _]. simpl. split_and!; try done.
    apply (kerning_loop_valid _ _ _ _ _ Hr). apply Forall_replicate.
    split_and!; done.
  - by intros [= <- _].
Qed.

(** A property of fonts that every case of the switch keeps is kept by the
    loop and by the whole call. *)
Lemma block_invariant Enc (P : Font.t -> Prop) f fb :
  (forall f blockId blockLenght blockData f' oe,
      P f -> Font.switch Enc f blockId blockLenght blockData = Value (f', oe) -> P f') ->
  4 < len fb -> P f ->
  match Font.block Enc f fb with
  | Value (Font.Continue f' _) => P f'
  | Value (Font.Return f' _) => P f'
  | Panic => True
  end.
Proof.
  intros HP Hfb Hf. rewrite block_unfold by done.
  destruct (reslice _ _ _) as [d|]; cbn [bind]; [|done].
  destruct (Font.switch _ _ _ _ _) as [[f1 [e1|]]|] eqn:Hs; cbn [bind]; [| |done].
  - by eapply HP.
  - destruct (reslice_from _ _); cbn [bind]; [|done]. by eapply HP.
Qed.

Lemma loop_invariant Enc (P : Font.t -> Prop) :
  (forall f blockId blockLenght blockData f' oe,
      P f -> Font.switch Enc f blockId blockLenght blockData = Value (f', oe) -> P f') ->
  forall fuel f fb f' oe,
    P f -> Font.loop Enc fuel f fb = Some (Value (f', oe)) -> P f'.
Proof.
  intros HP. induction fuel as [|fuel IH]; intros f fb f' oe Hf Hl.
  - destruct (Z.le_gt_cases (len fb) 4).
    + rewrite loop_stops in Hl by done. by injection Hl as <- _.
    + simpl in Hl. by destruct (Z.ltb_spec 4 (len fb)); try lia.
  - destruct (Z.le_gt_cases (len fb) 4).
    + rewrite loop_stops in Hl by done. by injection Hl as <- _.
    + rewrite loop_pass in Hl by lia.
      pose proof (block_invariant Enc P f fb HP ltac:(lia) Hf) as Hb.
      destruct (Font.block Enc f fb) as [[f1 fb1|f1 e1]|]; [by eapply IH| |done].
      by injection Hl as <- _.
Qed.

Lemma FromBuffer_invariant Enc (P : Font.t -> Prop) g b f' oe :
  (forall f blockId blockLenght blockData f' oe,
      P f -> Font.switch Enc f blockId blockLenght blockData = Value (f', oe) -> P f') ->
  P g -> Font.FromBuffer Enc g b = Some (Value (f', oe)) -> P f'.
Proof.
  intros HP Hg H.
  destruct (FromBuffer_inv _ _ _ _ _ H) as [[-> _]|[[-> _]|[_ Hl]]]; [done..|].
  by eapply loop_invariant.
Qed.

(** X10.  Decoding keeps fonts in range.  The font of [NewFont] is in
    range; a call of [FromBuffer] that returns, with or without an error and
    whatever the decoder of the encoding does, leaves a font that was in
    range in range: every numeric field is a value of its Go type and no
    page name holds a NUL byte.  So the font that [NewFontFromBuf] returns is
    always in range. *)
Theorem decoded_font_in_range Enc :
  Font_valid NewFont /\
  (forall g b f' oe,
      Font_valid g -> Font.FromBuffer Enc g b = Some (Value (f', oe)) -> Font_valid f') /\
  (forall b f' oe, NewFontFromBuf Enc b = Some (Value (f', oe)) -> Font_valid f').
Proof.
  assert (Hnew : Font_valid NewFont) by (unfold Font_valid; simpl; split_and!; done).
  assert (Hkeep : forall g b f' oe,
    Font_valid g -> Font.FromBuffer Enc g b = Some (Value (f', oe)) -> Font_valid f').
  { intros g b f' oe Hg. apply FromBuffer_invariant; [|done].
    intros f blockId blockLenght blockData f1 oe1. apply switch_valid. }
  split_and!; [done|done|].
  intros b f' oe. by apply Hkeep.
Qed.

(** ** What a decode depends on *)

Lemma loop_spare Enc sp' : forall fuel f l sp f',
  Font.loop Enc fuel f (Slice l sp) = Some (Value (f', None)) ->
  Font.loop Enc fuel f (Slice l sp') = Some (Value (f', None)).
Proof.
  induction fuel as [|fuel IH]; intros f l sp f' Hl.
  - destruct (Z.le_gt_cases (len (Slice l sp)) 4) as [Hs|Hs].
    + rewrite loop_stops in Hl by done. by rewrite loop_stops by exact Hs.
    + simpl in Hl. by destruct (Z.ltb_spec 4 (len (Slice l sp))); try lia.
  - destruct (Z.le_gt_cases (len (Slice l sp)) 4) as [Hs|Hs].
    + rewrite loop_stops in Hl by done. by rewrite loop_stops by exact Hs.
    + rewrite loop_pass in Hl by lia.
      assert (Hs' : 4 < len (Slice l sp')) by exact Hs.
      rewrite loop_pass by exact Hs'.
      destruct (Font.block Enc f (Slice l sp)) as [[f1 fb1|f1 e1]|] eqn:Hb; [|done..].
      destruct (block_Continue _ _ _ _ _ Hs Hb) as [Hle ->].
      rewrite (block_frame Enc f (Slice l sp) (Slice l sp')), Hb; [|exact Hs|done|done|done].
      simpl. by apply (IH _ _ sp).
Qed.

(** X11.  A decode that ends without an error has read only the bytes
    within the length of the buffer: the same bytes in a slice with any other
    spare capacity give the same font. *)
Theorem decode_ignores_spare_capacity Enc g l sp sp' f' :
  Font.FromBuffer Enc g (Slice l sp) = Some (Value (f', None)) ->
  Font.FromBuffer Enc g (Slice l sp') = Some (Value (f', None)).
Proof.
  intros H. destruct (FromBuffer_inv _ _ _ _ _ H) as [[_ [m [=]]]|[[_ [_ [v [=]]]]|[Hh Hl]]].
  rewrite FromBuffer_header by done. unfold after_header in *. simpl in *.
  by apply (loop_spare _ _ _ _ _ sp).
Qed.

(** X12.  Decoding composes.  When the loop, started with the font [g],
    consumes the blocks [s1] exactly and leaves the font [f], the decode of
    a buffer with [s1] followed by [s2] into [g] has the outcome (font,
    error or panic) of the decode of the buffer with [s2] alone into [f]. *)
Theorem decode_concatenation Enc g f s1 s2 sp sp' :
  reaches Enc g (Slice s1 sp) f (Slice [] sp) ->
  Font.FromBuffer Enc g (Slice (header ++ s1 ++ s2) sp') =
  Font.FromBuffer Enc f (Slice (header ++ s2) sp').
Proof.
  intros Hr. rewrite !FromBuffer_after_header.
  pose proof (reaches_frame _ _ _ _ _ Hr s1 [] sp s2 sp') as Hr'.
  rewrite app_nil_r in Hr'. specialize (Hr' eq_refl eq_refl).
  pose proof (loop_reaches _ _ _ _ _ Hr') as E. cbn [elems] in E. exact E.
Qed.

(** ** The block that has written a field *)

Lemma switch_slots Enc f blockId blockLenght blockData f' oe :
  Font.switch Enc f blockId blockLenght blockData = Value (f', oe) ->
  (is_Some (Font.Info f) -> is_Some (Font.Info f')) /\
  (is_Some (Font.Common f) -> is_Some (Font.Common f')) /\
  (uint8 blockId = 1 -> is_Some (Font.Info f')) /\
  (uint8 blockId = 2 -> is_Some (Font.Common f')).
Proof.
  switch_case.
  - destruct (Info.fromBinary _ _ _) as [[i [err|]]|]; cbn [bind]; [| |done];
      intros [= <- _]; simpl; split_and!; try done; intros; try lia; by eexists.
  - destruct (Common.fromBinary _ _) as [[c [err|]]|]; cbn [bind]; [| |done];
      intros [= <- _]; simpl; split_and!; try done; intros; try lia; by eexists.
  - destruct (make _) as [fontBuf|]; cbn [bind]; [|done].
    destruct (encoding.Transform _ _ _ _) as [[[dst nDst] nSrc] [err|]].
    { intros [= <- _]. split_and!; try done; intros; lia. }
    destruct (reslice _ _ _) as [text|]; cbn [bind]; [|done].
    destruct (_ <? 0); [done|]. intros [= <- _]. simpl. split_and!; try done; intros; lia.
  - destruct (Font.chars_loop _ _ _) as [[chars err]|] eqn:Hr; cbn [bind]; [|done].
    intros [= <- _]. simpl. split_and!; try done; intros; lia.
  - destruct (Font.kerning_loop _ _ _) as [[pairs err]|] eqn:Hr; cbn [bind]; [|done].
    intros [= <- _]. simpl. split_and!; try done; intros; lia.
  - intros [= <- _]. split_and!; try done; intros; lia.
Qed.

Lemma switch_keeps Enc f blockId blockLenght blockData f' oe :
  Font.switch Enc f blockId blockLenght blockData = Value (f', oe) ->
  (uint8 blockId <> 1 -> Font.Info f' = Font.Info f) /\
  (uint8 blockId <> 2 -> Font.Common f' = Font.Common f) /\
  (uint8 blockId <> 3 -> Font.Pages f' = Font.Pages f) /\
  (uint8 blockId <> 4 -> Font.Chars f' = Font.Chars f) /\
  (uint8 blockId <> 5 -> Font.KerningPairs f' = Font.KerningPairs f).
Proof.
  switch_case.
  - destruct (Info.fromBinary _ _ _) as [[i [err|]]|]; cbn [bind]; [| |done];
      intros [= <- _]; simpl; split_and!; try done; intros; lia.
  - destruct (Common.fromBinary _ _) as [[c [err|]]|]; cbn [bind]; [| |done];
      intros [= <- _]; simpl; split_and!; try done; intros; lia.
  - destruct (make _) as [fontBuf|]; cbn [bind]; [|done].
    destruct (encoding.Transform _ _ _ _) as [[[dst nDst] nSrc] [err|]].
    { by intros [= <- _]. }
    destruct (reslice _ _ _) as [text|]; cbn [bind]; [|done].
    destruct (_ <? 0); [done|]. intros [= <- _]. simpl. split_and!; try done; intros; lia.
  - destruct (Font.chars_loop _ _ _) as [[chars err]|] eqn:Hr; cbn [bind]; [|done].
    intros [= <- _]. simpl. split_and!; try done; intros; lia.
  - destruct (Font.kerning_loop _ _ _) as [[pairs err]|] eqn:Hr; cbn [bind]; [|done].
    intros [= <- _]. simpl. split_and!; try done; intros; lia.
  - by intros [= <- _].
Qed.

(** A field [proj] of the font that only the case [k] of the switch writes. *)
Lemma block_keeps {A} Enc (proj : Font.t -> A) k f fb :
  (forall f blockId blockLenght blockData f' oe,
      Font.switch Enc f blockId blockLenght blockData = Value (f', oe) ->
      uint8 blockId <> k -> proj f' = proj f) ->
  4 < len fb -> uint8 (tag fb) <> k ->
  match Font.block Enc f fb with
  | Value (Font.Continue f' _) => proj f' = proj f
  | Value (Font.Return f' _) => proj f' = proj f
  | Panic => True
  end.
Proof.
  intros Hkeeps Hfb Hk. rewrite block_unfold by done.
  destruct (reslice _ _ _) as [d|]; cbn [bind]; [|done].
  destruct (Font.switch _ _ _ _ _) as [[f1 [e1|]]|] eqn:Hs; cbn [bind]; [| |done].
  - by eapply Hkeeps.
  - destruct (reslice_from _ _); cbn [bind]; [|done]. by eapply Hkeeps.
Qed.

Lemma loop_written {A} Enc (proj : Font.t -> A) k :
  (forall f blockId blockLenght blockData f' oe,
      Font.switch Enc f blockId blockLenght blockData = Value (f', oe) ->
      uint8 blockId <> k -> proj f' = proj f) ->
  forall fuel f fb f' oe,
    Font.loop Enc fuel f fb = Some (Value (f', oe)) -> proj f' <> proj f ->
    exists f1 fb1, reaches Enc f fb f1 fb1 /\ 4 < len fb1 /\ uint8 (tag fb1) = k.
Proof.
  intros Hkeeps. induction fuel as [|fuel IH]; intros f fb f' oe Hl Hne.
  - destruct (Z.le_gt_cases (len fb) 4).
    + rewrite loop_stops in Hl by done. by injection Hl as <- _.
    + simpl in Hl. by destruct (Z.ltb_spec 4 (len fb)); try lia.
  - destruct (Z.le_gt_cases (len fb) 4) as [Hs|Hs].
    + rewrite loop_stops in Hl by done. by injection Hl as <- _.
    + destruct (decide (uint8 (tag fb) = k)) as [Hk|Hk].
      { exists f, fb. split; [apply reaches_here|done]. }
      rewrite loop_pass in Hl by done.
      pose proof (block_keeps Enc proj k f fb Hkeeps Hs Hk) as Hb.
      destruct (Font.block Enc f fb) as [[f1 fb1|f1 e1]|] eqn:Hblock; [| |done].
      * rewrite <- Hb in Hne. destruct (IH _ _ _ _ Hl Hne) as (f2 & fb2 & Hr & Hlen & Ht).
        exists f2, fb2. split; [|done]. by eapply reaches_pass.
      * injection Hl as <- _. congruence.
Qed.

Lemma FromBuffer_written {A} Enc (proj : Font.t -> A) k g b f' oe :
  (forall f blockId blockLenght blockData f' oe,
      Font.switch Enc f blockId blockLenght blockData = Value (f', oe) ->
      uint8 blockId <> k -> proj f' = proj f) ->
  Font.FromBuffer Enc g b = Some (Value (f', oe)) -> proj f' <> proj g ->
  take 4 (elems b) = header /\
  exists f1 fb1, reaches Enc g (after_header b) f1 fb1 /\ 4 < len fb1 /\ uint8 (tag fb1) = k.
Proof.
  intros Hkeeps H Hne.
  destruct (FromBuffer_inv _ _ _ _ _ H) as [[-> _]|[[-> _]|[Hh Hl]]]; [done..|].
  split; [done|]. by eapply (loop_written Enc proj k Hkeeps).
Qed.

(** X13.  A field of the font is written by the blocks of its own tag only:
    when a call of [FromBuffer] returns a font in which the info, the common
    block, the pages, the glyphs or the kerning pairs differ from those of
    the font it was called on, the header was valid and the loop came to a
    block with the tag 1, 2, 3, 4 or 5 respectively.  And the call never
    takes away an info or a common block that the font had. *)
Theorem field_written_by_its_block Enc g b f' oe :
  Font.FromBuffer Enc g b = Some (Value (f', oe)) ->
  (Font.Info f' <> Font.Info g -> dispatches Enc g b 1) /\
  (Font.Common f' <> Font.Common g -> dispatches Enc g b 2) /\
  (Font.Pages f' <> Font.Pages g -> dispatches Enc g b 3) /\
  (Font.Chars f' <> Font.Chars g -> dispatches Enc g b 4) /\
  (Font.KerningPairs f' <> Font.KerningPairs g -> dispatches Enc g b 5) /\
  (is_Some (Font.Info g) -> is_Some (Font.Info f')) /\
  (is_Some (Font.Common g) -> is_Some (Font.Common f')).
Proof.
  intros H. unfold dispatches. split_and!.
  - apply (FromBuffer_written Enc Font.Info 1) with (oe := oe); [|done].
    intros f id L d f1 oe1 Hs. by destruct (switch_keeps _ _ _ _ _ _ _ Hs) as (? & ? & ? & ? & ?).
  - apply (FromBuffer_written Enc Font.Common 2) with (oe := oe); [|done].
    intros f id L d f1 oe1 Hs. by destruct (switch_keeps _ _ _ _ _ _ _ Hs) as (? & ? & ? & ? & ?).
  - apply (FromBuffer_written Enc Font.Pages 3) with (oe := oe); [|done].
    intros f id L d f1 oe1 Hs. by destruct (switch_keeps _ _ _ _ _ _ _ Hs) as (? & ? & ? & ? & ?).
  - apply (FromBuffer_written Enc Font.Chars 4) with (oe := oe); [|done].
    intros f id L d f1 oe1 Hs. by destruct (switch_keeps _ _ _ _ _ _ _ Hs) as (? & ? & ? & ? & ?).
  - apply (FromBuffer_written Enc Font.KerningPairs 5) with (oe := oe); [|done].
    intros f id L d f1 oe1 Hs. by destruct (switch_keeps _ _ _ _ _ _ _ Hs) as (? & ? & ? & ? & ?).
  - apply (FromBuffer_invariant Enc (fun f => is_Some (Font.Info g) -> is_Some (Font.Info f))
             g b f' oe); [|done|done].
    intros f id L d f1 oe1 Hf Hs Hg. destruct (switch_slots _ _ _ _ _ _ _ Hs) as (Hi & _). auto.
  - apply (FromBuffer_invariant Enc (fun f => is_Some (Font.Common g) -> is_Some (Font.Common f))
             g b f' oe); [|done|done].
    intros f id L d f1 oe1 Hf Hs Hg. destruct (switch_slots _ _ _ _ _ _ _ Hs) as (_ & Hc & _). auto.
Qed.

(** ** The further properties at concrete inputs *)

(** X1 on 14 bytes and on the bytes 1 to 15. *)
Lemma Common_fromBinary_exact_witness :
  len (bytes (replicate 14 x00)) < 15 /\
  Common.fromBinary Common.zero (bytes (replicate 14 x00)) = Panic /\
  Common.fromBinary Common.zero (bytes counting_common) =
    Value (Common.mk 513 1027 1541 2055 2569 x0b x0c x0d x0e x0f, None).
Proof.
  destruct (Common_fromBinary_exact Common.zero) as (Hp & _ & Hl).
  assert (Hlen : len (bytes (replicate 14 x00)) < 15) by (by vm_compute).
  exact (conj Hlen (conj (proj2 (Hp _) Hlen)
          (Hl x01 x02 x03 x04 x05 x06 x07 x08 x09 x0a x0b x0c x0d x0e x0f [] []))).
Defined.

(** X2 on the glyph record of 20 bytes [0xff]: the offsets and the advance
    are -1. *)
Lemma Char_fromBinary_exact_witness :
  Char.fromBinary Char.zero (bytes all_ones_char) =
    Value (Char.mk 4294967295 65535 65535 65535 65535 (-1) (-1) (-1) xff xff, None) /\
  Char_valid (Char.mk 4294967295 65535 65535 65535 65535 (-1) (-1) (-1) xff xff).
Proof.
  destruct (Char_fromBinary_exact Char.zero) as (_ & _ & Hl & Hr).
  assert (H : Char.fromBinary Char.zero (bytes all_ones_char) =
    Value (Char.mk 4294967295 65535 65535 65535 65535 (-1) (-1) (-1) xff xff, None)).
  { exact (Hl xff xff xff xff xff xff xff xff xff xff xff xff xff xff xff xff xff xff xff xff
             [] []). }
  exact (conj H (Hr _ _ H)).
Defined.

(** X3 on two receivers and two slices that hold the same 20 bytes. *)
Lemma record_decoders_injective_witness :
  length all_ones_char = 20%nat /\
  length (replicate 10 xff ++ replicate 10 xff) = 20%nat /\
  Char.fromBinary Char.zero (Slice all_ones_char []) =
    Char.fromBinary (Char_of all_ones_char)
      (Slice (replicate 10 xff ++ replicate 10 xff) [x00]) /\
  all_ones_char = replicate 10 xff ++ replicate 10 xff.
Proof.
  assert (Hl : length all_ones_char = 20%nat) by reflexivity.
  assert (Hl' : length (replicate 10 xff ++ replicate 10 xff) = 20%nat) by reflexivity.
  assert (H : Char.fromBinary Char.zero (Slice all_ones_char []) =
    Char.fromBinary (Char_of all_ones_char)
      (Slice (replicate 10 xff ++ replicate 10 xff) [x00])) by (by vm_compute).
  exact (conj Hl (conj Hl' (conj H
          (proj1 record_decoders_injective _ _ _ _ _ _ Hl Hl' H)))).
Defined.

(** X4 on an empty slice with room for one record. *)
Lemma KerningPair_fromBinary_bounds_witness :
  10 <= cap (Slice [] kerning_ff_record) /\
  KerningPair.fromBinary KerningPair.zero (Slice [] kerning_ff_record) =
    KerningPair.fromBinary KerningPair.zero
      (bytes (take 10 (backing (Slice [] kerning_ff_record)))).
Proof.
  assert (Hcap : 10 <= cap (Slice [] kerning_ff_record)) by (by vm_compute).
  exact (conj Hcap
          (proj2 (proj2 (KerningPair_fromBinary_bounds KerningPair.zero
                           (Slice [] kerning_ff_record))) Hcap)).
Defined.

(** X5 on a name with a NUL in it. *)
Lemma Info_fromBinary_default_witness :
  Forall (fun c => uint8 c < 128) [x41; x00; x42] /\
  Info.fromBinary Encoding Info.zero (bytes (replicate 14 x00 ++ [x41; x00; x42])) =
    Value (Info.mk 0 x00 x00 0 x00 x00 x00 x00 x00 x00 x00 x00 [x41; x00; x42], None).
Proof.
  assert (H : Forall (fun c => uint8 c < 128) [x41; x00; x42]).
  { repeat (constructor; [by vm_compute|]). constructor. }
  exact (conj H
          (proj2 (proj2 (proj2 (Info_fromBinary_default Info.zero)))
             x00 x00 x00 x00 x00 x00 x00 x00 x00 x00 x00 x00 x00 x00 [x41; x00; x42] [] H)).
Defined.

(** X6 on the two names [a] and [b]. *)
Lemma pages_are_the_terminated_names_witness :
  uint8 x03 = 3 /\
  Font.switch Encoding NewFont x03 4 (bytes [x61; x00; x62; x00]) =
    Value (two_pages_font, None) /\
  Forall (fun name => x00 ∉ name) (Font.Pages two_pages_font) /\
  exists dst nDst nSrc dropped,
    encoding.Transform (encoding.NewDecoder Encoding)
      (replicate (Z.to_nat (uint32 (4 * 5) `quot` 2)) x00)
      (elems (bytes [x61; x00; x62; x00])) false
      = (dst, nDst, nSrc, None) /\
    take (Z.to_nat nDst) dst =
      concat (map (fun name => name ++ [x00]) (Font.Pages two_pages_font)) ++ dropped /\
    x00 ∉ dropped.
Proof.
  assert (Hid : uint8 x03 = 3) by reflexivity.
  assert (H : Font.switch Encoding NewFont x03 4 (bytes [x61; x00; x62; x00]) =
    Value (two_pages_font, None)) by (by vm_compute).
  exact (conj Hid (conj H (pages_are_the_terminated_names _ _ _ _ _ _ Hid H))).
Defined.

(** X7 on the Pages block of the names [a] and [b]. *)
Lemma pages_without_high_bytes_witness :
  4 < len (bytes pages_stream) /\
  uint8 (tag (bytes pages_stream)) = 3 /\
  5 + declared (bytes pages_stream) <= len (bytes pages_stream) /\
  declared (bytes pages_stream) * 5 < 2 ^ 32 /\
  Forall (fun c => uint8 c < 128)
    (window (elems (bytes pages_stream)) 5 (5 + declared (bytes pages_stream))) /\
  Font.block Encoding NewFont (bytes pages_stream) =
    Value (Font.Continue two_pages_font (bytes [])).
Proof.
  assert (Hlen : 4 < len (bytes pages_stream)) by (by vm_compute).
  assert (Htag : uint8 (tag (bytes pages_stream)) = 3) by reflexivity.
  assert (Hle : 5 + declared (bytes pages_stream) <= len (bytes pages_stream))
    by (by vm_compute).
  assert (Hw : declared (bytes pages_stream) * 5 < 2 ^ 32) by (by vm_compute).
  assert (Ha : Forall (fun c => uint8 c < 128)
    (window (elems (bytes pages_stream)) 5 (5 + declared (bytes pages_stream)))).
  { change (Forall (fun c => uint8 c < 128) [x61; x00; x62; x00]).
    repeat (constructor; [by vm_compute|]). constructor. }
  exact (conj Hlen (conj Htag (conj Hle (conj Hw (conj Ha
          (proj2 (pages_without_high_bytes NewFont (bytes pages_stream) Hlen Htag Hle Hw)
             Ha)))))).
Defined.

(** X8 on a Pages block followed by a KerningPairs block. *)
Lemma well_formed_never_panics_witness :
  take 4 (elems (bytes (header ++ pages_stream ++ kerning_stream))) = header /\
  well_formed (drop 4 (elems (bytes (header ++ pages_stream ++ kerning_stream)))) /\
  exists f' oe,
    Font.FromBuffer Encoding NewFont (bytes (header ++ pages_stream ++ kerning_stream))
      = Some (Value (f', oe)) /\
    (oe = None \/ oe = Some (InfoBlockError (InfoFontNameError ErrShortDst)) \/
     oe = Some PagesTextError).
Proof.
  assert (Hh : take 4 (elems (bytes (header ++ pages_stream ++ kerning_stream))) = header)
    by reflexivity.
  assert (Hwf : well_formed (drop 4 (elems (bytes (header ++ pages_stream ++ kerning_stream))))).
  { change (well_formed (pages_stream ++ kerning_stream)).
    apply wf_block; [by vm_compute..|].
    change (well_formed kerning_stream).
    apply wf_block; [by vm_compute..|].
    apply wf_end. vm_compute. lia. }
  exact (conj Hh (conj Hwf (well_formed_never_panics NewFont _ Hh Hwf))).
Defined.

(** X9 on a decode that succeeds. *)
Lemma FromBuffer_outcomes_witness :
  Font.FromBuffer Encoding NewFont (bytes (header ++ pages_stream))
    = Some (Value (two_pages_font, None)) /\
  take 4 (elems (bytes (header ++ pages_stream))) = header.
Proof.
  assert (H : Font.FromBuffer Encoding NewFont (bytes (header ++ pages_stream))
    = Some (Value (two_pages_font, None))) by (by vm_compute).
  exact (conj H (proj1 (FromBuffer_outcomes _ _ _ _ _ H) eq_refl)).
Defined.

(** X10 on the decode of a kerning pair whose amount is 65535. *)
Lemma decoded_font_in_range_witness :
  Font_valid NewFont /\
  Font.FromBuffer Encoding NewFont (bytes (header ++ kerning_stream))
    = Some (Value (Font.mk None None [] [] [KerningPair.mk 0 0 65535], None)) /\
  Font_valid (Font.mk None None [] [] [KerningPair.mk 0 0 65535]).
Proof.
  destruct (decoded_font_in_range Encoding) as (Hnew & Hkeep & _).
  assert (H : Font.FromBuffer Encoding NewFont (bytes (header ++ kerning_stream))
    = Some (Value (Font.mk None None [] [] [KerningPair.mk 0 0 65535], None)))
    by (by vm_compute).
  exact (conj Hnew (conj H (Hkeep _ _ _ _ Hnew H))).
Defined.

(** X11 on a buffer without spare capacity and the same bytes with one
    spare byte. *)
Lemma decode_ignores_spare_capacity_witness :
  Font.FromBuffer Encoding NewFont (Slice (header ++ pages_stream) [])
    = Some (Value (two_pages_font, None)) /\
  Font.FromBuffer Encoding NewFont (Slice (header ++ pages_stream) [xff])
    = Some (Value (two_pages_font, None)).
Proof.
  assert (H : Font.FromBuffer Encoding NewFont (Slice (header ++ pages_stream) [])
    = Some (Value (two_pages_font, None))) by (by vm_compute).
  exact (conj H (decode_ignores_spare_capacity _ _ _ _ [xff] _ H)).
Defined.

(** X12 on a Pages block followed by a KerningPairs block. *)
Lemma decode_concatenation_witness :
  reaches Encoding NewFont (Slice pages_stream []) two_pages_font (Slice [] []) /\
  Font.FromBuffer Encoding NewFont (Slice (header ++ pages_stream ++ kerning_stream) []) =
  Font.FromBuffer Encoding two_pages_font (Slice (header ++ kerning_stream) []).
Proof.
  assert (Hr : reaches Encoding NewFont (Slice pages_stream []) two_pages_font (Slice [] [])).
  { apply (reaches_pass _ _ _ two_pages_font (Slice [] [])); [by vm_compute..|].
    apply reaches_here. }
  exact (conj Hr (decode_concatenation _ _ _ _ kerning_stream _ [] Hr)).
Defined.

(** X13 on a decode that stores two pages. *)
Lemma field_written_by_its_block_witness :
  Font.FromBuffer Encoding NewFont (bytes (header ++ pages_stream))
    = Some (Value (two_pages_font, None)) /\
  Font.Pages two_pages_font <> Font.Pages NewFont /\
  dispatches Encoding NewFont (bytes (header ++ pages_stream)) 3.
Proof.
  assert (H : Font.FromBuffer Encoding NewFont (bytes (header ++ pages_stream))
    = Some (Value (two_pages_font, None))) by (by vm_compute).
  assert (Hne : Font.Pages two_pages_font <> Font.Pages NewFont) by done.
  exact (conj H (conj Hne
          (proj1 (proj2 (proj2 (field_written_by_its_block _ _ _ _ _ H))) Hne))).
Defined.
